(** * Camera cleanup and hotspot worker: a shallow embedding

    The repository holds three drafts of one periodic job over the
    [cameras] collection.  The main development follows the patched
    draft of [cleanup.js]: it reads the collection once, runs a
    per-document maintenance loop (defaults, hide, delete, hotspot
    preservation) and then a quadratic hotspot detection loop that
    promotes documents and upserts summaries into [camera_hotspots].
    The first draft of [cleanup.js] (module [Draft]) and the surviving
    part of [firestore_maintainer.js] (module [Maintainer]) are embedded
    next to it, for the places where they differ.

    The embedding keeps the dynamic typing of the source: a document
    field holds a JavaScript value, and truthiness, [||], [Number(..)],
    [+] and the relational operators are written out.  The store writes
    of a run are collected in a log, in program order, and replayed on
    the store.  The distance library and the date and number formatting
    built-ins are parameters.

    [maintain], [maintenance_pass], [main] and [run] describe a run in
    which no statement throws and no update is rejected.  The script
    with its failures is [worker], built from [iteration], [loop] and
    [commit]: a log line that formats a date throws a RangeError
    outside the range of [Date], Firestore rejects the update of a
    missing document, and in both cases the script ends with exit code
    1 after the writes made so far. *)

From Stdlib Require Import ZArith QArith Qminmax Lia Bool List Ascii String.
From stdpp Require Import base strings list gmap pretty.
Import ListNotations.

Local Open Scope string_scope.
Local Open Scope list_scope.
Local Open Scope Z_scope.

(** ** JavaScript values *)

Module JS.

(** A JS number.  Timestamps, counts, confidences and distances are
    integers in the data; fractional doubles, and the rounding of
    integers beyond 2^53, are outside the model. *)
Inductive num : Type :=
| NaN
| NegInf
| PosInf
| Fin (z : Z).

Inductive value : Type :=
| VUndef
| VNull
| VBool (b : bool)
| VNum (n : num)
| VStr (s : string).

#[global] Instance num_eq_dec : EqDecision num.
Proof. solve_decision. Defined.

#[global] Instance value_eq_dec : EqDecision value.
Proof. solve_decision. Defined.

(** ToBoolean on numbers and values. *)
Definition num_truthy (n : num) : bool :=
  match n with
  | NaN => false
  | Fin z => negb (z =? 0)
  | _ => true
  end.

Definition truthy (v : value) : bool :=
  match v with
  | VUndef | VNull => false
  | VBool b => b
  | VNum n => num_truthy n
  | VStr s => negb (String.eqb s "")
  end.

(** [a || b] *)
Definition or (a b : value) : value := if truthy a then a else b.

Definition num_or (a b : num) : num := if num_truthy a then a else b.

(** [v === undefined || v === null] *)
Definition nullish (v : value) : bool :=
  match v with
  | VUndef | VNull => true
  | _ => false
  end.

(** [v === 'literal'] *)
Definition is_str (v : value) (lit : string) : bool :=
  match v with
  | VStr s => String.eqb s lit
  | _ => false
  end.

(** StringToNumber, for the literals the number type can hold: an
    optionally signed run of decimal digits or [Infinity], with
    surrounding blanks; the empty string is 0, anything else NaN. *)
Definition is_blank (c : ascii) : bool :=
  let n := nat_of_ascii c in
  (n =? 32)%nat || (n =? 9)%nat || (n =? 10)%nat || (n =? 13)%nat.

Fixpoint trim_left (s : string) : string :=
  match s with
  | String c r => if is_blank c then trim_left r else s
  | EmptyString => EmptyString
  end.

Fixpoint trim_right (s : string) : string :=
  match s with
  | String c r =>
      match trim_right r with
      | EmptyString => if is_blank c then EmptyString else String c EmptyString
      | r' => String c r'
      end
  | EmptyString => EmptyString
  end.

Definition digit (c : ascii) : option Z :=
  let n := nat_of_ascii c in
  if ((48 <=? n) && (n <=? 57))%nat then Some (Z.of_nat n - 48) else None.

Fixpoint digits (acc : Z) (s : string) : option Z :=
  match s with
  | EmptyString => Some acc
  | String c r =>
      match digit c with
      | Some k => digits (10 * acc + k) r
      | None => None
      end
  end.

Definition unsigned_literal (s : string) : num :=
  if String.eqb s "Infinity" then PosInf
  else match s with
       | EmptyString => NaN
       | _ => match digits 0 s with Some z => Fin z | None => NaN end
       end.

Definition num_neg (n : num) : num :=
  match n with
  | NaN => NaN
  | NegInf => PosInf
  | PosInf => NegInf
  | Fin z => Fin (- z)
  end.

(** [Number(s)] on the literals the model covers: white space around
    an optional sign and either decimal digits or [Infinity]; the empty
    string reads as 0.  Every other string reads as NaN here, also the
    decimal fractions, exponents and hexadecimal literals that
    JavaScript converts. *)
Definition string_to_number (s : string) : num :=
  match trim_right (trim_left s) with
  | EmptyString => Fin 0
  | String "+"%char r => unsigned_literal r
  | String "-"%char r => num_neg (unsigned_literal r)
  | t => unsigned_literal t
  end.

(** [Number(v)] *)
Definition to_number (v : value) : num :=
  match v with
  | VUndef => NaN
  | VNull => Fin 0
  | VBool b => Fin (if b then 1 else 0)
  | VNum n => n
  | VStr s => string_to_number s
  end.

(** ToString *)
Definition num_to_string (n : num) : string :=
  match n with
  | NaN => "NaN"
  | NegInf => "-Infinity"
  | PosInf => "Infinity"
  | Fin z => pretty z
  end.

Definition to_string (v : value) : string :=
  match v with
  | VUndef => "undefined"
  | VNull => "null"
  | VBool b => if b then "true" else "false"
  | VNum n => num_to_string n
  | VStr s => s
  end.

Definition num_add (a b : num) : num :=
  match a, b with
  | NaN, _ | _, NaN => NaN
  | PosInf, NegInf | NegInf, PosInf => NaN
  | PosInf, _ | _, PosInf => PosInf
  | NegInf, _ | _, NegInf => NegInf
  | Fin x, Fin y => Fin (x + y)
  end.

(** [a + b]: concatenation as soon as one side is a string. *)
Definition plus (a b : value) : value :=
  match a, b with
  | VStr s, _ => VStr (s +:+ to_string b)
  | _, VStr t => VStr (to_string a +:+ t)
  | _, _ => VNum (num_add (to_number a) (to_number b))
  end.

(** [a < b] and [a <= b] on numbers: false as soon as one side is NaN. *)
Definition num_lt (a b : num) : bool :=
  match a, b with
  | NaN, _ | _, NaN => false
  | _, NegInf => false
  | NegInf, _ => true
  | PosInf, _ => false
  | _, PosInf => true
  | Fin x, Fin y => x <? y
  end.

Definition num_le (a b : num) : bool :=
  match a, b with
  | NaN, _ | _, NaN => false
  | NegInf, _ => true
  | _, NegInf => false
  | _, PosInf => true
  | PosInf, _ => false
  | Fin x, Fin y => x <=? y
  end.

(** [Math.min(a, b)], [Math.max(a, b)], [Math.max(...l)] *)
Definition num_min (a b : num) : num :=
  match a, b with
  | NaN, _ | _, NaN => NaN
  | _, _ => if num_le a b then a else b
  end.

Definition num_max (a b : num) : num :=
  match a, b with
  | NaN, _ | _, NaN => NaN
  | _, _ => if num_le a b then b else a
  end.

Definition max_list (l : list num) : num := fold_left num_max l NegInf.

End JS.

Import JS.

(** ** Documents, writes and the store *)

(** A document of the [cameras] collection (and of [camera_reports]):
    the fields the worker reads or writes; an absent field reads as
    [VUndef]. *)
Record doc : Type := mkDoc {
  type : value;
  timestamp : value;
  count : value;
  confidence : value;
  hotspot : value;
  removed : value;
  removedByWorker : value;
  expiresAt : value;
  lastSeen : value;
  lat : value;
  lon : value
}.

Inductive field : Type :=
| Ftype | Ftimestamp | Fcount | Fconfidence | Fhotspot | Fremoved
| FremovedByWorker | FexpiresAt | FlastSeen | Flat | Flon.

#[global] Instance field_eq_dec : EqDecision field.
Proof. solve_decision. Defined.

#[global] Instance doc_eq_dec : EqDecision doc.
Proof. solve_decision. Defined.

Definition get (f : field) (d : doc) : value :=
  match f with
  | Ftype => type d
  | Ftimestamp => timestamp d
  | Fcount => count d
  | Fconfidence => confidence d
  | Fhotspot => hotspot d
  | Fremoved => removed d
  | FremovedByWorker => removedByWorker d
  | FexpiresAt => expiresAt d
  | FlastSeen => lastSeen d
  | Flat => lat d
  | Flon => lon d
  end.

(** [d.f = v] *)
Definition set (f : field) (v : value) (d : doc) : doc :=
  let 'mkDoc ty ts c cf h r rw e ls la lo := d in
  match f with
  | Ftype => mkDoc v ts c cf h r rw e ls la lo
  | Ftimestamp => mkDoc ty v c cf h r rw e ls la lo
  | Fcount => mkDoc ty ts v cf h r rw e ls la lo
  | Fconfidence => mkDoc ty ts c v h r rw e ls la lo
  | Fhotspot => mkDoc ty ts c cf v r rw e ls la lo
  | Fremoved => mkDoc ty ts c cf h v rw e ls la lo
  | FremovedByWorker => mkDoc ty ts c cf h r v e ls la lo
  | FexpiresAt => mkDoc ty ts c cf h r rw v ls la lo
  | FlastSeen => mkDoc ty ts c cf h r rw e v la lo
  | Flat => mkDoc ty ts c cf h r rw e ls v lo
  | Flon => mkDoc ty ts c cf h r rw e ls la v
  end.

(** The object handed to [update(..)]: fields and their new values. *)
Definition patch : Type := list (field * value).

Definition apply_patch (p : patch) (d : doc) : doc :=
  fold_left (fun acc fv => set fv.1 fv.2 acc) p d.

(** A document of [camera_hotspots]. *)
Record summary : Type := mkSummary {
  hs_lat : num;
  hs_lon : num;
  hs_type : string;
  report_count : nat;
  lastReported : num;
  hs_confidence : Q;
  updatedAt : Z
}.

(** The writes the worker issues: [update], [delete] on [cameras] and
    [set(.., {merge: true})] on [camera_hotspots]. *)
Inductive write : Type :=
| Update (id : string) (p : patch)
| Delete (id : string)
| SetMerge (key : string) (s : summary).

(** A collection snapshot: documents with their ids, in snapshot order. *)
Definition collection : Type := list (string * doc).

Record store : Type := mkStore {
  cameras : collection;
  camera_hotspots : gmap string summary
}.

Definition coll_lookup (id : string) (c : collection) : option doc :=
  snd <$> List.find (fun e => String.eqb e.1 id) c.

(** [update] patches the addressed document in place.  Firestore
    rejects an update of a missing document, which ends the script:
    that is [commit] below; here such an update changes nothing. *)
Definition coll_update (id : string) (p : patch) (c : collection) : collection :=
  List.map (fun e => if String.eqb e.1 id then (e.1, apply_patch p e.2) else e) c.

Definition coll_delete (id : string) (c : collection) : collection :=
  List.filter (fun e => negb (String.eqb e.1 id)) c.

Definition apply_write (st : store) (w : write) : store :=
  match w with
  | Update id p => mkStore (coll_update id p (cameras st)) (camera_hotspots st)
  | Delete id => mkStore (coll_delete id (cameras st)) (camera_hotspots st)
  | SetMerge k s => mkStore (cameras st) (<[k := s]> (camera_hotspots st))
  end.

Definition apply_writes (log : list write) (st : store) : store :=
  fold_left apply_write log st.

(** ** Configuration *)

Definition MOBILE_EXPIRE_HOURS : Z := 10.
Definition OTHER_EXPIRE_HOURS : Z := 10.
Definition FIXED_REMOVE_THRESHOLD : Z := -3.
Definition HOTSPOT_RADIUS_M : Z := 200.
Definition HOTSPOT_WINDOW_DAYS : Z := 10.
Definition HOTSPOT_THRESHOLD : nat := 3.
Definition PRESERVE_HOTSPOT_DAYS : Z := 10.

Definition MS_HOUR : Z := 1000 * 60 * 60.
Definition MS_DAY : Z := 1000 * 60 * 60 * 24.

(** ** Per-document maintenance *)

Definition vnum (z : Z) : value := VNum (Fin z).

(** [d.type || 'mobile_camera'] *)
Definition type_of (d : doc) : value := JS.or (type d) (VStr "mobile_camera").

(** [(typeof d.count === 'number') ? d.count : Number(d.count || 0)] *)
Definition count_of (d : doc) : num :=
  match count d with
  | VNum n => n
  | c => to_number (JS.or c (vnum 0))
  end.

(** Each [ensure_*] is one of the "fill the missing field" blocks: the
    document as the worker holds it afterwards, and the writes issued. *)
Definition ensure_timestamp (now : Z) (id : string) (d : doc) : doc * list write :=
  if negb (truthy (timestamp d))
  then (set Ftimestamp (vnum now) d, [Update id [(Ftimestamp, vnum now)]])
  else (d, []).

Definition ensure_confidence (id : string) (d : doc) : doc * list write :=
  if nullish (confidence d)
  then
    let conf := if is_str (type_of d) "fixed_camera" then 100 else 70 in
    (set Fconfidence (vnum conf) d, [Update id [(Fconfidence, vnum conf)]])
  else (d, []).

Definition ensure_hotspot (id : string) (d : doc) : doc * list write :=
  if negb (truthy (hotspot d))
  then (set Fhotspot (VBool true) d, [Update id [(Fhotspot, VBool true)]])
  else (d, []).

Definition lifetimeHours (d : doc) : Z :=
  if is_str (type_of d) "other" then OTHER_EXPIRE_HOURS else MOBILE_EXPIRE_HOURS.

Definition ensure_expiresAt (now : Z) (id : string) (d : doc) : doc * list write :=
  if negb (truthy (expiresAt d))
  then
    let e := num_add (num_or (to_number (timestamp d)) (Fin now))
                     (Fin (lifetimeHours d * MS_HOUR)) in
    (set FexpiresAt (VNum e) d, [Update id [(FexpiresAt, VNum e)]])
  else (d, []).

Definition ensure_lastSeen (now : Z) (id : string) (d : doc) : doc * list write :=
  if negb (truthy (lastSeen d))
  then
    let v := JS.or (timestamp d) (vnum now) in
    (set FlastSeen v d, [Update id [(FlastSeen, v)]])
  else (d, []).

Definition mark_removed (now : Z) (id : string) : write :=
  Update id [(Fremoved, VBool true); (FremovedByWorker, VBool true);
             (FlastSeen, vnum now)].

(** The write that extends the preservation of an expired hotspot. *)
Definition extension (now : Z) (id : string) : write :=
  Update id [(FexpiresAt, vnum (now + PRESERVE_HOTSPOT_DAYS * MS_DAY));
             (FlastSeen, vnum now)].

Definition hotspotWindowCutoff (now : Z) : Z := now - HOTSPOT_WINDOW_DAYS * MS_DAY.

(** The fixed-camera branch, after the defaults: mark removed at the
    threshold, never delete. *)
Definition fixed_decision (now : Z) (id : string) (cnt : num) (d : doc) : list write :=
  if num_le cnt (Fin FIXED_REMOVE_THRESHOLD) && negb (truthy (removed d))
  then [mark_removed now id]
  else [].

(** Delete when older than the window, otherwise hide (once). *)
Definition hide_or_delete (now : Z) (id : string) (d : doc) : list write :=
  let ts := num_or (to_number (timestamp d)) (Fin 0) in
  if num_lt ts (Fin (hotspotWindowCutoff now))
  then [Delete id]
  else if negb (truthy (removed d)) then [mark_removed now id] else [].

(** The mobile/other branch, after the defaults. *)
Definition mobile_decision (now : Z) (id : string) (cnt : num) (d : doc) : list write :=
  if negb (truthy (hotspot d)) && num_le cnt (Fin 0)
  then hide_or_delete now id d
  else if truthy (expiresAt d) && num_lt (to_number (expiresAt d)) (Fin now)
  then
    if negb (truthy (hotspot d))
    then hide_or_delete now id d
    else [extension now id]
  else [].

(** The body of the per-document loop when none of its log lines
    throws: the in-memory document after the iteration and the writes
    it issued, in order.  ([iteration] below has the log lines.) *)
Definition maintain (now : Z) (cam : string * doc) : doc * list write :=
  let id := cam.1 in
  let d := cam.2 in
  let '(d, w1) := ensure_timestamp now id d in
  let cnt := count_of d in
  let '(d, w2) := ensure_confidence id d in
  if is_str (type_of d) "fixed_camera"
  then
    let '(d, w3) := ensure_hotspot id d in
    (d, w1 ++ w2 ++ w3 ++ fixed_decision now id cnt d)
  else
    let '(d, w3) := ensure_expiresAt now id d in
    let '(d, w4) := ensure_lastSeen now id d in
    (d, w1 ++ w2 ++ w3 ++ w4 ++ mobile_decision now id cnt d).

(** The whole first loop over the snapshot: [cams] as held in memory
    afterwards (deleted documents stay in the array) and the log. *)
Definition maintenance_pass (now : Z) (cams : collection) : collection * list write :=
  (List.map (fun cam => (cam.1, (maintain now cam).1)) cams,
   List.flat_map (fun cam => (maintain now cam).2) cams).

(** ** Hotspot detection *)

Section Worker.

(** [geolib.getDistance({latitude: a, longitude: b},
    {latitude: c, longitude: d})], in metres: the library's function,
    taken as given. *)
Variable getDistance : value -> value -> value -> value -> num.

(** [x.toFixed(4)], the built-in formatting of a number. *)
Variable toFixed4 : num -> string.

(** The optional read of [camera_reports]:
    [where('timestamp', '>=', cutoff)], ids prefixed with [r_]; an
    unavailable collection ([None]) reads as empty. *)
Definition fetch_reports (cutoff : Z) (camera_reports : option collection) : collection :=
  match camera_reports with
  | None => []
  | Some rs =>
      List.map (fun e => ("r_" +:+ e.1, e.2))
        (List.filter
           (fun e => match timestamp e.2 with
                     | VNum n => num_le (Fin cutoff) n
                     | _ => false
                     end) rs)
  end.

(** The filter that builds [mobileDocs]. *)
Definition recent_mobile (cutoff : Z) (c : string * doc) : bool :=
  is_str (type_of c.2) "mobile_camera"
  && (truthy (timestamp c.2) && num_le (Fin cutoff) (to_number (timestamp c.2))).

Definition mobileDocs (now : Z) (cams reportDocs : collection) : collection :=
  List.filter (recent_mobile (hotspotWindowCutoff now)) cams
  ++ List.filter (recent_mobile (hotspotWindowCutoff now)) reportDocs.

(** [!d.lat || !d.lon || !d.timestamp], negated. *)
Definition located (d : doc) : bool :=
  truthy (lat d) && truthy (lon d) && truthy (timestamp d).

Definition nearby (b : doc) (docs : collection) : collection :=
  List.filter
    (fun o =>
       if negb (located o.2) then false
       else num_le (getDistance (lat b) (lon b) (lat o.2) (lon o.2))
                   (Fin HOTSPOT_RADIUS_M))
    docs.

(** The patch that promotes one member of a cluster; [later] is the
    clock read inside the loop (one reading stands for all of them). *)
Definition promotion (later : Z) (nd : doc) : patch :=
  let newConf :=
    num_min (Fin 100) (to_number (JS.plus (JS.or (confidence nd) (vnum 70)) (vnum 20))) in
  let preserveUntil := later + PRESERVE_HOTSPOT_DAYS * MS_DAY in
  [(Fhotspot, VBool true);
   (Fconfidence, VNum newConf);
   (FexpiresAt, vnum preserveUntil);
   (FlastSeen, VNum (num_max (to_number (JS.or (lastSeen nd) (vnum 0)))
                             (to_number (JS.or (timestamp nd) (vnum 0)))))].

(** Entries of [camera_reports] (ids prefixed with [r_]) are skipped. *)
Definition promote (later : Z) (n : string * doc) : list write :=
  let nid := n.1 in
  if negb (String.eqb nid "") && String.prefix "r_" nid then []
  else [Update nid (promotion later n.2)].

Definition hotspotId (b : doc) : string :=
  "hs_" +:+ toFixed4 (to_number (lat b)) +:+ "_" +:+ toFixed4 (to_number (lon b)).

Definition hotspotDoc (later : Z) (b : doc) (near : collection) : summary :=
  let recurringCount := length near in
  {| hs_lat := to_number (lat b);
     hs_lon := to_number (lon b);
     hs_type := "mobile_camera";
     report_count := recurringCount;
     lastReported :=
       max_list (List.map (fun n => to_number (JS.or (timestamp n.2) (vnum 0))) near);
     hs_confidence :=
       Qred (Qmin 1 (Z.of_nat recurringCount # Pos.of_nat HOTSPOT_THRESHOLD));
     updatedAt := later |}.

(** One iteration of the detection loop, for the seed [base]. *)
Definition cluster (later : Z) (docs : collection) (base : string * doc) : list write :=
  let b := base.2 in
  if negb (located b) then []
  else if truthy (hotspot b) then []
  else
    let near := nearby b docs in
    if (HOTSPOT_THRESHOLD <=? length near)%nat
    then List.flat_map (promote later) near
         ++ [SetMerge (hotspotId b) (hotspotDoc later b near)]
    else [].

Definition hotspot_pass (later : Z) (docs : collection) : list write :=
  List.flat_map (cluster later docs) docs.

(** ** The job *)

(** The writes of one run in which nothing throws and no update is
    rejected, in order: [now] is the clock at the start, [later] the
    clock during detection, [cams] the snapshot of [cameras] and
    [camera_reports] the auxiliary collection.  ([worker] below is the
    script with its failures; what it issues is a beginning of these
    writes.) *)
Definition main (now later : Z) (cams : collection)
    (camera_reports : option collection) : list write :=
  let '(cams, log) := maintenance_pass now cams in
  let reportDocs := fetch_reports (hotspotWindowCutoff now) camera_reports in
  log ++ hotspot_pass later (mobileDocs now cams reportDocs).

(** The store after one run in which nothing fails. *)
Definition run (now later : Z) (camera_reports : option collection)
    (st : store) : store :=
  apply_writes (main now later (cameras st) camera_reports) st.

End Worker.

(** ** The first draft

    [scripts/cleanup.js] is the job before the patch: shorter lifetimes
    and windows, immediate deletion instead of hiding, no raw reports,
    and a detection loop that tests the coordinates of neighbours only.

    The module describes a run of the draft in which nothing fails: no
    log line throws (the lines after the expiry default and after the
    deletion on expiry format a date), the distance library accepts the
    coordinates of every seed, and no update is rejected, although the
    draft promotes records it has just deleted.  A run that fails has
    issued a beginning of the writes listed here. *)

Module Draft.

Definition MOBILE_EXPIRE_HOURS : Z := 8.
Definition OTHER_EXPIRE_HOURS : Z := 4.
Definition HOTSPOT_WINDOW_DAYS : Z := 7.
Definition PRESERVE_HOTSPOT_DAYS : Z := 7.

Definition lifetimeHours (d : doc) : Z :=
  if is_str (type_of d) "other" then OTHER_EXPIRE_HOURS else MOBILE_EXPIRE_HOURS.

Definition ensure_expiresAt (now : Z) (id : string) (d : doc) : doc * list write :=
  if negb (truthy (expiresAt d))
  then
    let e := num_add (num_or (to_number (timestamp d)) (Fin now))
                     (Fin (lifetimeHours d * MS_HOUR)) in
    (set FexpiresAt (VNum e) d, [Update id [(FexpiresAt, VNum e)]])
  else (d, []).

Definition hotspotWindowCutoff (now : Z) : Z := now - HOTSPOT_WINDOW_DAYS * MS_DAY.

(** Immediate deletion at [count <= 0], then deletion on expiry, both
    unless the hotspot flag is set. *)
Definition mobile_decision (now : Z) (id : string) (cnt : num) (d : doc) : list write :=
  if num_le cnt (Fin 0) && negb (truthy (hotspot d))
  then [Delete id]
  else if truthy (expiresAt d) && num_lt (to_number (expiresAt d)) (Fin now)
          && negb (truthy (hotspot d))
  then [Delete id]
  else [].

Definition maintain (now : Z) (cam : string * doc) : doc * list write :=
  let id := cam.1 in
  let d := cam.2 in
  let '(d, w1) := ensure_timestamp now id d in
  let cnt := count_of d in
  let '(d, w2) := ensure_confidence id d in
  if is_str (type_of d) "fixed_camera"
  then
    let '(d, w3) := ensure_hotspot id d in
    (d, w1 ++ w2 ++ w3 ++ fixed_decision now id cnt d)
  else
    let '(d, w3) := ensure_expiresAt now id d in
    let '(d, w4) := ensure_lastSeen now id d in
    (d, w1 ++ w2 ++ w3 ++ w4 ++ mobile_decision now id cnt d).

Definition maintenance_pass (now : Z) (cams : collection) : collection * list write :=
  (List.map (fun cam => (cam.1, (maintain now cam).1)) cams,
   List.flat_map (fun cam => (maintain now cam).2) cams).

Section Detection.

Variable getDistance : value -> value -> value -> value -> num.
Variable toFixed4 : num -> string.

Definition mobileDocs (now : Z) (cams : collection) : collection :=
  List.filter (recent_mobile (hotspotWindowCutoff now)) cams.

Definition nearby (now : Z) (b : doc) (docs : collection) : collection :=
  List.filter
    (fun o =>
       if negb (located o.2) then false
       else if num_lt (to_number (timestamp o.2)) (Fin (hotspotWindowCutoff now)) then false
       else num_le (getDistance (lat b) (lon b) (lat o.2) (lon o.2))
                   (Fin HOTSPOT_RADIUS_M))
    docs.

Definition promotion (later : Z) (nd : doc) : patch :=
  let newConf :=
    num_min (Fin 100) (to_number (JS.plus (JS.or (confidence nd) (vnum 70)) (vnum 20))) in
  let preserveUntil := later + PRESERVE_HOTSPOT_DAYS * MS_DAY in
  [(Fhotspot, VBool true);
   (Fconfidence, VNum newConf);
   (FexpiresAt, vnum preserveUntil);
   (FlastSeen, VNum (num_max (to_number (JS.or (lastSeen nd) (vnum 0)))
                             (to_number (JS.or (timestamp nd) (vnum 0)))))].

Definition cluster (now later : Z) (docs : collection) (base : string * doc) : list write :=
  let b := base.2 in
  if truthy (hotspot b) then []
  else
    let near := nearby now b docs in
    if (HOTSPOT_THRESHOLD <=? length near)%nat
    then List.map (fun n => Update n.1 (promotion later n.2)) near
         ++ [SetMerge (hotspotId toFixed4 b) (hotspotDoc later b near)]
    else [].

Definition hotspot_pass (now later : Z) (docs : collection) : list write :=
  List.flat_map (cluster now later docs) docs.

Definition main (now later : Z) (cams : collection) : list write :=
  let '(cams, log) := maintenance_pass now cams in
  log ++ hotspot_pass now later (mobileDocs now cams).

End Detection.

End Draft.

(** ** Reading the log *)

(** The effect of a log on the one document stored under [id]: [None]
    once it is deleted. *)
Definition replay_write (id : string) (o : option doc) (w : write) : option doc :=
  match w with
  | Update id' p => if String.eqb id' id then apply_patch p <$> o else o
  | Delete id' => if String.eqb id' id then None else o
  | SetMerge _ _ => o
  end.

Definition replay (log : list write) (id : string) (o : option doc) : option doc :=
  fold_left (replay_write id) log o.

(** The entry of the collection after a log, if it is still there. *)
Definition replay_entry (log : list write) (e : string * doc) : option (string * doc) :=
  pair e.1 <$> replay log e.1 (Some e.2).

(** The [cameras] document a write addresses. *)
Definition target (w : write) : option string :=
  match w with
  | Update id _ | Delete id => Some id
  | SetMerge _ _ => None
  end.

Definition is_upsert (w : write) : bool :=
  match w with
  | SetMerge _ _ => true
  | _ => false
  end.

Definition is_update (w : write) : bool :=
  match w with
  | Update _ _ => true
  | _ => false
  end.

(** The store after the first loop only. *)
Definition maintained (now : Z) (st : store) : store :=
  apply_writes (maintenance_pass now (cameras st)).2 st.

(** The candidate set of a run: [mobileDocs] as built after the first
    loop, from the documents held in memory and the fetched reports. *)
Definition candidates (now : Z) (cams : collection)
    (camera_reports : option collection) : collection :=
  mobileDocs now (maintenance_pass now cams).1
    (fetch_reports (hotspotWindowCutoff now) camera_reports).

(** A document of the snapshot that detection at [now] can use and
    promote: a mobile report with truthy coordinates and a timestamp
    inside the window, whose id is not taken for a raw report. *)
Definition clusterable (now : Z) (e : string * doc) : Prop :=
  is_str (type_of e.2) "mobile_camera" = true
  /\ truthy (lat e.2) = true /\ truthy (lon e.2) = true
  /\ truthy (timestamp e.2) = true
  /\ num_le (Fin (hotspotWindowCutoff now)) (to_number (timestamp e.2)) = true
  /\ String.prefix "r_" e.1 = false.

(** Pairwise within the radius (each document also of itself). *)
Definition mutually_near (gd : value -> value -> value -> value -> num)
    (cams : collection) : Prop :=
  forall a b, In a cams -> In b cams ->
    num_le (gd (lat a.2) (lon a.2) (lat b.2) (lon b.2)) (Fin HOTSPOT_RADIUS_M) = true.

Definition unflagged (e : string * doc) : bool := negb (truthy (hotspot e.2)).

(** ** Settled documents *)

(** The lifecycle decision of the loop for a document whose defaults are
    in place. *)
Definition decision (now : Z) (id : string) (d : doc) : list write :=
  if is_str (type_of d) "fixed_camera"
  then fixed_decision now id (count_of d) d
  else mobile_decision now id (count_of d) d.

(** No default is missing. *)
Definition normal (d : doc) : bool :=
  truthy (timestamp d) && negb (nullish (confidence d))
  && (if is_str (type_of d) "fixed_camera"
      then truthy (hotspot d)
      else truthy (expiresAt d) && truthy (lastSeen d)).

(** [timestamp] holds epoch milliseconds or is unset, and [lastSeen]
    holds a number or is unset. *)
Definition epoch_typed (d : doc) : bool :=
  match timestamp d with
  | VUndef | VNull => true
  | VNum (Fin z) => 0 <=? z
  | _ => false
  end
  && match lastSeen d with
     | VUndef | VNull | VNum _ => true
     | _ => false
     end.

(** The stored document [x] agrees with the in-memory copy [dm] on what
    detection reads, and a further iteration of the loop would write
    nothing for it. *)
Definition settled (now : Z) (id : string) (dm x : doc) : Prop :=
  type x = type dm /\ count x = count dm /\ lat x = lat dm /\ lon x = lon dm
  /\ timestamp x = timestamp dm
  /\ (hotspot x = hotspot dm \/ hotspot x = VBool true)
  /\ normal x = true /\ decision now id x = [].

(** Each located document is within the radius of itself. *)
Definition self_near (gd : value -> value -> value -> value -> num)
    (cams : collection) : Prop :=
  forall e, In e cams -> truthy (lat e.2) = true -> truthy (lon e.2) = true ->
    num_le (gd (lat e.2) (lon e.2) (lat e.2) (lon e.2)) (Fin HOTSPOT_RADIUS_M) = true.

(** A coordinate or timestamp that is exactly 0. *)
Definition has_zero (d : doc) : Prop :=
  lat d = vnum 0 \/ lon d = vnum 0 \/ timestamp d = vnum 0.

(** The fields the loop fills with defaults or refreshes. *)
Definition default_field (f : field) : Prop :=
  In f [Ftimestamp; Fconfidence; Fhotspot; FexpiresAt; FlastSeen].

(** ** Lifecycle conditions and accepted logs *)

(** [d.expiresAt && Number(d.expiresAt) < now] *)
Definition expired (now : Z) (d : doc) : bool :=
  truthy (expiresAt d) && num_lt (to_number (expiresAt d)) (Fin now).

(** [ts < windowCutoff], where [ts = Number(d.timestamp) || 0]. *)
Definition outside_window (now : Z) (d : doc) : bool :=
  num_lt (num_or (to_number (timestamp d)) (Fin 0)) (Fin (hotspotWindowCutoff now)).

(** Firestore rejects an [update] of a document that does not exist (a
    [delete] of one succeeds): whether every update of the log finds its
    document, when the log runs on [st] in order. *)
Fixpoint accepted (log : list write) (st : store) : bool :=
  match log with
  | [] => true
  | w :: rest =>
      match w with
      | Update id _ =>
          match coll_lookup id (cameras st) with Some _ => true | None => false end
      | _ => true
      end && accepted rest (apply_write st w)
  end.

(** A deletion, if any, is the last write of the log. *)
Fixpoint delete_last (log : list write) : bool :=
  match log with
  | [] => true
  | [_] => true
  | Delete _ :: _ => false
  | _ :: rest => delete_last rest
  end.

(** ** The job with its failures

    The definitions above follow the job as long as no statement throws.
    Three log lines format a number as a date, and an [update] can be
    rejected by the store; an uncaught error ends the process with
    [process.exit(1)] (the [catch] of the call of [main]), after the
    writes issued so far. *)

(** [new Date(v).toISOString()] returns only for a time value: a finite
    number at most 8.64e15 ms from the epoch.  Otherwise it throws a
    RangeError. *)
Definition valid_time (n : num) : bool :=
  match n with
  | Fin z => (-8640000000000000 <=? z) && (z <=? 8640000000000000)
  | _ => false
  end.

(** How a part of the job ends: it returns a value, or it throws; in
    both cases after the writes it has issued. *)
Inductive outcome (A : Type) : Type :=
| Returns (a : A) (log : list write)
| Throws (log : list write).

Arguments Returns {A} a log.
Arguments Throws {A} log.

(** The writes issued, whether the code returned or threw. *)
Definition written {A : Type} (o : outcome A) : list write :=
  match o with
  | Returns _ log => log
  | Throws log => log
  end.

(** The body of the per-document loop with its log lines: the line
    after the expiry default formats the new [expiresAt], the line
    after the extension of a hotspot formats [now + 10 days]. *)
Definition iteration (now : Z) (cam : string * doc) : outcome doc :=
  let id := cam.1 in
  let d := cam.2 in
  let '(d, w1) := ensure_timestamp now id d in
  let cnt := count_of d in
  let '(d, w2) := ensure_confidence id d in
  if is_str (type_of d) "fixed_camera"
  then
    let '(d, w3) := ensure_hotspot id d in
    Returns d (w1 ++ w2 ++ w3 ++ fixed_decision now id cnt d)
  else
    let missing := negb (truthy (expiresAt d)) in
    let '(d, w3) := ensure_expiresAt now id d in
    if missing && negb (valid_time (to_number (expiresAt d)))
    then Throws (w1 ++ w2 ++ w3)
    else
      let '(d, w4) := ensure_lastSeen now id d in
      let w := w1 ++ w2 ++ w3 ++ w4 in
      if negb (truthy (hotspot d)) && num_le cnt (Fin 0)
      then Returns d (w ++ hide_or_delete now id d)
      else if expired now d
      then
        if negb (truthy (hotspot d))
        then Returns d (w ++ hide_or_delete now id d)
        else if valid_time (Fin (now + PRESERVE_HOTSPOT_DAYS * MS_DAY))
        then Returns d (w ++ [extension now id])
        else Throws (w ++ [extension now id])
      else Returns d w.

(** The first loop: it stops at the first iteration that throws. *)
Fixpoint loop (now : Z) (cams : collection) : outcome collection :=
  match cams with
  | [] => Returns [] []
  | cam :: rest =>
      match iteration now cam with
      | Throws log => Throws log
      | Returns d log =>
          match loop now rest with
          | Returns mem log' => Returns ((cam.1, d) :: mem) (log ++ log')
          | Throws log' => Throws (log ++ log')
          end
      end
  end.

(** The writes of [log] that go through on [st], in order: all of them,
    or those before the first update that finds no document, which the
    store rejects.  With them the store afterwards, and whether all
    went through. *)
Fixpoint commit (log : list write) (st : store) : list write * store * bool :=
  match log with
  | [] => ([], st, true)
  | w :: rest =>
      let found :=
        match w with
        | Update id _ =>
            match coll_lookup id (cameras st) with Some _ => true | None => false end
        | _ => true
        end in
      if found
      then let '(done, st', ok) := commit rest (apply_write st w) in (w :: done, st', ok)
      else ([], st, false)
  end.

(** What a run of the script does: the writes that went through, the
    store afterwards, and whether the process ended with
    [process.exit(0)] rather than, after an uncaught error, with
    [process.exit(1)]. *)
Record result : Type := mkResult {
  issued : list write;
  after : store;
  completed : bool
}.

(** The script: [main] under its [catch].  The first log line formats
    the clock; the detection loop runs only when the first loop has
    returned; the read of [camera_reports] has a [catch] of its own. *)
Definition worker (getDistance : value -> value -> value -> value -> num)
    (toFixed4 : num -> string) (now later : Z)
    (camera_reports : option collection) (st : store) : result :=
  if negb (valid_time (Fin now)) then mkResult [] st false
  else
    match loop now (cameras st) with
    | Throws log =>
        let '(done, st', _) := commit log st in mkResult done st' false
    | Returns cams log =>
        let reportDocs := fetch_reports (hotspotWindowCutoff now) camera_reports in
        let detection :=
          hotspot_pass getDistance toFixed4 later (mobileDocs now cams reportDocs) in
        let '(done, st', ok) := commit (log ++ detection) st in
        mkResult done st' ok
    end.

(** The fields the first loop converts with [Number(..)] or compares
    with a number hold no text.  (The conversion of text is modelled
    for integer literals only.) *)
Definition untexted (d : doc) : bool :=
  match timestamp d, count d, expiresAt d with
  | VStr _, _, _ | _, VStr _, _ | _, _, VStr _ => false
  | _, _, _ => true
  end.

(** A cluster that keeps to itself: every entry of the candidate list
    [docs] with truthy coordinates and timestamp that lies within the
    radius of a member, seen from the member, or that has the summary
    key of a member, carries the id of a member. *)
Definition secluded (gd : value -> value -> value -> value -> num) (tf : num -> string)
    (members docs : collection) : Prop :=
  forall e o, In e members -> In o docs -> located o.2 = true ->
    num_le (gd (lat e.2) (lon e.2) (lat o.2) (lon o.2)) (Fin HOTSPOT_RADIUS_M) = true
    \/ hotspotId tf o.2 = hotspotId tf e.2 ->
    In o.1 (List.map fst members).

(** ** The earlier maintainer draft

    [scripts/firestore_maintainer.js] is a third draft of the job, of
    which only the beginning survives: the pre-filter for detection and
    the expiry scan, which collects updates and deletions. *)

Module Maintainer.

Definition MOBILE_LIFETIME_HOURS : Z := 8.
Definition OTHER_LIFETIME_HOURS : Z := 4.
Definition HOTSPOT_DAYS : Z := 7.

Section Scan.

(** [new Date(v).getTime()] and [new Date(n).toISOString()], the
    built-in date functions. *)
Variable getTime : value -> num.
Variable toISOString : num -> string.

Definition toMillis (ts : value) : num :=
  if negb (truthy ts) then Fin 0
  else match ts with
       | VNum n => n
       | _ => match getTime ts with NaN => Fin 0 | t => t end
       end.

Definition sevenDaysAgo (now : Z) : Z := now - HOTSPOT_DAYS * 24 * 60 * 60 * 1000.

Definition recentMobile (now : Z) (docs : collection) : collection :=
  List.filter
    (fun e => num_le (Fin (sevenDaysAgo now)) (toMillis (timestamp e.2)))
    (List.filter
       (fun e => is_str (type e.2) "mobile_camera" && negb (truthy (removed e.2)))
       docs).

(** One iteration of the expiry loop: what it pushes on [updates] and
    on [toDelete], when [toISOString] does not throw (it does on a
    computed expiry outside the range of [Date]). *)
Definition scan (now : Z) (e : string * doc) : list (string * patch) * list string :=
  let data := e.2 in
  if truthy (removed data) then ([], [])
  else
    let type := JS.or (type data) (VStr "other") in
    if is_str type "mobile_camera" || is_str type "other"
    then
      let ts := num_or (toMillis (timestamp data)) (Fin now) in
      let lifetime :=
        if is_str type "mobile_camera" then MOBILE_LIFETIME_HOURS
        else OTHER_LIFETIME_HOURS in
      let computedExpires := num_add ts (Fin (lifetime * 60 * 60 * 1000)) in
      let expiresAtMs :=
        if truthy (expiresAt data) then toMillis (expiresAt data) else Fin 0 in
      let updates :=
        if negb (num_truthy expiresAtMs)
        then [(e.1, [(FexpiresAt, VStr (toISOString computedExpires))])]
        else [] in
      let finalExpires := num_or expiresAtMs computedExpires in
      if num_lt finalExpires (Fin now) && negb (is_str type "fixed_camera")
      then (updates, [e.1])
      else (updates, [])
    else ([], []).

Definition expiry_scan (now : Z) (docs : collection)
    : list (string * patch) * list string :=
  (List.flat_map (fun e => (scan now e).1) docs,
   List.flat_map (fun e => (scan now e).2) docs).

End Scan.

End Maintainer.

(** ** Data for the examples *)

(** A stand-in for the distance library on whole-degree coordinates:
    coincident points are 0 m apart, and one degree along either axis
    counts 111195 m.  The examples only compare it with the radius. *)
Definition degree_distance (la lo la' lo' : value) : num :=
  match to_number la, to_number lo, to_number la', to_number lo' with
  | Fin a, Fin b, Fin a', Fin b' => Fin (111195 * (Z.abs (a - a') + Z.abs (b - b')))
  | _, _, _, _ => NaN
  end.

(** [toFixed(4)] on the numbers of the model. *)
Definition fixed4 (n : num) : string :=
  match n with
  | Fin z => pretty z +:+ ".0000"
  | other => num_to_string other
  end.

Definition blank : doc :=
  mkDoc VUndef VUndef VUndef VUndef VUndef VUndef VUndef VUndef VUndef VUndef VUndef.

(** 2024-01-01T00:00:00Z, and the clock a little later in the run. *)
Definition t0 : Z := 1704067200000.
Definition t1 : Z := t0 + 1500.

(** A fixed camera voted down to -4. *)
Definition fixed_cam : doc :=
  set Fcount (vnum (-4)) (set Ftype (VStr "fixed_camera")
    (set Flat (vnum 52) (set Flon (vnum 13) (set Ftimestamp (vnum (t0 - 5 * MS_DAY)) blank)))).

(** A mobile report at 48N 11E, seen [age] milliseconds before [t0]. *)
Definition mobile_at (age : Z) (cnt : value) : doc :=
  set Fcount cnt (set Ftype (VStr "mobile_camera")
    (set Flat (vnum 48) (set Flon (vnum 11) (set Ftimestamp (vnum (t0 - age)) blank)))).

(** A promoted report whose preservation ran out an hour ago. *)
Definition stale_hotspot : doc :=
  set Fhotspot (VBool true) (set FexpiresAt (vnum (t0 - MS_HOUR))
    (set Fconfidence (vnum 90) (set FlastSeen (vnum (t0 - 2 * MS_DAY))
      (mobile_at (2 * MS_DAY) (vnum 0))))).

(** A report hidden earlier, now older than the window. *)
Definition hidden_old : doc :=
  set Fremoved (VBool true) (set FremovedByWorker (VBool true)
    (set Fconfidence (vnum 70) (set FexpiresAt (vnum (t0 - 11 * MS_DAY + 10 * MS_HOUR))
      (set FlastSeen (vnum (t0 - 10 * MS_DAY)) (mobile_at (11 * MS_DAY) (vnum 0)))))).

(** A report whose client wrote the timestamp in nanoseconds. *)
Definition nanos : doc := set Ftimestamp (vnum (t0 * 1000000)) (mobile_at 0 (vnum 0)).

(** A report on the equator. *)
Definition equator (lo : Z) : doc := set Flat (vnum 0) (set Flon (vnum lo) (mobile_at 0 (vnum 1))).

(** A complete mobile report at 48N 11E: nothing left to default. *)
Definition complete_mobile (age : Z) : doc :=
  set Fconfidence (vnum 70) (set FexpiresAt (vnum (t0 - age + 10 * MS_HOUR))
    (set FlastSeen (vnum (t0 - age)) (mobile_at age (vnum 1)))).

Definition three_reports : collection :=
  [("a", complete_mobile 60000); ("b", complete_mobile 120000);
   ("c", complete_mobile 180000)].

Definition store_of (cams : collection) : store := mkStore cams ∅.

(** * Properties *)

(** ** The log and the store *)

Lemma apply_writes_app (l1 l2 : list write) (st : store) :
  apply_writes (l1 ++ l2) st = apply_writes l2 (apply_writes l1 st).
Proof. unfold apply_writes. apply fold_left_app. Qed.

Lemma replay_app (l1 l2 : list write) (id : string) (o : option doc) :
  replay (l1 ++ l2) id o = replay l2 id (replay l1 id o).
Proof. unfold replay. apply fold_left_app. Qed.

Lemma replay_cons (w : write) (log : list write) (id : string) (o : option doc) :
  replay (w :: log) id o = replay log id (replay_write id o w).
Proof. reflexivity. Qed.

Lemma replay_None (log : list write) (id : string) : replay log id None = None.
Proof.
  induction log as [|w log IH]; [reflexivity|].
  cbn. destruct w as [i p|i|k s]; cbn; try destruct (String.eqb i id); exact IH.
Qed.

Lemma coll_lookup_update (id i : string) (p : patch) (c : collection) :
  coll_lookup id (coll_update i p c) = replay_write id (coll_lookup id c) (Update i p).
Proof.
  unfold coll_lookup, coll_update. cbn.
  induction c as [|[j d] c IH]; cbn.
  - destruct (String.eqb i id); reflexivity.
  - destruct (String.eqb j i) eqn:Eji; cbn.
    + apply String.eqb_eq in Eji. subst j.
      destruct (String.eqb i id) eqn:Ei; cbn; [reflexivity|exact IH].
    + destruct (String.eqb j id) eqn:Ej; cbn.
      * apply String.eqb_eq in Ej. subst j. rewrite String.eqb_sym, Eji. reflexivity.
      * exact IH.
Qed.

Lemma coll_lookup_delete (id i : string) (c : collection) :
  coll_lookup id (coll_delete i c) = replay_write id (coll_lookup id c) (Delete i).
Proof.
  unfold coll_lookup, coll_delete. cbn.
  induction c as [|[j d] c IH]; cbn.
  - destruct (String.eqb i id); reflexivity.
  - destruct (String.eqb j i) eqn:Eji; cbn.
    + apply String.eqb_eq in Eji. subst j.
      destruct (String.eqb i id) eqn:Ei; cbn; exact IH.
    + destruct (String.eqb j id) eqn:Ej; cbn.
      * apply String.eqb_eq in Ej. subst j. rewrite String.eqb_sym, Eji. reflexivity.
      * exact IH.
Qed.

(** Looking a document up after a log is replaying the log on it. *)
Lemma coll_lookup_apply_writes (log : list write) (id : string) (st : store) :
  coll_lookup id (cameras (apply_writes log st))
  = replay log id (coll_lookup id (cameras st)).
Proof.
  revert st. induction log as [|w log IH]; intros st; [reflexivity|].
  cbn. rewrite IH. f_equal.
  destruct w as [i p|i|k s]; cbn -[replay_write].
  - apply coll_lookup_update.
  - apply coll_lookup_delete.
  - reflexivity.
Qed.

Lemma coll_lookup_In (id : string) (d : doc) (c : collection) :
  NoDup (List.map fst c) -> In (id, d) c -> coll_lookup id c = Some d.
Proof.
  unfold coll_lookup. induction c as [|[j e] c IH]; cbn; intros Hnd Hin; [tauto|].
  apply NoDup_cons in Hnd as [Hj Hnd].
  destruct Hin as [Heq|Hin].
  - inversion Heq; subst. rewrite String.eqb_refl. reflexivity.
  - destruct (String.eqb j id) eqn:Ej.
    + apply String.eqb_eq in Ej. subst j. exfalso. apply Hj.
      apply list_elem_of_In, in_map_iff. exists (id, d). split; [reflexivity|exact Hin].
    + apply IH; assumption.
Qed.

(** Writes addressed to other documents do not matter. *)
Lemma replay_other (log : list write) (id : string) (o : option doc) :
  (forall w, In w log -> target w <> Some id) -> replay log id o = o.
Proof.
  revert o. induction log as [|w log IH]; intros o H; [reflexivity|].
  rewrite replay_cons, IH by (intros w' Hw'; apply H; right; exact Hw').
  assert (Hw : target w <> Some id) by (apply H; left; reflexivity).
  destruct w as [i p|i|k s]; cbn in *; try reflexivity;
    destruct (String.eqb i id) eqn:E; try reflexivity;
    apply String.eqb_eq in E; subst; congruence.
Qed.

(** ** The maintenance pass, document by document *)

Lemma prefix_append (s t : string) : String.prefix s (s +:+ t) = true.
Proof.
  induction s as [|c s IH]; simpl; [destruct t; reflexivity|].
  destruct (Ascii.ascii_dec c c); [exact IH|congruence].
Qed.

#[local] Arguments truthy : simpl never.
#[local] Arguments num_truthy : simpl never.
#[local] Arguments JS.or : simpl never.
#[local] Arguments num_or : simpl never.
#[local] Arguments nullish : simpl never.
#[local] Arguments is_str : simpl never.
#[local] Arguments to_number : simpl never.
#[local] Arguments num_add : simpl never.
#[local] Arguments num_le : simpl never.
#[local] Arguments num_lt : simpl never.
#[local] Arguments num_min : simpl never.
#[local] Arguments num_max : simpl never.
#[local] Arguments JS.plus : simpl never.
#[local] Arguments hotspotWindowCutoff : simpl never.
#[local] Arguments vnum : simpl never.
#[local] Arguments fixed_decision : simpl never.
#[local] Arguments mobile_decision : simpl never.
#[local] Arguments decision : simpl never.
#[local] Arguments String.eqb : simpl never.
#[local] Arguments String.prefix : simpl never.

Ltac unfold_maintain :=
  unfold maintain, ensure_timestamp, ensure_confidence, ensure_hotspot,
    ensure_expiresAt, ensure_lastSeen, fixed_decision, mobile_decision,
    hide_or_delete, mark_removed, extension, lifetimeHours, count_of, type_of in *.

Ltac run_replay :=
  unfold replay; cbn [fold_left replay_write app];
  rewrite ?String.eqb_refl; cbn [fmap option_fmap option_map].

Ltac no_such_write :=
  let H := fresh "H" in
  intros H; cbn in H;
  repeat (destruct H as [H|H]; [discriminate H|]); try contradiction.

Ltac unfold_defaults :=
  unfold maintain, ensure_timestamp, ensure_confidence, ensure_hotspot,
    ensure_expiresAt, ensure_lastSeen, lifetimeHours, count_of, type_of in *.

Ltac split_ifs_with tac :=
  repeat (tac; rewrite ?String.eqb_refl in *;
          match goal with
          | |- context [if ?b then _ else _] => destruct b eqn:?
          end; cbn in *; tac); tac.

Ltac split_ifs :=
  repeat (rewrite ?String.eqb_refl in *;
          match goal with
          | |- context [if ?b then _ else _] => destruct b eqn:?
          end; cbn in * ).

(** Every write of an iteration addresses the iteration's own document. *)
Lemma maintain_target (now : Z) (cam : string * doc) (w : write) :
  In w (maintain now cam).2 -> target w = Some cam.1.
Proof.
  destruct cam as [id d]. destruct d. unfold_maintain. cbn.
  split_ifs; intros H; repeat (destruct H as [H|H]; [subst w; reflexivity|]);
    try contradiction.
Qed.

Lemma maintenance_pass_mem (now : Z) (cams : collection) (id : string) (dm : doc) :
  In (id, dm) (maintenance_pass now cams).1 <->
  exists d, In (id, d) cams /\ dm = (maintain now (id, d)).1.
Proof.
  unfold maintenance_pass. cbn. rewrite in_map_iff. split.
  - intros [[i d] [Heq Hin]]. cbn in Heq. inversion Heq; subst. eauto.
  - intros [d [Hin ->]]. exists (id, d). split; [reflexivity|exact Hin].
Qed.

Lemma maintenance_pass_ids (now : Z) (cams : collection) :
  List.map fst (maintenance_pass now cams).1 = List.map fst cams.
Proof.
  unfold maintenance_pass. cbn. rewrite List.map_map. reflexivity.
Qed.

Lemma In_fst {A B : Type} (a : A) (b : B) (l : list (A * B)) :
  In (a, b) l -> In a (List.map fst l).
Proof. intros H. apply in_map_iff. exists (a, b). split; [reflexivity|exact H]. Qed.

Lemma NoDup_fst_eq {A B : Type} (a : A) (b b' : B) (l : list (A * B)) :
  NoDup (List.map fst l) -> In (a, b) l -> In (a, b') l -> b = b'.
Proof.
  induction l as [|[x y] l IH]; cbn; intros Hnd H1 H2; [contradiction|].
  apply NoDup_cons in Hnd as [Hx Hnd]. rewrite list_elem_of_In in Hx.
  destruct H1 as [H1|H1], H2 as [H2|H2].
  - congruence.
  - inversion H1; subst. exfalso. apply Hx. eapply In_fst; eassumption.
  - inversion H2; subst. exfalso. apply Hx. eapply In_fst; eassumption.
  - apply IH; assumption.
Qed.

(** With distinct ids, only an iteration's own writes reach its document. *)
Lemma replay_maintenance_pass (now : Z) (cams : collection) (id : string)
    (d : doc) (o : option doc) :
  NoDup (List.map fst cams) -> In (id, d) cams ->
  replay (maintenance_pass now cams).2 id o = replay (maintain now (id, d)).2 id o.
Proof.
  unfold maintenance_pass. cbn [snd].
  induction cams as [|[j e] cams IH]; cbn [flat_map List.map fst]; intros Hnd Hin;
    [destruct Hin|].
  apply NoDup_cons in Hnd as [Hj Hnd]. rewrite list_elem_of_In in Hj.
  rewrite replay_app. destruct Hin as [Heq|Hin].
  - inversion Heq; subst. apply replay_other.
    intros w Hw Ht. apply in_flat_map in Hw as [[k c] [Hk Hw]].
    apply maintain_target in Hw. cbn in Hw. rewrite Hw in Ht. inversion Ht; subst.
    apply Hj. eapply In_fst; eassumption.
  - rewrite (replay_other (maintain now (j, e)).2).
    + apply IH; assumption.
    + intros w Hw Ht. apply maintain_target in Hw. cbn in Hw. rewrite Hw in Ht.
      inversion Ht; subst. apply Hj. eapply In_fst; eassumption.
Qed.

Section Detection.

Context (gd : value -> value -> value -> value -> num) (tf : num -> string).

Lemma nearby_In (b : doc) (docs : collection) (n : string * doc) :
  In n (nearby gd b docs) ->
  In n docs /\ located n.2 = true
  /\ num_le (gd (lat b) (lon b) (lat n.2) (lon n.2)) (Fin HOTSPOT_RADIUS_M) = true.
Proof.
  unfold nearby. rewrite filter_In. intros [Hin H].
  destruct (located n.2); cbn in H; [auto|discriminate].
Qed.

Lemma promote_target (later : Z) (n : string * doc) (w : write) :
  In w (promote later n) ->
  w = Update n.1 (promotion later n.2) /\ String.prefix "r_" n.1 = false.
Proof.
  unfold promote.
  destruct (negb (String.eqb n.1 "") && String.prefix "r_" n.1) eqn:E;
    intros H; [destruct H|].
  destruct H as [<-|[]]. split; [reflexivity|].
  destruct (String.eqb n.1 "") eqn:E1; cbn in E; [|exact E].
  apply String.eqb_eq in E1. rewrite E1. reflexivity.
Qed.

(** Where a write of one detection iteration comes from. *)
Lemma cluster_In (later : Z) (docs : collection) (base : string * doc) (w : write) :
  In w (cluster gd tf later docs base) ->
  located base.2 = true /\ truthy (hotspot base.2) = false
  /\ (HOTSPOT_THRESHOLD <= length (nearby gd base.2 docs))%nat
  /\ ((exists n, In n (nearby gd base.2 docs) /\ In w (promote later n))
      \/ w = SetMerge (hotspotId tf base.2)
               (hotspotDoc later base.2 (nearby gd base.2 docs))).
Proof.
  unfold cluster.
  destruct (located base.2); cbn [negb]; [|intros []].
  destruct (truthy (hotspot base.2)); [intros []|].
  destruct (Nat.leb_spec HOTSPOT_THRESHOLD (length (nearby gd base.2 docs))) as [Hle|Hlt];
    [|intros []].
  intros H. repeat split; [exact Hle|].
  apply in_app_iff in H as [H|[H|[]]].
  - left. apply in_flat_map in H. exact H.
  - right. symmetry. exact H.
Qed.

(** The detection pass deletes nothing. *)
Lemma hotspot_pass_no_delete (later : Z) (docs : collection) (id : string) :
  ~ In (Delete id) (hotspot_pass gd tf later docs).
Proof.
  unfold hotspot_pass. intros H.
  apply in_flat_map in H as [base [_ H]].
  apply cluster_In in H as (_ & _ & _ & [[n [_ H]]|H]); [|discriminate].
  apply promote_target in H as [H _]. discriminate.
Qed.

(** An update of the detection pass is the promotion of a member of
    some seed's neighbourhood. *)
Lemma hotspot_pass_update (later : Z) (docs : collection) (id : string) (p : patch) :
  In (Update id p) (hotspot_pass gd tf later docs) ->
  exists base nd,
    In base docs /\ located base.2 = true /\ truthy (hotspot base.2) = false
    /\ (HOTSPOT_THRESHOLD <= length (nearby gd base.2 docs))%nat
    /\ In (id, nd) (nearby gd base.2 docs)
    /\ p = promotion later nd
    /\ String.prefix "r_" id = false.
Proof.
  unfold hotspot_pass. intros H.
  apply in_flat_map in H as [base [Hb H]].
  apply cluster_In in H as (Hl & Hh & Hn & [[[i nd] [Hin H]]|H]); [|discriminate].
  apply promote_target in H as [Hq Hp]. cbn in Hq, Hp.
  inversion Hq; subst i p.
  exists base, nd. auto 10.
Qed.

Lemma fetch_reports_ids (cutoff : Z) (reports : option collection) (id : string) (nd : doc) :
  In (id, nd) (fetch_reports cutoff reports) -> String.prefix "r_" id = true.
Proof.
  destruct reports as [rs|]; cbn; [|intros []].
  rewrite in_map_iff. intros [[i e] [Heq _]]. inversion Heq. apply prefix_append.
Qed.

Lemma main_eq (now later : Z) (cams : collection) (reports : option collection) :
  main gd tf now later cams reports
  = (maintenance_pass now cams).2
    ++ hotspot_pass gd tf later (candidates now cams reports).
Proof. reflexivity. Qed.

(** A candidate that can be promoted is a document of the snapshot, as
    the first loop left it in memory. *)
Lemma candidates_In (now : Z) (cams : collection) (reports : option collection)
    (id : string) (nd : doc) :
  In (id, nd) (candidates now cams reports) ->
  String.prefix "r_" id = false ->
  exists d, In (id, d) cams /\ nd = (maintain now (id, d)).1
            /\ recent_mobile (hotspotWindowCutoff now) (id, nd) = true.
Proof.
  unfold candidates, mobileDocs. rewrite in_app_iff, !filter_In.
  intros [[Hin Hr]|[Hin Hr]] Hp.
  - apply maintenance_pass_mem in Hin as [d [Hin ->]]. eauto.
  - apply fetch_reports_ids in Hin. congruence.
Qed.

(** The document stored under [id] after a run: its own maintenance
    writes, then the writes of the detection pass. *)
Lemma run_lookup (now later : Z) (reports : option collection) (st : store)
    (id : string) (d : doc) :
  NoDup (List.map fst (cameras st)) -> In (id, d) (cameras st) ->
  coll_lookup id (cameras (run gd tf now later reports st))
  = replay (hotspot_pass gd tf later (candidates now (cameras st) reports)) id
      (replay (maintain now (id, d)).2 id (Some d)).
Proof.
  intros Hnd Hin. unfold run.
  rewrite coll_lookup_apply_writes, main_eq, replay_app.
  rewrite (coll_lookup_In id d) by assumption.
  rewrite (replay_maintenance_pass now _ id d) by assumption. reflexivity.
Qed.

Lemma maintained_lookup (now : Z) (st : store) (id : string) (d : doc) :
  NoDup (List.map fst (cameras st)) -> In (id, d) (cameras st) ->
  coll_lookup id (cameras (maintained now st))
  = replay (maintain now (id, d)).2 id (Some d).
Proof.
  intros Hnd Hin. unfold maintained.
  rewrite coll_lookup_apply_writes, (coll_lookup_In id d) by assumption.
  apply replay_maintenance_pass; assumption.
Qed.

(** A property of the stored document that every update of the log
    preserves holds at the end, provided the log does not delete it. *)
Lemma replay_invariant (I : doc -> Prop) (log : list write) (id : string) (x : doc) :
  I x ->
  ~ In (Delete id) log ->
  (forall p, In (Update id p) log -> forall y, I y -> I (apply_patch p y)) ->
  exists x', replay log id (Some x) = Some x' /\ I x'.
Proof.
  revert x. induction log as [|w log IH]; intros x Hx Hd Hu; [eauto|].
  rewrite replay_cons.
  destruct w as [i p|i|k s]; cbn [replay_write].
  - destruct (String.eqb i id) eqn:E.
    + apply String.eqb_eq in E. subst i. cbn. apply IH.
      * apply Hu; [left; reflexivity|exact Hx].
      * intros H. apply Hd. right. exact H.
      * intros q Hq. apply Hu. right. exact Hq.
    + apply IH; [exact Hx| |].
      * intros H. apply Hd. right. exact H.
      * intros q Hq. apply Hu. right. exact Hq.
  - destruct (String.eqb i id) eqn:E.
    + apply String.eqb_eq in E. subst i. exfalso. apply Hd. left. reflexivity.
    + apply IH; [exact Hx| |].
      * intros H. apply Hd. right. exact H.
      * intros q Hq. apply Hu. right. exact Hq.
  - apply IH; [exact Hx| |].
    + intros H. apply Hd. right. exact H.
    + intros q Hq. apply Hu. right. exact Hq.
Qed.

(** The promotions a snapshot document can receive are computed from
    its own in-memory copy. *)
Lemma candidates_update (now later : Z) (cams : collection)
    (reports : option collection) (id : string) (d : doc) (p : patch) :
  NoDup (List.map fst cams) -> In (id, d) cams ->
  In (Update id p) (hotspot_pass gd tf later (candidates now cams reports)) ->
  p = promotion later (maintain now (id, d)).1
  /\ recent_mobile (hotspotWindowCutoff now) (id, (maintain now (id, d)).1) = true
  /\ located (maintain now (id, d)).1 = true.
Proof.
  intros Hnd Hin H.
  apply hotspot_pass_update in H as (base & nd & _ & _ & _ & _ & Hn & -> & Hp).
  apply nearby_In in Hn as (Hc & Hl & _). cbn in Hl.
  apply candidates_In in Hc as (d' & Hin' & -> & Hr); [|exact Hp].
  assert (d' = d) as -> by (eapply NoDup_fst_eq; eassumption).
  auto.
Qed.

(** What the first loop never touches, in memory. *)
Lemma maintain_mem_frame (now : Z) (id : string) (d : doc) :
  let dm := (maintain now (id, d)).1 in
  type dm = type d /\ count dm = count d /\ lat dm = lat d /\ lon dm = lon d
  /\ removed dm = removed d /\ removedByWorker dm = removedByWorker d.
Proof.
  destruct d. unfold_maintain. cbn. split_ifs; auto 10.
Qed.

Lemma maintain_mem_type_of (now : Z) (id : string) (d : doc) :
  type_of (maintain now (id, d)).1 = type_of d.
Proof.
  unfold type_of. destruct (maintain_mem_frame now id d) as [-> _]. reflexivity.
Qed.

Lemma recent_mobile_type (cutoff : Z) (c : string * doc) :
  recent_mobile cutoff c = true -> is_str (type_of c.2) "mobile_camera" = true.
Proof. unfold recent_mobile. intros H. apply andb_true_iff in H as [H _]. exact H. Qed.

Lemma is_str_inj (v : value) (s t : string) :
  is_str v s = true -> is_str v t = true -> s = t.
Proof.
  destruct v; cbn; try discriminate. intros H1 H2.
  apply String.eqb_eq in H1, H2. congruence.
Qed.

(** Documents that are not recent mobile reports get no promotion. *)
Lemma hotspot_pass_skips (now later : Z) (cams : collection)
    (reports : option collection) (id : string) (d : doc) (o : option doc) :
  NoDup (List.map fst cams) -> In (id, d) cams ->
  recent_mobile (hotspotWindowCutoff now) (id, (maintain now (id, d)).1) = false ->
  replay (hotspot_pass gd tf later (candidates now cams reports)) id o = o.
Proof.
  intros Hnd Hin Hr. apply replay_other. intros w Hw Ht.
  destruct w as [i p|i|k s]; cbn in Ht; inversion Ht; subst.
  - eapply candidates_update in Hw as (_ & H & _); [|eassumption..]. congruence.
  - eapply hotspot_pass_no_delete; eassumption.
Qed.

(** A promotion leaves these fields alone. *)
Lemma promotion_frame (later : Z) (nd y : doc) :
  let y' := apply_patch (promotion later nd) y in
  type y' = type y /\ timestamp y' = timestamp y /\ count y' = count y
  /\ removed y' = removed y /\ removedByWorker y' = removedByWorker y
  /\ lat y' = lat y /\ lon y' = lon y.
Proof. destruct y. cbn. auto 10. Qed.

Lemma promotion_sets (later : Z) (nd y : doc) :
  let y' := apply_patch (promotion later nd) y in
  hotspot y' = VBool true
  /\ expiresAt y' = vnum (later + PRESERVE_HOTSPOT_DAYS * MS_DAY).
Proof. destruct y. cbn. auto. Qed.
(** ** The first draft *)

Ltac unfold_draft :=
  unfold Draft.maintain, ensure_timestamp, ensure_confidence, ensure_hotspot,
    Draft.ensure_expiresAt, ensure_lastSeen, fixed_decision, Draft.mobile_decision,
    mark_removed, Draft.lifetimeHours, count_of, type_of in *.

(** The draft deletes a non-fixed record at [count <= 0] without a
    hotspot flag at once, whatever its age. *)
Lemma draft_deletes_at_once (now : Z) (id : string) (d : doc) :
  is_str (type_of d) "fixed_camera" = false ->
  num_le (count_of d) (Fin 0) = true ->
  truthy (hotspot d) = false ->
  In (Delete id) (Draft.maintain now (id, d)).2.
Proof.
  intros Hf Hc Hh. destruct d. unfold_draft. cbn in *.
  split_ifs_with ltac:(rewrite ?Hf, ?Hc, ?Hh in *; cbn in * ).
  all: try discriminate.
  all: cbn; auto 10.
Qed.

(** Fixed cameras and flagged records are spared by the draft too. *)
Lemma draft_spares (now : Z) (id : string) (d : doc) :
  is_str (type_of d) "fixed_camera" = true \/ truthy (hotspot d) = true ->
  ~ In (Delete id) (Draft.maintain now (id, d)).2.
Proof.
  intros [H|H]; destruct d; unfold_draft; cbn in *.
  - split_ifs_with ltac:(rewrite ?H in *; cbn in * ); try discriminate; no_such_write.
  - split_ifs_with ltac:(rewrite ?H in *; cbn in *; rewrite ?andb_false_r in *; cbn in * );
      try discriminate; no_such_write.
Qed.

(** In the draft a deleted record still takes part in detection: three
    recent co-located reports at count 0 are deleted by the first loop
    and then promoted. *)
Lemma draft_clusters_deleted :
  let cams := [("a", mobile_at 60000 (vnum 0)); ("b", mobile_at 120000 (vnum 0));
               ("c", mobile_at 180000 (vnum 0))] in
  let log := Draft.main degree_distance fixed4 t0 t1 cams in
  In (Delete "a") log
  /\ length (List.filter is_update (Draft.hotspot_pass degree_distance fixed4 t0 t1
                                      (Draft.mobileDocs t0 (Draft.maintenance_pass t0 cams).1)))
     = 9%nat.
Proof.
  cbv zeta. split.
  - vm_compute. auto 10.
  - vm_compute. reflexivity.
Qed.

End Detection.

(** * What the job guarantees *)



(** ** Fixed cameras *)

Lemma fixed_maintain (now : Z) (id : string) (d : doc) :
  is_str (type_of d) "fixed_camera" = true ->
  ~ In (Delete id) (maintain now (id, d)).2
  /\ exists d1, replay (maintain now (id, d)).2 id (Some d) = Some d1
     /\ (num_le (count_of d) (Fin FIXED_REMOVE_THRESHOLD) = true ->
         truthy (removed d) = false ->
         removed d1 = VBool true /\ removedByWorker d1 = VBool true
         /\ lastSeen d1 = vnum now).
Proof.
  intros Hf. destruct d. unfold_maintain. cbn in *.
  split_ifs; try congruence; run_replay; (split; [no_such_write|]);
    eexists; (split; [reflexivity|]); cbn; intros Hc Hr;
    try (rewrite Hc, Hr in *; discriminate); auto.
Qed.

(** When nothing throws, a fixed camera is not deleted, whatever its
    count; at [count <= FIXED_REMOVE_THRESHOLD] and not yet removed it
    ends the run present in the store with [removed = true],
    [removedByWorker = true] and [lastSeen = now]. *)
Lemma fixed_never_deleted
    (gd : value -> value -> value -> value -> num) (tf : num -> string)
    (now later : Z) (reports : option collection) (st : store)
    (id : string) (d : doc) :
  NoDup (List.map fst (cameras st)) ->
  In (id, d) (cameras st) ->
  is_str (type_of d) "fixed_camera" = true ->
  ~ In (Delete id) (main gd tf now later (cameras st) reports)
  /\ exists d',
      coll_lookup id (cameras (run gd tf now later reports st)) = Some d'
      /\ (num_le (count_of d) (Fin FIXED_REMOVE_THRESHOLD) = true ->
          truthy (removed d) = false ->
          removed d' = VBool true /\ removedByWorker d' = VBool true
          /\ lastSeen d' = vnum now).
Proof.
  intros Hnd Hin Hf.
  destruct (fixed_maintain now id d Hf) as [Hdel [d1 [Hd1 Hmark]]].
  split.
  - rewrite main_eq, in_app_iff. intros [H|H].
    + apply in_flat_map in H as [[j e] [Hje H]].
      pose proof (maintain_target _ _ _ H) as Ht. cbn in Ht. inversion Ht; subst j.
      assert (e = d) as -> by (eapply NoDup_fst_eq; eassumption).
      exact (Hdel H).
    + eapply hotspot_pass_no_delete; eassumption.
  - exists d1. split; [|exact Hmark].
    rewrite (run_lookup gd tf now later reports st id d) by assumption.
    rewrite Hd1.
    apply (hotspot_pass_skips gd tf now later (cameras st) reports id d); [assumption..|].
    destruct (recent_mobile _ _) eqn:E; [|reflexivity].
    apply recent_mobile_type in E. cbn [snd] in E.
    rewrite (maintain_mem_type_of now id d) in E.
    pose proof (is_str_inj _ _ _ Hf E). discriminate.
Qed.

(** ** Count at or below zero, no hotspot *)

Lemma mobile_hide_or_delete (now : Z) (id : string) (d : doc) :
  is_str (type_of d) "fixed_camera" = false ->
  num_le (count_of d) (Fin 0) = true ->
  truthy (hotspot d) = false ->
  let ts := num_or (to_number (timestamp (maintain now (id, d)).1)) (Fin 0) in
  (num_lt ts (Fin (hotspotWindowCutoff now)) = true ->
   In (Delete id) (maintain now (id, d)).2
   /\ replay (maintain now (id, d)).2 id (Some d) = None)
  /\ (num_lt ts (Fin (hotspotWindowCutoff now)) = false ->
      ~ In (Delete id) (maintain now (id, d)).2
      /\ exists d1, replay (maintain now (id, d)).2 id (Some d) = Some d1
         /\ truthy (removed d1) = true
         /\ (truthy (removed d) = false -> removed d1 = VBool true)).
Proof.
  intros Hf Hc Hh. destruct d. unfold_maintain. cbn in *.
  split_ifs_with ltac:(rewrite ?Hf, ?Hc, ?Hh in *; cbn in * ).
  all: try discriminate.
  all: split; intros Hts; try congruence.
  all: try (split; [cbn; auto 10|rewrite ?String.eqb_refl; reflexivity]).
  all: run_replay; (split; [no_such_write|]).
  all: eexists; (split; [reflexivity|]); cbn.
  all: destruct (truthy removed0) eqn:?; cbn in *; split;
    try reflexivity; try congruence; try discriminate.
Qed.

(** The detection pass keeps a stored document and never changes its
    [removed] flag. *)
Lemma hotspot_pass_keeps_removed
    (gd : value -> value -> value -> value -> num) (tf : num -> string)
    (later : Z) (docs : collection) (id : string) (d1 : doc) :
  exists d', replay (hotspot_pass gd tf later docs) id (Some d1) = Some d'
             /\ removed d' = removed d1.
Proof.
  apply (replay_invariant (fun x => removed x = removed d1)); [reflexivity| |].
  - apply hotspot_pass_no_delete.
  - intros p Hp y Hy.
    apply hotspot_pass_update in Hp as (_ & nd & _ & _ & _ & _ & _ & -> & _).
    destruct (promotion_frame later nd y) as (_ & _ & _ & -> & _). exact Hy.
Qed.

(** When nothing throws, a non-fixed record with [count <= 0] and no
    hotspot flag is physically deleted when its timestamp, as the loop
    holds it, is older than the window cutoff; otherwise it stays in the
    store, marked [removed = true], and is not deleted. *)
Lemma nonpositive_count_hide_or_delete
    (gd : value -> value -> value -> value -> num) (tf : num -> string)
    (now later : Z) (reports : option collection) (st : store)
    (id : string) (d : doc) :
  NoDup (List.map fst (cameras st)) ->
  In (id, d) (cameras st) ->
  is_str (type_of d) "fixed_camera" = false ->
  num_le (count_of d) (Fin 0) = true ->
  truthy (hotspot d) = false ->
  let ts := num_or (to_number (timestamp (maintain now (id, d)).1)) (Fin 0) in
  let st' := run gd tf now later reports st in
  (num_lt ts (Fin (hotspotWindowCutoff now)) = true ->
   In (Delete id) (main gd tf now later (cameras st) reports)
   /\ coll_lookup id (cameras st') = None)
  /\ (num_lt ts (Fin (hotspotWindowCutoff now)) = false ->
      ~ In (Delete id) (main gd tf now later (cameras st) reports)
      /\ exists d', coll_lookup id (cameras st') = Some d'
         /\ truthy (removed d') = true
         /\ (truthy (removed d) = false -> removed d' = VBool true)).
Proof.
  intros Hnd Hin Hf Hc Hh ts st'.
  destruct (mobile_hide_or_delete now id d Hf Hc Hh) as [Hold Hnew].
  unfold st'. rewrite (run_lookup gd tf now later reports st id d) by assumption.
  split; intros Hts.
  - destruct (Hold Hts) as [Hdel Hnone]. split.
    + rewrite main_eq, in_app_iff. left. apply in_flat_map.
      exists (id, d). split; assumption.
    + rewrite Hnone. apply replay_None.
  - destruct (Hnew Hts) as [Hdel [d1 [Hd1 [Ht Hm]]]]. split.
    + rewrite main_eq, in_app_iff. intros [H|H].
      * apply in_flat_map in H as [[j e] [Hje H]].
        pose proof (maintain_target _ _ _ H) as Hj. cbn in Hj. inversion Hj; subst j.
        assert (e = d) as -> by (eapply NoDup_fst_eq; eassumption).
        exact (Hdel H).
      * eapply hotspot_pass_no_delete; eassumption.
    + rewrite Hd1.
      destruct (hotspot_pass_keeps_removed gd tf later
                  (candidates now (cameras st) reports) id d1) as [d' [Hd' Hr]].
      exists d'. rewrite Hr. auto.
Qed.

(** ** Hotspot preservation *)

Lemma hotspot_not_deleted (now : Z) (id : string) (d : doc) :
  truthy (hotspot d) = true ->
  ~ In (Delete id) (maintain now (id, d)).2
  /\ exists d1, replay (maintain now (id, d)).2 id (Some d) = Some d1.
Proof.
  intros Hh. destruct d. unfold_maintain. cbn in *.
  split_ifs_with ltac:(rewrite ?Hh in *; cbn in * ).
  all: try discriminate.
  all: run_replay; (split; [no_such_write|]); eexists; reflexivity.
Qed.

Lemma hotspot_extended (now : Z) (id : string) (d : doc) :
  truthy (hotspot d) = true ->
  is_str (type_of d) "fixed_camera" = false ->
  let dm := (maintain now (id, d)).1 in
  truthy (expiresAt dm) && num_lt (to_number (expiresAt dm)) (Fin now) = true ->
  In (extension now id) (maintain now (id, d)).2
  /\ exists d1, replay (maintain now (id, d)).2 id (Some d) = Some d1
     /\ expiresAt d1 = vnum (now + PRESERVE_HOTSPOT_DAYS * MS_DAY)
     /\ lastSeen d1 = vnum now.
Proof.
  intros Hh Hf dm Hexp. subst dm. destruct d. unfold_maintain. cbn in *.
  split_ifs_with ltac:(rewrite ?Hh, ?Hf in *; cbn in * ).
  all: try discriminate.
  all: run_replay; (split; [cbn; auto 10|]).
  all: eexists; (split; [reflexivity|]); cbn; auto.
Qed.

(** No write of a run deletes a record with the hotspot flag; when
    nothing throws and the loop finds a non-fixed one expired it writes
    [expiresAt = now + PRESERVE_HOTSPOT_DAYS] days and [lastSeen = now],
    which is the stored state after the first loop, and at the end of
    the run [expiresAt] is at least that instant. *)
Lemma hotspot_preserved
    (gd : value -> value -> value -> value -> num) (tf : num -> string)
    (now later : Z) (reports : option collection) (st : store)
    (id : string) (d : doc) :
  NoDup (List.map fst (cameras st)) ->
  In (id, d) (cameras st) ->
  truthy (hotspot d) = true ->
  let dm := (maintain now (id, d)).1 in
  let horizon := now + PRESERVE_HOTSPOT_DAYS * MS_DAY in
  ~ In (Delete id) (main gd tf now later (cameras st) reports)
  /\ is_Some (coll_lookup id (cameras (run gd tf now later reports st)))
  /\ (is_str (type_of d) "fixed_camera" = false ->
      truthy (expiresAt dm) && num_lt (to_number (expiresAt dm)) (Fin now) = true ->
      In (extension now id) (main gd tf now later (cameras st) reports)
      /\ (exists d1, coll_lookup id (cameras (maintained now st)) = Some d1
                     /\ expiresAt d1 = vnum horizon /\ lastSeen d1 = vnum now)
      /\ (now <= later ->
          exists d' e, coll_lookup id (cameras (run gd tf now later reports st)) = Some d'
                       /\ expiresAt d' = vnum e /\ horizon <= e)).
Proof.
  intros Hnd Hin Hh dm horizon.
  destruct (hotspot_not_deleted now id d Hh) as [Hdel [d0 Hd0]].
  assert (Hlog : ~ In (Delete id) (main gd tf now later (cameras st) reports)).
  { rewrite main_eq, in_app_iff. intros [H|H].
    - apply in_flat_map in H as [[j e] [Hje H]].
      pose proof (maintain_target _ _ _ H) as Hj. cbn in Hj. inversion Hj; subst j.
      assert (e = d) as -> by (eapply NoDup_fst_eq; eassumption).
      exact (Hdel H).
    - eapply hotspot_pass_no_delete; eassumption. }
  split; [exact Hlog|]. split.
  - rewrite (run_lookup gd tf now later reports st id d), Hd0 by assumption.
    destruct (hotspot_pass_keeps_removed gd tf later
                (candidates now (cameras st) reports) id d0) as [d' [Hd' _]].
    rewrite Hd'. eexists. reflexivity.
  - intros Hf Hexp.
    destruct (hotspot_extended now id d Hh Hf Hexp) as [Hw [d1 [Hd1 [He Hl]]]].
    split; [|split].
    + rewrite main_eq, in_app_iff. left. apply in_flat_map.
      exists (id, d). split; assumption.
    + exists d1. rewrite (maintained_lookup now st id d) by assumption. auto.
    + intros Hle.
      rewrite (run_lookup gd tf now later reports st id d), Hd1 by assumption.
      destruct (replay_invariant
                  (fun x => exists e, expiresAt x = vnum e /\ horizon <= e)
                  (hotspot_pass gd tf later (candidates now (cameras st) reports))
                  id d1) as [d' [Hd' [e [He' Hle']]]].
      * exists horizon. split; [exact He|lia].
      * apply hotspot_pass_no_delete.
      * intros p Hp y _.
        apply hotspot_pass_update in Hp as (_ & nd & _ & _ & _ & _ & _ & -> & _).
        destruct (promotion_sets later nd y) as [_ ->].
        eexists. split; [reflexivity|]. unfold horizon. lia.
      * exists d', e. auto.
Qed.

(** ** Defaults *)

(** C8 (as amended): each default is written only into a field that is
    unset or holds a falsy value (for [confidence]: only [undefined] or
    [null]); a field holding any other value is left as it is, in memory
    and in the store, and no write of the loop addresses [timestamp] or
    [confidence] in that case. *)
Theorem defaults_fill_only_falsy (now : Z) (id : string) (d : doc) :
  let dm := (maintain now (id, d)).1 in
  (truthy (timestamp d) = true ->
   ensure_timestamp now id d = (d, []) /\ timestamp dm = timestamp d)
  /\ (nullish (confidence d) = false ->
      ensure_confidence id d = (d, []) /\ confidence dm = confidence d)
  /\ (truthy (expiresAt d) = true ->
      ensure_expiresAt now id d = (d, []) /\ expiresAt dm = expiresAt d)
  /\ (truthy (lastSeen d) = true ->
      ensure_lastSeen now id d = (d, []) /\ lastSeen dm = lastSeen d)
  /\ (forall p, In (Update id p) (maintain now (id, d)).2 ->
      (In Ftimestamp (List.map fst p) -> truthy (timestamp d) = false)
      /\ (In Fconfidence (List.map fst p) -> nullish (confidence d) = true)).
Proof.
  intros dm. subst dm. split; [|split; [|split; [|split]]].
  - intros H. split; [unfold ensure_timestamp; rewrite H; reflexivity|].
    destruct d. unfold_maintain. cbn in *.
    split_ifs_with ltac:(rewrite ?H in *; cbn in * ); try reflexivity; discriminate.
  - intros H. split; [unfold ensure_confidence; rewrite H; reflexivity|].
    destruct d. unfold_maintain. cbn in *.
    split_ifs_with ltac:(rewrite ?H in *; cbn in * ); try reflexivity; discriminate.
  - intros H. split; [unfold ensure_expiresAt; rewrite H; reflexivity|].
    destruct d. unfold_maintain. cbn in *.
    split_ifs_with ltac:(rewrite ?H in *; cbn in * ); try reflexivity; discriminate.
  - intros H. split; [unfold ensure_lastSeen; rewrite H; reflexivity|].
    destruct d. unfold_maintain. cbn in *.
    split_ifs_with ltac:(rewrite ?H in *; cbn in * ); try reflexivity; discriminate.
  - intros p. destruct d. unfold_maintain. cbn.
    split_ifs; intros H.
    all: repeat (destruct H as [H|H]; [try discriminate H; inversion H; subst p|]);
         try contradiction.
    all: split; intros H0; cbn in H0.
    all: try reflexivity; try (apply negb_true_iff; assumption);
         intuition discriminate.
Qed.

Lemma defaults_fill_only_falsy_witness :
  let d := set FlastSeen (VStr "yesterday") (mobile_at MS_HOUR (vnum 2)) in
  ensure_timestamp t0 "m" d = (d, [])
  /\ ensure_lastSeen t0 "m" d = (d, [])
  /\ lastSeen (maintain t0 ("m", d)).1 = VStr "yesterday".
Proof.
  destruct (defaults_fill_only_falsy t0 "m"
              (set FlastSeen (VStr "yesterday") (mobile_at MS_HOUR (vnum 2))))
    as (Hts & _ & _ & Hls & _).
  destruct (Hts eq_refl) as [H1 _]. destruct (Hls eq_refl) as [H2 H3].
  cbv zeta. auto.
Defined.

(** C8, as stated, fails: a stored [timestamp] of 0 is a value, and the
    loop overwrites it with the clock. *)
Lemma zero_timestamp_overwritten :
  let d := set Ftimestamp (vnum 0) (mobile_at 0 (vnum 1)) in
  timestamp d = vnum 0
  /\ In (Update "z" [(Ftimestamp, vnum t0)]) (maintain t0 ("z", d)).2
  /\ exists d', coll_lookup "z" (cameras (maintained t0 (store_of [("z", d)]))) = Some d'
                /\ timestamp d' = vnum t0.
Proof.
  cbv zeta. split; [reflexivity|]. split; [left; reflexivity|].
  eexists. split; [vm_compute; reflexivity|reflexivity].
Qed.

(** ** The count *)

(** X31: every decision of the loop uses [count_of d]: the writes are
    those for the same document with that number stored as its count.
    It is the field itself when that is a number, and 0 when the field
    is absent, null, false or the empty string. *)
Theorem count_used (now : Z) (id : string) (d : doc) :
  (maintain now (id, set Fcount (VNum (count_of d)) d)).2 = (maintain now (id, d)).2
  /\ (forall n, count d = VNum n -> count_of d = n)
  /\ ((forall n, count d <> VNum n) -> truthy (count d) = false -> count_of d = Fin 0).
Proof.
  split; [|split].
  - destruct d. unfold_maintain. cbn. split_ifs; try reflexivity; congruence.
  - intros n H. unfold count_of. rewrite H. reflexivity.
  - intros Hn Hf. unfold count_of.
    destruct (count d) as [| |b|n|s]; try reflexivity.
    + unfold truthy in Hf. subst b. reflexivity.
    + exfalso. eapply Hn. reflexivity.
    + unfold JS.or. rewrite Hf. reflexivity.
Qed.

Lemma count_used_witness :
  count_of (mobile_at MS_HOUR VNull) = Fin 0
  /\ count_of (mobile_at MS_HOUR (VStr EmptyString)) = Fin 0.
Proof.
  destruct (count_used t0 "m" (mobile_at MS_HOUR VNull)) as (_ & _ & H1).
  destruct (count_used t0 "m" (mobile_at MS_HOUR (VStr EmptyString))) as (_ & _ & H2).
  split.
  - apply H1; [intros n; discriminate|reflexivity].
  - apply H2; [intros n; discriminate|reflexivity].
Defined.

(** C9 fails on the code: under the comment "Ensure numeric count" a
    count that is a non-numeric string is read as NaN, not as 0.  With
    the count absent the recent report is hidden; with the count
    ["abc"] the same report is left alone, as NaN is at or below no
    threshold. *)
Lemma non_numeric_count_is_not_zero :
  count_of (mobile_at MS_HOUR (VStr "abc")) = NaN
  /\ count_of (mobile_at MS_HOUR VUndef) = Fin 0
  /\ In (mark_removed t0 "m") (maintain t0 ("m", mobile_at MS_HOUR VUndef)).2
  /\ ~ In (mark_removed t0 "m") (maintain t0 ("m", mobile_at MS_HOUR (VStr "abc"))).2.
Proof.
  split; [reflexivity|]. split; [reflexivity|]. split.
  - vm_compute. auto 10.
  - vm_compute. intros H.
    repeat (destruct H as [H|H]; [discriminate H|]). exact H.
Qed.

(** ** Records that are already removed *)

Lemma removed_maintain (now : Z) (id : string) (d : doc) :
  truthy (removed d) = true ->
  (forall w, In w (maintain now (id, d)).2 ->
     w = Delete id
     \/ exists p, w = Update id p /\ forall f, In f (List.map fst p) -> default_field f)
  /\ (forall d1, replay (maintain now (id, d)).2 id (Some d) = Some d1 ->
      removed d1 = removed d /\ removedByWorker d1 = removedByWorker d).
Proof.
  intros Hr. destruct d. unfold_maintain. cbn in *.
  split_ifs_with ltac:(rewrite ?Hr in *; cbn in *; rewrite ?andb_false_r in *; cbn in * ).
  all: try discriminate.
  all: split.
  all: try (intros w H;
            repeat (destruct H as [H|H];
                    [subst w; first [left; reflexivity
                                    |right; eexists; split; [reflexivity|];
                                     unfold default_field; cbn; intros f Hf';
                                     intuition (subst; auto 10)]|]);
            contradiction).
  all: run_replay; intros d1 H; inversion H; subst; cbn; auto.
Qed.

(** C6 (as amended): the cleanup job does not skip a record that
    already has [removed = true]: it may still fill its defaults, delete
    it, or extend its expiry; but no write of a run changes [removed] or
    [removedByWorker] of such a record.  The expiry scan of the earlier
    maintainer draft does skip it, and keeps it out of detection. *)
Theorem removed_not_remarked
    (gd : value -> value -> value -> value -> num) (tf : num -> string)
    (getTime : value -> num) (toISOString : num -> string)
    (now later : Z) (reports : option collection) (st : store)
    (id : string) (d : doc) :
  NoDup (List.map fst (cameras st)) ->
  In (id, d) (cameras st) ->
  truthy (removed d) = true ->
  (forall w, In w (maintain now (id, d)).2 ->
     w = Delete id
     \/ exists p, w = Update id p /\ forall f, In f (List.map fst p) -> default_field f)
  /\ (forall d', coll_lookup id (cameras (run gd tf now later reports st)) = Some d' ->
      removed d' = removed d /\ removedByWorker d' = removedByWorker d)
  /\ Maintainer.scan getTime toISOString now (id, d) = ([], [])
  /\ ~ In (id, d) (Maintainer.recentMobile getTime now (cameras st)).
Proof.
  intros Hnd Hin Hr.
  destruct (removed_maintain now id d Hr) as [Hw Hkeep].
  split; [exact Hw|]. split; [|split].
  - intros d'. rewrite (run_lookup gd tf now later reports st id d) by assumption.
    destruct (replay (maintain now (id, d)).2 id (Some d)) as [d1|] eqn:Hd1;
      [|rewrite replay_None; discriminate].
    destruct (Hkeep d1 eq_refl) as [H1 H2].
    destruct (replay_invariant
                (fun x => removed x = removed d /\ removedByWorker x = removedByWorker d)
                (hotspot_pass gd tf later (candidates now (cameras st) reports))
                id d1) as [x [Hx HI]].
    + auto.
    + apply hotspot_pass_no_delete.
    + intros p Hp y [Hy1 Hy2].
      apply hotspot_pass_update in Hp as (_ & nd & _ & _ & _ & _ & _ & -> & _).
      destruct (promotion_frame later nd y) as (_ & _ & _ & -> & -> & _). auto.
    + rewrite Hx. intros H. inversion H; subst. exact HI.
  - unfold Maintainer.scan. cbn [snd]. rewrite Hr. reflexivity.
  - unfold Maintainer.recentMobile. rewrite !filter_In. cbn [snd].
    rewrite Hr, andb_false_r. intros [[_ H] _]. discriminate.
Qed.

Lemma removed_not_remarked_witness :
  Maintainer.scan (fun _ => NaN) (fun _ => "") t0 ("gone", hidden_old) = ([], [])
  /\ ~ In ("gone", hidden_old)
         (Maintainer.recentMobile (fun _ => NaN) t0
            [("gone", hidden_old); ("m1", mobile_at 0 (vnum 1))]).
Proof.
  destruct (removed_not_remarked degree_distance fixed4 (fun _ => NaN) (fun _ => "")
              t0 t1 None
              (store_of [("gone", hidden_old); ("m1", mobile_at 0 (vnum 1))])
              "gone" hidden_old) as (_ & _ & H1 & H2).
  - cbn. repeat constructor; rewrite ?list_elem_of_In; cbn; intuition discriminate.
  - left. reflexivity.
  - reflexivity.
  - split; [exact H1|exact H2].
Defined.

(** C6, as stated, fails: a record that starts the run with
    [removed = true] is physically deleted once it is older than the
    window. *)
Lemma removed_record_deleted :
  let st := store_of [("gone", hidden_old)] in
  removed hidden_old = VBool true
  /\ In (Delete "gone") (main degree_distance fixed4 t0 t1 (cameras st) None)
  /\ coll_lookup "gone" (cameras (run degree_distance fixed4 t0 t1 None st)) = None.
Proof.
  cbv zeta. split; [reflexivity|]. split; [vm_compute; auto|vm_compute; reflexivity].
Qed.

(** ** Who takes part in detection *)

Lemma has_zero_not_located (d : doc) : has_zero d -> located d = false.
Proof.
  unfold located. intros [H|[H|H]]; rewrite H; cbn;
    rewrite ?andb_false_r; reflexivity.
Qed.

(** C10: a record whose [lat], [lon] or [timestamp] is 0 is skipped as a
    seed and is in no seed's neighbourhood; when it is the only entry
    under its id, the detection pass never promotes it.  In a run, a
    stored record with [lat] or [lon] 0 receives no promotion. *)
Theorem zero_coordinate_excluded
    (gd : value -> value -> value -> value -> num) (tf : num -> string) (later : Z) :
  (forall (docs : collection) (o : string * doc),
     has_zero o.2 ->
     cluster gd tf later docs o = []
     /\ (forall b, ~ In o (nearby gd b docs))
     /\ ((forall e, In e docs -> e.1 = o.1 -> e = o) ->
         forall p, ~ In (Update o.1 p) (hotspot_pass gd tf later docs)))
  /\ (forall (now : Z) (cams : collection) (reports : option collection)
             (id : string) (d : doc),
        NoDup (List.map fst cams) -> In (id, d) cams ->
        lat d = vnum 0 \/ lon d = vnum 0 ->
        forall p, ~ In (Update id p)
                      (hotspot_pass gd tf later (candidates now cams reports))).
Proof.
  split.
  - intros docs o Hz. pose proof (has_zero_not_located _ Hz) as Hl.
    split; [|split].
    + unfold cluster. rewrite Hl. reflexivity.
    + intros b H. apply nearby_In in H as (_ & H & _). congruence.
    + intros Huniq p H.
      apply hotspot_pass_update in H as (base & nd & _ & _ & _ & _ & Hn & _).
      apply nearby_In in Hn as (Hin & Hloc & _).
      rewrite (Huniq _ Hin eq_refl) in Hloc. congruence.
  - intros now cams reports id d Hnd Hin Hz p Hp.
    eapply candidates_update in Hp as (_ & _ & Hloc); [|eassumption..].
    destruct (maintain_mem_frame now id d) as (_ & _ & Hla & Hlo & _).
    rewrite has_zero_not_located in Hloc; [discriminate|].
    unfold has_zero. rewrite Hla, Hlo. tauto.
Qed.

Lemma zero_coordinate_excluded_witness :
  let docs := [("a", mobile_at 0 (vnum 1)); ("e", equator 11);
               ("b", mobile_at 0 (vnum 1)); ("c", mobile_at 0 (vnum 1))] in
  cluster degree_distance fixed4 t1 docs ("e", equator 11) = []
  /\ forall p, ~ In (Update "e" p)
                  (hotspot_pass degree_distance fixed4 t1 (candidates t0 docs None)).
Proof.
  destruct (zero_coordinate_excluded degree_distance fixed4 t1) as [H1 H2].
  split.
  - apply H1. left. reflexivity.
  - apply (H2 t0 _ None "e" (equator 11)).
    + cbn. repeat constructor; rewrite ?list_elem_of_In; cbn; intuition discriminate.
    + right. left. reflexivity.
    + left. reflexivity.
Defined.

Lemma num_lt_cutoff_not_recent (n : num) (c : Z) :
  num_lt (num_or n (Fin 0)) (Fin c) = true -> num_le (Fin c) n = false.
Proof.
  destruct n as [| | |z]; try reflexivity; try discriminate.
  unfold num_or, num_truthy, num_lt, num_le.
  destruct (Z.eqb_spec z 0); cbn -[Z.leb Z.ltb]; intros H.
  - subst z. apply Z.ltb_lt in H. apply Z.leb_gt. exact H.
  - apply Z.ltb_lt in H. apply Z.leb_gt. exact H.
Qed.

Lemma deleted_not_recent (now : Z) (id : string) (d : doc) :
  In (Delete id) (maintain now (id, d)).2 ->
  recent_mobile (hotspotWindowCutoff now) (id, (maintain now (id, d)).1) = false.
Proof.
  unfold recent_mobile. destruct d. unfold_maintain. cbn.
  split_ifs; intros H.
  all: repeat (destruct H as [H|H]; [discriminate H|]); try contradiction.
  all: repeat match goal with
              | H : num_lt (num_or _ (Fin 0)) _ = true |- _ =>
                  apply num_lt_cutoff_not_recent in H; rewrite H
              end.
  all: rewrite ?andb_false_r; reflexivity.
Qed.

(** C7: a document the first loop deleted is rejected by the filter
    that builds the candidate set, so it is neither a seed nor a
    neighbour, and the detection pass writes no promotion for it. *)
Theorem deleted_not_clustered
    (gd : value -> value -> value -> value -> num) (tf : num -> string)
    (now later : Z) (reports : option collection) (cams : collection)
    (id : string) (d : doc) :
  NoDup (List.map fst cams) ->
  In (id, d) cams ->
  In (Delete id) (maintenance_pass now cams).2 ->
  let dm := (maintain now (id, d)).1 in
  recent_mobile (hotspotWindowCutoff now) (id, dm) = false
  /\ ~ In (id, dm)
        (List.filter (recent_mobile (hotspotWindowCutoff now)) (maintenance_pass now cams).1)
  /\ forall p, ~ In (Update id p) (hotspot_pass gd tf later (candidates now cams reports)).
Proof.
  intros Hnd Hin Hdel dm.
  assert (Hown : In (Delete id) (maintain now (id, d)).2).
  { apply in_flat_map in Hdel as [[j e] [Hje H]].
    pose proof (maintain_target _ _ _ H) as Hj. cbn in Hj. inversion Hj; subst j.
    assert (e = d) as -> by (eapply NoDup_fst_eq; eassumption). exact H. }
  pose proof (deleted_not_recent now id d Hown) as Hr.
  split; [exact Hr|]. split.
  - rewrite filter_In. intros [_ H]. unfold dm in H. congruence.
  - intros p Hp.
    eapply candidates_update in Hp as (_ & H & _); [|eassumption..]. congruence.
Qed.

Lemma deleted_not_clustered_witness :
  let cams := [("old", mobile_at (11 * MS_DAY) (vnum 0));
               ("a", mobile_at 0 (vnum 1)); ("b", mobile_at 0 (vnum 1))] in
  recent_mobile (hotspotWindowCutoff t0)
    ("old", (maintain t0 ("old", mobile_at (11 * MS_DAY) (vnum 0))).1) = false
  /\ forall p, ~ In (Update "old" p)
                  (hotspot_pass degree_distance fixed4 t1 (candidates t0 cams None)).
Proof.
  destruct (deleted_not_clustered degree_distance fixed4 t0 t1 None
              [("old", mobile_at (11 * MS_DAY) (vnum 0));
               ("a", mobile_at 0 (vnum 1)); ("b", mobile_at 0 (vnum 1))]
              "old" (mobile_at (11 * MS_DAY) (vnum 0))) as (H1 & _ & H3).
  - cbn. repeat constructor; rewrite ?list_elem_of_In; cbn; intuition discriminate.
  - left. reflexivity.
  - vm_compute. auto 10.
  - split; [exact H1|exact H3].
Defined.

(** ** Clusters *)

Lemma num_le_cutoff_recent (n : num) (c : Z) :
  num_le (Fin c) n = true -> num_lt (num_or n (Fin 0)) (Fin c) = false.
Proof.
  destruct n as [| | |z]; try reflexivity; try discriminate.
  unfold num_or, num_truthy, num_lt, num_le.
  destruct (Z.eqb_spec z 0); cbn -[Z.leb Z.ltb]; intros H.
  - subst z. apply Z.leb_le in H. apply Z.ltb_ge. exact H.
  - apply Z.leb_le in H. apply Z.ltb_ge. exact H.
Qed.

Lemma mobile_not_fixed (v : value) :
  is_str v "mobile_camera" = true -> is_str v "fixed_camera" = false.
Proof.
  intros H. destruct (is_str v "fixed_camera") eqn:E; [|reflexivity].
  pose proof (is_str_inj _ _ _ H E). discriminate.
Qed.

(** A clusterable document survives the first loop, with its flag and
    timestamp as stored. *)
Lemma clusterable_maintain (now : Z) (id : string) (d : doc) :
  clusterable now (id, d) ->
  let dm := (maintain now (id, d)).1 in
  timestamp dm = timestamp d /\ hotspot dm = hotspot d
  /\ exists d1, replay (maintain now (id, d)).2 id (Some d) = Some d1
                /\ hotspot d1 = hotspot d.
Proof.
  intros (Hty & _ & _ & Hts & Hw & _) dm. subst dm. cbn [snd] in *.
  pose proof (mobile_not_fixed _ Hty) as Hf.
  apply num_le_cutoff_recent in Hw.
  destruct d. unfold_maintain. cbn in *.
  split_ifs_with ltac:(rewrite ?Hf, ?Hts, ?Hw in *; cbn in * ).
  all: try discriminate.
  all: run_replay; repeat split; eexists; split; reflexivity.
Qed.

(** A property that every update of the log establishes holds at the
    end as soon as the log has one update of the document. *)
Lemma replay_established (J : doc -> Prop) (log : list write) (id : string) (x : doc) :
  ~ In (Delete id) log ->
  (forall p, In (Update id p) log -> forall y, J (apply_patch p y)) ->
  (exists p, In (Update id p) log) ->
  exists x', replay log id (Some x) = Some x' /\ J x'.
Proof.
  revert x. induction log as [|w log IH]; intros x Hd Hu [p Hp]; [destruct Hp|].
  rewrite replay_cons.
  assert (Hd' : ~ In (Delete id) log) by (intros H; apply Hd; right; exact H).
  assert (Hu' : forall q, In (Update id q) log -> forall y, J (apply_patch q y))
    by (intros q Hq; apply Hu; right; exact Hq).
  destruct w as [i q|i|k s]; cbn [replay_write].
  - destruct (String.eqb_spec i id) as [->|Hne].
    + cbn. apply (replay_invariant J); [|exact Hd'|].
      * apply Hu. left. reflexivity.
      * intros r Hr y _. apply Hu'. exact Hr.
    + apply IH; [exact Hd'|exact Hu'|].
      destruct Hp as [Hp|Hp]; [inversion Hp; subst; contradiction|eauto].
  - destruct (String.eqb_spec i id) as [->|Hne].
    + exfalso. apply Hd. left. reflexivity.
    + apply IH; [exact Hd'|exact Hu'|].
      destruct Hp as [Hp|Hp]; [discriminate Hp|eauto].
  - apply IH; [exact Hd'|exact Hu'|].
    destruct Hp as [Hp|Hp]; [discriminate Hp|eauto].
Qed.

(** The summaries after a log: the last upsert under a key wins. *)
Lemma camera_hotspots_app (l1 l2 : list write) (st : store) :
  camera_hotspots (apply_writes (l1 ++ l2) st)
  = camera_hotspots (apply_writes l2 (apply_writes l1 st)).
Proof. rewrite apply_writes_app. reflexivity. Qed.

Lemma camera_hotspots_upserted (P : summary -> Prop) (log : list write)
    (k : string) (st : store) :
  (forall s, In (SetMerge k s) log -> P s) ->
  (exists s, In (SetMerge k s) log) ->
  exists s, camera_hotspots (apply_writes log st) !! k = Some s /\ P s.
Proof.
  induction log as [|w log IH] using rev_ind; intros HP [s Hs]; [destruct Hs|].
  rewrite apply_writes_app. cbn.
  destruct w as [i p|i|k' s']; cbn.
  - apply IH.
    + intros s0 H0. apply HP. apply in_app_iff. left. exact H0.
    + apply in_app_iff in Hs as [Hs|[Hs|[]]]; [eauto|discriminate].
  - apply IH.
    + intros s0 H0. apply HP. apply in_app_iff. left. exact H0.
    + apply in_app_iff in Hs as [Hs|[Hs|[]]]; [eauto|discriminate].
  - destruct (decide (k' = k)) as [->|Hne].
    + exists s'. rewrite lookup_insert_eq. split; [reflexivity|].
      apply HP. apply in_app_iff. right. left. reflexivity.
    + rewrite lookup_insert_ne by exact Hne. apply IH.
      * intros s0 H0. apply HP. apply in_app_iff. left. exact H0.
      * apply in_app_iff in Hs as [Hs|[Hs|[]]]; [eauto|].
        inversion Hs; subst. contradiction.
Qed.

(** C1, as stated, fails: a record promoted by the first cluster is not
    skipped as a seed later in the same pass.  With three co-located
    unflagged reports, [a]'s iteration promotes [b], and [b]'s own
    iteration then promotes all three again and upserts again: three
    upserts and nine promotions in one pass.  Moreover three such
    reports on the equator (latitude 0) are not promoted at all, a raw
    report at the same place raises the count of the summary to 4, a
    record whose id starts with [r_] is left unflagged, and behind a
    record whose log line throws the three reports are never looked
    at: the script ends with exit code 1 and leaves them unflagged. *)
Lemma promoted_record_still_seeds :
  let docs := candidates t0 three_reports None in
  let log := main degree_distance fixed4 t0 t1 three_reports None in
  In (Update "b" (promotion t1 (complete_mobile 120000)))
     (cluster degree_distance fixed4 t1 docs ("a", complete_mobile 60000))
  /\ length (cluster degree_distance fixed4 t1 docs ("b", complete_mobile 120000)) = 4%nat
  /\ length (List.filter is_upsert log) = 3%nat
  /\ length (List.filter is_update log) = 9%nat
  /\ hotspot_pass degree_distance fixed4 t1
       (candidates t0 [("a", equator 11); ("b", equator 11); ("c", equator 11)] None) = []
  /\ report_count <$>
       (camera_hotspots
          (run degree_distance fixed4 t0 t1 (Some [("x", mobile_at 1000 VUndef)])
             (store_of three_reports))
        !! hotspotId fixed4 (complete_mobile 60000)) = Some 4%nat
  /\ hotspot <$>
       coll_lookup "r_1"
         (cameras (run degree_distance fixed4 t0 t1 None
                     (store_of [("r_1", complete_mobile 60000);
                                ("b", complete_mobile 120000);
                                ("c", complete_mobile 180000)]))) = Some VUndef
  /\ (let r := worker degree_distance fixed4 t0 t1 None
                 (store_of (("ns", nanos) :: three_reports)) in
      completed r = false
      /\ hotspot <$> coll_lookup "b" (cameras (after r)) = Some VUndef
      /\ camera_hotspots (after r) !! hotspotId fixed4 (complete_mobile 60000) = None).
Proof.
  cbv zeta. split; [|split; [|split; [|split; [|split; [|split; [|split]]]]]].
  - vm_compute. right. left. reflexivity.
  - vm_compute. reflexivity.
  - vm_compute. reflexivity.
  - vm_compute. reflexivity.
  - vm_compute. reflexivity.
  - vm_compute. reflexivity.
  - vm_compute. reflexivity.
  - repeat split; vm_compute; reflexivity.
Qed.

(** ** Running the job again *)

Ltac typed_cases :=
  repeat match goal with
         | H : match ?v with _ => _ end = true |- _ =>
             destruct v as [| |?|[| | |?]|?]; cbn in H; try discriminate H;
             try match type of H with true = true => clear H end
         end.

Ltac js_arith :=
  unfold JS.or, num_or, vnum in *;
  unfold truthy, nullish, to_number, num_add, num_lt, num_le, num_max,
    num_truthy in *;
  cbn -[Z.add Z.mul Z.leb Z.ltb Z.eqb] in *;
  repeat match goal with
         | H : context [Z.eqb ?a ?b] |- _ => destruct (Z.eqb_spec a b); cbn -[Z.add Z.mul Z.leb Z.ltb Z.eqb] in *
         | |- context [Z.eqb ?a ?b] => destruct (Z.eqb_spec a b); cbn -[Z.add Z.mul Z.leb Z.ltb Z.eqb] in *
         | H : context [Z.leb ?a ?b] |- _ => destruct (Z.leb_spec a b); cbn -[Z.add Z.mul Z.leb Z.ltb Z.eqb] in *
         | |- context [Z.leb ?a ?b] => destruct (Z.leb_spec a b); cbn -[Z.add Z.mul Z.leb Z.ltb Z.eqb] in *
         | H : context [Z.ltb ?a ?b] |- _ => destruct (Z.ltb_spec a b); cbn -[Z.add Z.mul Z.leb Z.ltb Z.eqb] in *
         | |- context [Z.ltb ?a ?b] => destruct (Z.ltb_spec a b); cbn -[Z.add Z.mul Z.leb Z.ltb Z.eqb] in *
         end;
  unfold MS_HOUR, MS_DAY, MOBILE_EXPIRE_HOURS, OTHER_EXPIRE_HOURS,
    PRESERVE_HOTSPOT_DAYS, HOTSPOT_WINDOW_DAYS in *;
  first [discriminate | reflexivity | congruence | lia | exfalso; lia | idtac].

Ltac bool_facts :=
  repeat match goal with
         | H : negb _ = true |- _ => apply negb_true_iff in H
         | H : negb _ = false |- _ => apply negb_false_iff in H
         | H : _ && _ = true |- _ => apply andb_true_iff in H; destruct H
         end;
  repeat match goal with
         | H : ?b = _ |- context [?b] => rewrite H
         end;
  cbn.

Ltac clash :=
  repeat match goal with
         | H : ?b = true, H' : context [?b] |- _ =>
             lazymatch type of H' with
             | b = true => fail
             | _ => rewrite H in H'; cbn in H'
             end
         | H : ?b = false, H' : context [?b] |- _ =>
             lazymatch type of H' with
             | b = false => fail
             | _ => rewrite H in H'; cbn in H'
             end
         end;
  try discriminate.

Ltac unfold_decision :=
  unfold decision, normal, fixed_decision, mobile_decision, hide_or_delete,
    mark_removed, extension, lifetimeHours, count_of, type_of in *.

(** With the defaults in place the loop only takes its decision. *)
Lemma maintain_of_normal (now : Z) (id : string) (x : doc) :
  normal x = true -> maintain now (id, x) = (x, decision now id x).
Proof.
  intros H. destruct x. unfold decision, normal in H |- *. unfold_maintain. cbn in *.
  destruct (truthy timestamp0); cbn in *; [|discriminate].
  destruct (nullish confidence0); cbn in *; [discriminate|].
  destruct (is_str (JS.or type0 (VStr "mobile_camera")) "fixed_camera"); cbn in *.
  - rewrite H. reflexivity.
  - apply andb_true_iff in H as [H1 H2]. do 3 (rewrite ?H1, ?H2; cbn). reflexivity.
Qed.

Lemma truthy_vnum (z : Z) : z <> 0 -> truthy (vnum z) = true.
Proof. intros H. unfold truthy, vnum, num_truthy. destruct (Z.eqb_spec z 0); [contradiction|reflexivity]. Qed.


(** Replaying an iteration: the defaults are mirrored in memory, so what
    remains is the decision for the document then held. *)
Lemma maintain_mirror (now : Z) (id : string) (d : doc) :
  let dm := (maintain now (id, d)).1 in
  replay (maintain now (id, d)).2 id (Some d) = replay (decision now id dm) id (Some dm).
Proof.
  cbv zeta. destruct d. unfold decision. unfold_defaults. cbn.
  split_ifs; try discriminate; run_replay; reflexivity.
Qed.

(** The first loop puts the defaults in place. *)
Lemma maintain_mem_normal (now : Z) (id : string) (d : doc) :
  epoch_typed d = true -> 0 < now ->
  let dm := (maintain now (id, d)).1 in
  normal dm = true
  /\ (exists t, timestamp dm = vnum t /\ 0 < t)
  /\ (is_str (type_of d) "fixed_camera" = false ->
      exists l, lastSeen dm = VNum l /\ num_truthy l = true).
Proof.
  intros Ht Hnow dm. subst dm. unfold epoch_typed in Ht.
  apply andb_true_iff in Ht as [Hts Hls].
  assert (Htn : truthy (vnum now) = true) by (apply truthy_vnum; lia).
  destruct d. unfold normal. unfold_defaults. cbn in *.
  split_ifs_with ltac:(rewrite ?Htn in *; cbn in * );
    try discriminate.
  all: bool_facts; typed_cases; try discriminate.
  all: (split; [js_arith|split]).
  all: try (intros Hf; try discriminate Hf; clear Hf).
  all: unfold JS.or;
       repeat match goal with
              | H : truthy ?v = _ |- context [truthy ?v] => rewrite H
              end.
  all: try (eexists; split; [reflexivity|]; js_arith; fail).
Qed.

(** After its own decision a document is settled. *)
Lemma decision_settles (now : Z) (id : string) (dm d1 : doc) :
  0 < now -> normal dm = true ->
  replay (decision now id dm) id (Some dm) = Some d1 ->
  settled now id dm d1.
Proof.
  intros Hnow Hn. unfold settled.
  assert (Htn : truthy (vnum now) = true) by (apply truthy_vnum; lia).
  assert (Hte : truthy (vnum (now + PRESERVE_HOTSPOT_DAYS * MS_DAY)) = true)
    by (apply truthy_vnum; unfold PRESERVE_HOTSPOT_DAYS, MS_DAY; lia).
  assert (Hex : num_lt (to_number (vnum (now + PRESERVE_HOTSPOT_DAYS * MS_DAY))) (Fin now) = false).
  { unfold vnum, to_number, num_lt. apply Z.ltb_ge.
    unfold PRESERVE_HOTSPOT_DAYS, MS_DAY. lia. }
  assert (Htt : truthy (VBool true) = true) by reflexivity.
  intros H. destruct dm. unfold_decision. cbn in *.
  repeat (rewrite ?String.eqb_refl in H;
          match type of H with
          | context [if ?b then _ else _] => destruct b eqn:?; cbn in H
          end).
  all: revert H; run_replay; intros H; inversion H; subst d1; clear H; cbn.
  all: bool_facts; rewrite ?Htt, ?Htn, ?Hte, ?Hex; cbn.
  all: repeat match goal with
              | H : ?b = _ |- context [?b] => rewrite H; cbn
              end.
  all: rewrite ?andb_false_r; cbn.
  all: try (repeat split; auto; fail).
  all: repeat match goal with
              | |- context [if ?b then _ else _] => destruct b eqn:?; cbn
              end.
  all: try (repeat split; auto; fail).
  all: clash.
Qed.

(** A promotion leaves a settled document settled. *)
Lemma promotion_settles (now later : Z) (id : string) (dm x : doc) :
  0 < now -> now <= later ->
  is_str (type_of dm) "mobile_camera" = true ->
  (exists t, timestamp dm = vnum t /\ 0 < t) ->
  (exists l, lastSeen dm = VNum l /\ num_truthy l = true) ->
  type x = type dm -> count x = count dm -> lat x = lat dm -> lon x = lon dm ->
  timestamp x = timestamp dm ->
  settled now id dm (apply_patch (promotion later dm) x).
Proof.
  intros Hnow Hle Hm [t [Ht Htpos]] [l [Hl Hlt]] H1 H2 H3 H4 H5.
  pose proof (mobile_not_fixed _ Hm) as Hf.
  unfold type_of in *.
  destruct x, dm. cbn in *. subst. unfold settled. cbn.
  assert (Hp : later + PRESERVE_HOTSPOT_DAYS * MS_DAY <> 0)
    by (unfold PRESERVE_HOTSPOT_DAYS, MS_DAY; lia).
  assert (Hx : num_lt (to_number (vnum (later + PRESERVE_HOTSPOT_DAYS * MS_DAY))) (Fin now) = false).
  { unfold vnum, to_number, num_lt. apply Z.ltb_ge.
    unfold PRESERVE_HOTSPOT_DAYS, MS_DAY. lia. }
  repeat (split; [auto|]).
  - unfold normal, type_of. cbn. rewrite Hf.
    rewrite (truthy_vnum t) by lia. rewrite (truthy_vnum _ Hp).
    assert (Hls : truthy (VNum (num_max (to_number (JS.or (VNum l) (vnum 0)))
                                         (to_number (JS.or (vnum t) (vnum 0))))) = true).
    { unfold JS.or. rewrite (truthy_vnum t) by lia.
      change (truthy (VNum l)) with (num_truthy l). rewrite Hlt.
      destruct l as [| | |z]; try discriminate;
        unfold to_number, vnum, num_max, num_le, truthy, num_truthy in *.
      - destruct (Z.eqb_spec t 0); [lia|reflexivity].
      - reflexivity.
      - destruct (Z.leb_spec z t); destruct (Z.eqb_spec z 0); try discriminate;
          [destruct (Z.eqb_spec t 0); [lia|reflexivity]|reflexivity]. }
    rewrite Hls. reflexivity.
  - unfold decision, mobile_decision, type_of. cbn. rewrite Hf.
    change (truthy (VBool true)) with true. cbn.
    rewrite Hx, andb_false_r. reflexivity.
Qed.
(** The collection after a log, entry by entry. *)
Lemma cameras_apply_write (st : store) (w : write) :
  cameras (apply_write st w) = omap (replay_entry [w]) (cameras st).
Proof.
  unfold replay_entry, replay. destruct w as [i p|i|k s]; cbn.
  - unfold coll_update. induction (cameras st) as [|[j d] c IH]; [reflexivity|].
    cbn. rewrite IH. destruct (String.eqb_spec j i) as [->|Hne].
    + rewrite String.eqb_refl. reflexivity.
    + rewrite (proj2 (String.eqb_neq i j)) by congruence. reflexivity.
  - unfold coll_delete. induction (cameras st) as [|[j d] c IH]; [reflexivity|].
    cbn. rewrite IH. destruct (String.eqb_spec j i) as [->|Hne].
    + rewrite String.eqb_refl. reflexivity.
    + rewrite (proj2 (String.eqb_neq i j)) by congruence. reflexivity.
  - induction (cameras st) as [|[j d] c IH]; [reflexivity|].
    cbn. rewrite <- IH. reflexivity.
Qed.

Lemma replay_entry_cons (w : write) (log : list write) (e : string * doc) :
  replay_entry (w :: log) e
  = match replay_entry [w] e with
    | Some e' => replay_entry log e'
    | None => None
    end.
Proof.
  unfold replay_entry. rewrite replay_cons.
  change (replay [w] e.1 (Some e.2)) with (replay_write e.1 (Some e.2) w).
  destruct (replay_write e.1 (Some e.2) w) as [d'|]; cbn; [reflexivity|].
  rewrite replay_None. reflexivity.
Qed.

Lemma cameras_apply_writes (log : list write) (st : store) :
  cameras (apply_writes log st) = omap (replay_entry log) (cameras st).
Proof.
  revert st. induction log as [|w log IH]; intros st.
  - cbn. induction (cameras st) as [|[j d] c IHc]; [reflexivity|].
    cbn. rewrite <- IHc. reflexivity.
  - change (apply_writes (w :: log) st) with (apply_writes log (apply_write st w)).
    rewrite IH, cameras_apply_write.
    induction (cameras st) as [|e c IHc]; [reflexivity|].
    cbn [omap list_omap]. rewrite (replay_entry_cons w log e), <- IHc.
    destruct (replay_entry [w] e) as [e'|]; reflexivity.
Qed.

Lemma filter_omap_le {A B : Type} (F : A -> option B) (M : A -> B)
    (R N R' N' : B -> bool) (l : list A) :
  (forall e e', In e l -> F e = Some e' -> R' e' = true -> N' e' = true ->
     R (M e) = true /\ N (M e) = true) ->
  (length (List.filter N' (List.filter R' (omap F l)))
   <= length (List.filter N (List.filter R (List.map M l))))%nat.
Proof.
  induction l as [|e l IH]; intros H; [reflexivity|].
  assert (IH' := IH (fun e0 e' Hin => H e0 e' (or_intror Hin))).
  cbn [omap list_omap List.map List.filter].
  destruct (F e) as [e'|] eqn:E.
  - cbn [List.filter]. destruct (R' e') eqn:ER'.
    + cbn [List.filter]. destruct (N' e') eqn:EN'.
      * destruct (H e e' (or_introl eq_refl) E ER' EN') as [-> HN].
        cbn [List.filter]. rewrite HN. cbn [length]. lia.
      * destruct (R (M e)); cbn [List.filter]; [destruct (N (M e))|]; cbn [length]; lia.
    + destruct (R (M e)); cbn [List.filter]; [destruct (N (M e))|]; cbn [length]; lia.
  - destruct (R (M e)); cbn [List.filter]; [destruct (N (M e))|]; cbn [length]; lia.
Qed.

Lemma flat_map_nil {A B : Type} (f : A -> list B) (l : list A) :
  (forall x, In x l -> f x = []) -> List.flat_map f l = [].
Proof.
  induction l as [|a l IH]; intros H; [reflexivity|].
  cbn. rewrite (H a) by (left; reflexivity). apply IH.
  intros x Hx. apply H. right. exact Hx.
Qed.

Lemma In_omap {A B : Type} (f : A -> option B) (l : list A) (y : B) :
  In y (omap f l) -> exists x, In x l /\ f x = Some y.
Proof.
  induction l as [|a l IH]; cbn; [intros []|].
  destruct (f a) as [b|] eqn:E.
  - intros [<-|H]; [eauto|]. destruct (IH H) as [x [Hx Hf]]. eauto.
  - intros H. destruct (IH H) as [x [Hx Hf]]. eauto.
Qed.

Section Again.

Context (gd : value -> value -> value -> value -> num) (tf : num -> string).
Context (now later : Z) (cams : collection).
Hypothesis Hnd : NoDup (List.map fst cams).
Hypothesis Htyped : forall e, In e cams -> epoch_typed e.2 = true.
Hypothesis Hids : forall e, In e cams -> String.prefix "r_" e.1 = false.
Hypothesis Hself : self_near gd cams.
Hypothesis Hnow : 0 < now.
Hypothesis Hle : now <= later.

Abbreviation first_log := (main gd tf now later cams None).
Abbreviation first_detection := (hotspot_pass gd tf later (candidates now cams None)).

(** Whatever the first run leaves of a document is settled. *)
Lemma again_settled (id : string) (d d' : doc) :
  In (id, d) cams -> replay first_log id (Some d) = Some d' ->
  settled now id (maintain now (id, d)).1 d'.
Proof.
  intros Hin. rewrite main_eq, replay_app.
  rewrite (replay_maintenance_pass now cams id d) by assumption.
  rewrite maintain_mirror.
  destruct (maintain_mem_normal now id d (Htyped _ Hin) Hnow) as (Hn & Hts & Hls).
  set (dm := (maintain now (id, d)).1) in *.
  destruct (replay (decision now id dm) id (Some dm)) as [d1|] eqn:Hd1;
    [|rewrite replay_None; discriminate].
  pose proof (decision_settles now id dm d1 Hnow Hn Hd1) as Hs1.
  destruct (replay_invariant (settled now id dm) first_detection id d1) as [x [Hx HI]].
  - exact Hs1.
  - apply hotspot_pass_no_delete.
  - intros p Hp y (Hy1 & Hy2 & Hy3 & Hy4 & Hy5 & _).
    eapply candidates_update in Hp as (-> & Hr & _); [|eassumption..].
    apply recent_mobile_type in Hr. cbn [snd] in Hr. fold dm in Hr |- *.
    apply promotion_settles; try assumption.
    apply Hls. apply mobile_not_fixed.
    unfold dm in Hr. rewrite maintain_mem_type_of in Hr. exact Hr.
  - rewrite Hx. intros H. inversion H; subst. exact HI.
Qed.

(** A document the first detection promoted carries the flag. *)
Lemma again_flagged (id : string) (d d' : doc) (p : patch) :
  In (id, d) cams -> replay first_log id (Some d) = Some d' ->
  In (Update id p) first_detection -> hotspot d' = VBool true.
Proof.
  intros Hin Hd' Hp. revert Hd'. rewrite main_eq, replay_app.
  destruct (replay (maintenance_pass now cams).2 id (Some d)) as [d1|];
    [|rewrite replay_None; discriminate].
  destruct (replay_established (fun y => hotspot y = VBool true) first_detection id d1)
    as [x [Hx HJ]].
  - apply hotspot_pass_no_delete.
  - intros q Hq y.
    apply hotspot_pass_update in Hq as (_ & nd & _ & _ & _ & _ & _ & -> & _).
    apply promotion_sets.
  - eauto.
  - rewrite Hx. intros H. inversion H; subst. exact HJ.
Qed.

Abbreviation second := (omap (replay_entry first_log) cams).

Lemma again_second_In (e' : string * doc) :
  In e' second ->
  exists d, In (e'.1, d) cams /\ replay first_log e'.1 (Some d) = Some e'.2
            /\ settled now e'.1 (maintain now (e'.1, d)).1 e'.2.
Proof.
  intros H. apply In_omap in H as [[id d] [Hin Hf]].
  unfold replay_entry in Hf. cbn [fst snd] in Hf.
  destruct (replay first_log id (Some d)) as [d'|] eqn:E; [|discriminate].
  cbn in Hf. inversion Hf; subst e'. cbn [fst snd].
  exists d. split; [exact Hin|]. split; [exact E|].
  apply again_settled; assumption.
Qed.

(** The second run's first loop writes nothing and changes nothing in
    memory. *)
Lemma again_maintenance : maintenance_pass now second = (second, []).
Proof.
  assert (H : forall e', In e' second -> maintain now e' = (e'.2, [])).
  { intros e' He'. destruct (again_second_In e' He') as (d & _ & _ & Hs).
    destruct Hs as (_ & _ & _ & _ & _ & _ & Hn & Hd).
    destruct e' as [id d']. cbn [fst snd] in *.
    rewrite (maintain_of_normal now id d' Hn), Hd. reflexivity. }
  unfold maintenance_pass. f_equal.
  - induction second as [|e l IH]; [reflexivity|].
    cbn [List.map]. rewrite (H e) by (left; reflexivity). cbn [fst].
    rewrite IH by (intros x Hx; apply H; right; exact Hx).
    destruct e; reflexivity.
  - apply flat_map_nil. intros e He. rewrite (H e He). reflexivity.
Qed.

(** The candidates of the second run were candidates of the first, with
    the same coordinates. *)
Lemma again_nearby_le (b' : doc) (bm : doc) :
  lat b' = lat bm -> lon b' = lon bm ->
  (length (nearby gd b' (List.filter (recent_mobile (hotspotWindowCutoff now)) second))
   <= length (nearby gd bm (candidates now cams None)))%nat.
Proof.
  intros Hla Hlo. unfold candidates, mobileDocs, nearby.
  cbn [fetch_reports List.filter]. rewrite app_nil_r.
  unfold maintenance_pass. cbn [fst].
  apply filter_omap_le. intros [i di] [i' di'] Hin Hf HR HN.
  unfold replay_entry in Hf. cbn [fst snd] in Hf.
  destruct (replay first_log i (Some di)) as [x|] eqn:E; [|discriminate].
  cbn in Hf. inversion Hf; subst i' x.
  pose proof (again_settled i di di' Hin E) as (H1 & _ & H3 & H4 & H5 & _).
  cbn [fst snd] in *. unfold recent_mobile, located, type_of in *. cbn [snd] in *.
  rewrite <- H1, <- H3, <- H4, <- H5, <- Hla, <- Hlo. auto.
Qed.

(** The second run's detection finds no seed. *)
Lemma again_detection :
  hotspot_pass gd tf later (candidates now second None) = [].
Proof.
  unfold candidates. rewrite again_maintenance. cbn [fst].
  unfold mobileDocs. cbn [fetch_reports List.filter]. rewrite app_nil_r.
  apply flat_map_nil. intros [id d'] Hb.
  apply filter_In in Hb as [Hb Hrec].
  destruct (again_second_In _ Hb) as (d & Hin & Hrep & Hs). cbn [fst snd] in *.
  set (dm := (maintain now (id, d)).1) in *.
  destruct Hs as (H1 & _ & H3 & H4 & H5 & Hh & _).
  unfold cluster. cbn [snd].
  destruct (located d') eqn:Hloc; cbn [negb]; [|reflexivity].
  destruct (truthy (hotspot d')) eqn:Hflag; [reflexivity|].
  destruct (Nat.leb_spec HOTSPOT_THRESHOLD
              (length (nearby gd d'
                 (List.filter (recent_mobile (hotspotWindowCutoff now)) second))))
    as [Hge|Hlt]; [|reflexivity].
  exfalso.
  pose proof (again_nearby_le d' dm H3 H4) as Hmono.
  assert (Hlocm : located dm = true).
  { unfold located in *. rewrite <- H3, <- H4, <- H5. exact Hloc. }
  assert (Hflagm : truthy (hotspot dm) = false).
  { destruct Hh as [Hh|Hh]; rewrite Hh in Hflag; [exact Hflag|discriminate]. }
  assert (Hcand : In (id, dm) (candidates now cams None)).
  { unfold candidates, mobileDocs. apply in_app_iff. left. apply filter_In. split.
    - apply maintenance_pass_mem. eauto.
    - unfold recent_mobile, type_of in *. cbn [snd] in *.
      rewrite <- H1, <- H5. exact Hrec. }
  assert (Hnear : In (id, dm) (nearby gd dm (candidates now cams None))).
  { unfold nearby. apply filter_In. split; [exact Hcand|]. cbn [snd].
    rewrite Hlocm. cbn [negb].
    destruct (maintain_mem_frame now id d) as (_ & _ & Hla & Hlo & _). fold dm in Hla, Hlo.
    rewrite Hla, Hlo. apply (Hself (id, d) Hin); cbn [snd].
    - rewrite <- Hla. unfold located in Hlocm.
      apply andb_true_iff in Hlocm as [Hlocm _]. apply andb_true_iff in Hlocm as [Hlocm _].
      exact Hlocm.
    - rewrite <- Hlo. unfold located in Hlocm.
      apply andb_true_iff in Hlocm as [Hlocm _]. apply andb_true_iff in Hlocm as [_ Hlocm].
      exact Hlocm. }
  assert (Hp : In (Update id (promotion later dm)) first_detection).
  { unfold hotspot_pass. apply in_flat_map. exists (id, dm). split; [exact Hcand|].
    unfold cluster. cbn [snd]. rewrite Hlocm, Hflagm. cbn [negb].
    destruct (Nat.leb_spec HOTSPOT_THRESHOLD
                (length (nearby gd dm (candidates now cams None)))) as [_|Hbad]; [|lia].
    apply in_app_iff. left. apply in_flat_map. exists (id, dm). split; [exact Hnear|].
    pose proof (Hids (id, d) Hin) as Hpre. cbn [fst] in Hpre.
    unfold promote. cbn [fst snd]. rewrite Hpre, andb_false_r.
    left. reflexivity. }
  pose proof (again_flagged id d d' _ Hin Hrep Hp) as Htrue.
  rewrite Htrue in Hflag. discriminate.
Qed.

End Again.

(** When nothing throws in the first run, no raw reports are read, the
    snapshot's [timestamp] and [lastSeen] fields hold epoch numbers or
    are unset, no id starts with [r_], every located record is within
    the radius of itself, and the clock readings are positive and the
    same in both runs, the writes of a second run on the store the
    first run left are none. *)
Lemma rerun_writes_nothing
    (gd : value -> value -> value -> value -> num) (tf : num -> string)
    (now later : Z) (st : store) :
  NoDup (List.map fst (cameras st)) ->
  (forall e, In e (cameras st) -> epoch_typed e.2 = true) ->
  (forall e, In e (cameras st) -> String.prefix "r_" e.1 = false) ->
  self_near gd (cameras st) ->
  0 < now -> now <= later ->
  let st' := run gd tf now later None st in
  main gd tf now later (cameras st') None = []
  /\ run gd tf now later None st' = st'.
Proof.
  intros Hnd Htyped Hids Hself Hnow Hle st'.
  assert (Hlog : main gd tf now later (cameras st') None = []).
  { unfold st', run. rewrite cameras_apply_writes, main_eq.
    rewrite (again_maintenance gd tf now later (cameras st)) by assumption.
    cbn [snd app].
    apply (again_detection gd tf now later (cameras st)); assumption. }
  split; [exact Hlog|].
  unfold run at 1. rewrite Hlog. reflexivity.
Qed.

(** C2, as stated, fails: a raw report is never flagged, so it seeds its
    cluster again in every run.  With two reports in [cameras] and one
    raw report at the same place, the second run (same clock, nothing
    changed in between) writes two promotions and an upsert, and the
    confidence of [a] goes from 90 to 100.  A record whose id starts
    with [r_] does the same without any raw report, after a
    promotion computed from a [lastSeen] that is a string the second
    run writes [lastSeen] again, and after a first run that a log line
    ended with exit code 1 the second run goes on where the first
    stopped. *)
Lemma rerun_with_raw_report_writes :
  let reports := Some [("x", mobile_at 1000 VUndef)] in
  let st := store_of [("a", complete_mobile 60000); ("b", complete_mobile 120000)] in
  let st' := run degree_distance fixed4 t0 t1 reports st in
  let prefixed := store_of [("r_1", complete_mobile 60000);
                            ("b", complete_mobile 120000);
                            ("c", complete_mobile 180000)] in
  let texts := store_of [("a", set FlastSeen (VStr "yesterday") (complete_mobile 60000));
                         ("b", set FlastSeen (VStr "yesterday") (complete_mobile 120000));
                         ("c", set FlastSeen (VStr "yesterday") (complete_mobile 180000))] in
  length (main degree_distance fixed4 t0 t1 (cameras st') reports) = 3%nat
  /\ confidence <$> coll_lookup "a" (cameras st') = Some (vnum 90)
  /\ confidence <$> coll_lookup "a"
       (cameras (run degree_distance fixed4 t0 t1 reports st')) = Some (vnum 100)
  /\ length (main degree_distance fixed4 t0 t1
               (cameras (run degree_distance fixed4 t0 t1 None prefixed)) None) = 3%nat
  /\ main degree_distance fixed4 t0 t1
       (cameras (run degree_distance fixed4 t0 t1 None texts)) None
     = [Update "a" [(FlastSeen, vnum (t0 - 60000))];
        Update "b" [(FlastSeen, vnum (t0 - 120000))];
        Update "c" [(FlastSeen, vnum (t0 - 180000))]]
  /\ (let first := worker degree_distance fixed4 t0 t1 None (store_of [("ns", nanos)]) in
      completed first = false
      /\ issued (worker degree_distance fixed4 t0 t1 None (after first))
         = [Update "ns" [(FlastSeen, vnum (t0 * 1000000))]; mark_removed t0 "ns"]).
Proof.
  cbv zeta. repeat split; vm_compute; reflexivity.
Qed.

(** * Further properties of the job *)

(** ** The lifecycle decision of the first loop *)

Ltac distinct :=
  cbn; repeat constructor; rewrite ?list_elem_of_In; cbn; intuition discriminate.

(** The writes of an iteration are the default updates followed by the
    decision taken on the in-memory document. *)
Lemma decision_in_log (now : Z) (id : string) (d : doc) (w : write) :
  In w (decision now id (maintain now (id, d)).1) -> In w (maintain now (id, d)).2.
Proof.
  destruct d. unfold decision. unfold_defaults. cbn.
  split_ifs; intros H; cbn in *; try congruence; tauto.
Qed.

Lemma log_inv (now : Z) (id : string) (d : doc) (w : write) :
  In w (maintain now (id, d)).2 ->
  In w (decision now id (maintain now (id, d)).1)
  \/ exists f v, w = Update id [(f, v)] /\ default_field f.
Proof.
  destruct d. unfold decision, default_field. unfold_defaults. cbn.
  split_ifs; intros H; try congruence;
    repeat (destruct H as [H|H]; [subst w; right; eexists _, _; split; [reflexivity|cbn; tauto]|]);
    auto.
Qed.

Lemma maintain_mem_hotspot (now : Z) (id : string) (d : doc) :
  is_str (type_of d) "fixed_camera" = false ->
  hotspot (maintain now (id, d)).1 = hotspot d.
Proof.
  destruct d. unfold_defaults. cbn. intros Hf.
  split_ifs; try reflexivity; congruence.
Qed.

Lemma maintain_mem_count_of (now : Z) (id : string) (d : doc) :
  count_of (maintain now (id, d)).1 = count_of d.
Proof.
  unfold count_of. destruct (maintain_mem_frame now id d) as (_ & -> & _). reflexivity.
Qed.

Lemma maintain_mem_removed (now : Z) (id : string) (d : doc) :
  removed (maintain now (id, d)).1 = removed d.
Proof. destruct (maintain_mem_frame now id d) as (_ & _ & _ & _ & -> & _). reflexivity. Qed.

Ltac atoms :=
  repeat match goal with
         | |- context [if ?b then _ else _] => destruct b eqn:?; cbn [andb orb negb] in *
         end.

Ltac unfold_lifecycle :=
  unfold decision, fixed_decision, mobile_decision, hide_or_delete, expired,
    outside_window, mark_removed, extension.

Lemma decision_delete (now : Z) (id : string) (x : doc) :
  In (Delete id) (decision now id x) <->
  is_str (type_of x) "fixed_camera" = false
  /\ truthy (hotspot x) = false
  /\ (num_le (count_of x) (Fin 0) = true \/ expired now x = true)
  /\ outside_window now x = true.
Proof.
  unfold_lifecycle.
  destruct (is_str (type_of x) "fixed_camera"), (truthy (hotspot x)),
    (num_le (count_of x) (Fin 0)), (truthy (expiresAt x)),
    (num_lt (to_number (expiresAt x)) (Fin now)),
    (num_lt (num_or (to_number (timestamp x)) (Fin 0)) (Fin (hotspotWindowCutoff now)));
    cbn [andb negb]; atoms; cbn; intuition congruence.
Qed.

Lemma decision_hide (now : Z) (id : string) (x : doc) :
  In (mark_removed now id) (decision now id x) <->
  truthy (removed x) = false
  /\ ((is_str (type_of x) "fixed_camera" = true
       /\ num_le (count_of x) (Fin FIXED_REMOVE_THRESHOLD) = true)
      \/ (is_str (type_of x) "fixed_camera" = false
          /\ truthy (hotspot x) = false
          /\ (num_le (count_of x) (Fin 0) = true \/ expired now x = true)
          /\ outside_window now x = false)).
Proof.
  unfold_lifecycle.
  destruct (is_str (type_of x) "fixed_camera"), (truthy (hotspot x)),
    (truthy (removed x)), (num_le (count_of x) (Fin FIXED_REMOVE_THRESHOLD)),
    (num_le (count_of x) (Fin 0)), (truthy (expiresAt x)),
    (num_lt (to_number (expiresAt x)) (Fin now)),
    (num_lt (num_or (to_number (timestamp x)) (Fin 0)) (Fin (hotspotWindowCutoff now)));
    cbn [andb negb]; atoms; cbn; intuition congruence.
Qed.

Lemma decision_extend (now : Z) (id : string) (x : doc) :
  In (extension now id) (decision now id x) <->
  is_str (type_of x) "fixed_camera" = false
  /\ truthy (hotspot x) = true /\ expired now x = true.
Proof.
  unfold_lifecycle.
  destruct (is_str (type_of x) "fixed_camera"), (truthy (hotspot x)),
    (truthy (removed x)), (num_le (count_of x) (Fin FIXED_REMOVE_THRESHOLD)),
    (num_le (count_of x) (Fin 0)), (truthy (expiresAt x)),
    (num_lt (to_number (expiresAt x)) (Fin now)),
    (num_lt (num_or (to_number (timestamp x)) (Fin 0)) (Fin (hotspotWindowCutoff now)));
    cbn [andb negb]; atoms; cbn; intuition congruence.
Qed.

(** A write of the first loop that is not a one-field default update is
    the decision of its iteration. *)
Lemma maintain_decides (now : Z) (id : string) (d : doc) (w : write) :
  (forall f v, w <> Update id [(f, v)]) ->
  In w (maintain now (id, d)).2 <-> In w (decision now id (maintain now (id, d)).1).
Proof.
  intros Hw. split; [|apply decision_in_log].
  intros H. apply log_inv in H as [H|(f & v & -> & _)]; [exact H|].
  exfalso. eapply Hw. reflexivity.
Qed.

(** Where a write of a run comes from. *)
Lemma main_In (gd : value -> value -> value -> value -> num) (tf : num -> string)
    (now later : Z) (cams : collection) (reports : option collection) (w : write) :
  In w (main gd tf now later cams reports) <->
  (exists cam, In cam cams /\ In w (maintain now cam).2)
  \/ In w (hotspot_pass gd tf later (candidates now cams reports)).
Proof.
  rewrite main_eq, in_app_iff. unfold maintenance_pass. cbn [snd].
  rewrite in_flat_map. reflexivity.
Qed.

(** A lifecycle write for [id] in the log of a run is the decision of
    the iteration of a snapshot document with that id. *)
Lemma main_decides (gd : value -> value -> value -> value -> num) (tf : num -> string)
    (now later : Z) (cams : collection) (reports : option collection)
    (id : string) (w : write) :
  target w = Some id ->
  (forall f v, w <> Update id [(f, v)]) ->
  (forall p, w = Update id p -> String.prefix "r_" id = false -> hd_error p <> Some (Fhotspot, VBool true)) ->
  In w (main gd tf now later cams reports) <->
  exists d, In (id, d) cams /\ In w (decision now id (maintain now (id, d)).1).
Proof.
  intros Ht Hw Hp. rewrite main_In. split.
  - intros [[[i d] [Hin H]]|H].
    + pose proof (maintain_target _ _ _ H) as Hi. cbn in Hi.
      rewrite Ht in Hi. inversion Hi; subst i.
      exists d. split; [exact Hin|]. apply maintain_decides; assumption.
    + exfalso. destruct w as [i p|i|k s]; cbn in Ht; inversion Ht; subst.
      * apply hotspot_pass_update in H as (_ & nd & _ & _ & _ & _ & _ & -> & Hr).
        eapply Hp; [reflexivity|exact Hr|reflexivity].
      * eapply hotspot_pass_no_delete; eassumption.
  - intros [d [Hin H]]. left. exists (id, d). split; [exact Hin|].
    apply maintain_decides; assumption.
Qed.

(** The writes of a run in which nothing throws delete the camera
    document [id] exactly when the snapshot holds a record with that id
    that is not a fixed camera, carries no hotspot flag, has a count of
    at most 0 or has expired, and whose timestamp lies before the
    hotspot window; expiry and age are read after the defaults were
    filled in. *)
Lemma deleted_iff
    (gd : value -> value -> value -> value -> num) (tf : num -> string)
    (now later : Z) (cams : collection) (reports : option collection) (id : string) :
  In (Delete id) (main gd tf now later cams reports) <->
  exists d, In (id, d) cams
    /\ is_str (type_of d) "fixed_camera" = false
    /\ truthy (hotspot d) = false
    /\ (num_le (count_of d) (Fin 0) = true
        \/ expired now (maintain now (id, d)).1 = true)
    /\ outside_window now (maintain now (id, d)).1 = true.
Proof.
  rewrite main_decides; [|reflexivity|discriminate|intros p Hp _; inversion Hp; subst; cbn; discriminate].
  split; intros [d [Hin H]]; exists d; (split; [exact Hin|]).
  - apply decision_delete in H as (Hf & Hh & Hc & Ho).
    rewrite maintain_mem_type_of in Hf. rewrite maintain_mem_count_of in Hc.
    rewrite maintain_mem_hotspot in Hh by exact Hf. auto.
  - destruct H as (Hf & Hh & Hc & Ho). apply decision_delete.
    rewrite maintain_mem_type_of, maintain_mem_count_of, maintain_mem_hotspot by exact Hf.
    auto.
Qed.

(** The writes of a run in which nothing throws hide a record (the
    update [removed: true, removedByWorker: true, lastSeen: now])
    exactly when it is not yet removed and either is a fixed camera
    with a count of at most -3, or is a non-fixed record without
    hotspot flag, with a count of at most 0 or expired, whose timestamp
    is still inside the hotspot window. *)
Lemma hidden_iff
    (gd : value -> value -> value -> value -> num) (tf : num -> string)
    (now later : Z) (cams : collection) (reports : option collection) (id : string) :
  In (mark_removed now id) (main gd tf now later cams reports) <->
  exists d, In (id, d) cams
    /\ truthy (removed d) = false
    /\ ((is_str (type_of d) "fixed_camera" = true
         /\ num_le (count_of d) (Fin FIXED_REMOVE_THRESHOLD) = true)
        \/ (is_str (type_of d) "fixed_camera" = false
            /\ truthy (hotspot d) = false
            /\ (num_le (count_of d) (Fin 0) = true
                \/ expired now (maintain now (id, d)).1 = true)
            /\ outside_window now (maintain now (id, d)).1 = false)).
Proof.
  rewrite main_decides; [|reflexivity|discriminate|intros p Hp _; inversion Hp; subst; cbn; discriminate].
  split; intros [d [Hin H]]; exists d; (split; [exact Hin|]).
  - apply decision_hide in H as (Hr & H).
    rewrite maintain_mem_type_of, maintain_mem_count_of, maintain_mem_removed in *.
    split; [exact Hr|]. destruct H as [H|(Hf & Hh & H)]; [left; exact H|right].
    rewrite maintain_mem_hotspot in Hh by exact Hf. auto.
  - destruct H as (Hr & H). apply decision_hide.
    rewrite maintain_mem_type_of, maintain_mem_count_of, maintain_mem_removed.
    split; [exact Hr|]. destruct H as [H|(Hf & Hh & H)]; [left; exact H|right].
    rewrite maintain_mem_hotspot by exact Hf. auto.
Qed.

(** The writes of a run in which nothing throws extend the
    preservation of a record (the update [expiresAt: now + 10 days,
    lastSeen: now]) exactly when the record is not a fixed camera,
    carries the hotspot flag and has expired. *)
Lemma extended_iff
    (gd : value -> value -> value -> value -> num) (tf : num -> string)
    (now later : Z) (cams : collection) (reports : option collection) (id : string) :
  In (extension now id) (main gd tf now later cams reports) <->
  exists d, In (id, d) cams
    /\ is_str (type_of d) "fixed_camera" = false
    /\ truthy (hotspot d) = true
    /\ expired now (maintain now (id, d)).1 = true.
Proof.
  rewrite main_decides; [|reflexivity|discriminate|intros p Hp _; inversion Hp; subst; cbn; discriminate].
  split; intros [d [Hin H]]; exists d; (split; [exact Hin|]).
  - apply decision_extend in H as (Hf & Hh & He).
    rewrite maintain_mem_type_of in Hf.
    rewrite maintain_mem_hotspot in Hh by exact Hf. auto.
  - destruct H as (Hf & Hh & He). apply decision_extend.
    rewrite maintain_mem_type_of, maintain_mem_hotspot by exact Hf. auto.
Qed.

(** ** What a run leaves alone *)

Lemma get_set (f g : field) (v : value) (y : doc) :
  get f (set g v y) = if decide (f = g) then v else get f y.
Proof. destruct y, f, g; reflexivity. Qed.

(** A patch changes only the fields it names. *)
Lemma apply_patch_frame (f : field) (p : patch) (y : doc) :
  ~ In f (List.map fst p) -> get f (apply_patch p y) = get f y.
Proof.
  unfold apply_patch. revert y.
  induction p as [|[g v] p IH]; intros y H; [reflexivity|].
  cbn [fold_left fst snd]. rewrite IH by (intros Hin; apply H; right; exact Hin).
  rewrite get_set. destruct (decide (f = g)) as [->|]; [|reflexivity].
  exfalso. apply H. left. reflexivity.
Qed.

(** A property of the stored document that every update of the log
    preserves holds of whatever the log leaves of it. *)
Lemma replay_preserves (I : doc -> Prop) (log : list write) (id : string) (x x' : doc) :
  I x ->
  (forall p, In (Update id p) log -> forall y, I y -> I (apply_patch p y)) ->
  replay log id (Some x) = Some x' -> I x'.
Proof.
  revert x. induction log as [|w log IH]; intros x Hx Hu; [cbn; congruence|].
  rewrite replay_cons.
  destruct w as [i p|i|k s]; cbn [replay_write].
  - destruct (String.eqb i id) eqn:E.
    + apply String.eqb_eq in E. subst i. cbn. apply IH.
      * apply Hu; [left; reflexivity|exact Hx].
      * intros q Hq. apply Hu. right. exact Hq.
    + apply IH; [exact Hx|]. intros q Hq. apply Hu. right. exact Hq.
  - destruct (String.eqb i id) eqn:E.
    + rewrite replay_None. discriminate.
    + apply IH; [exact Hx|]. intros q Hq. apply Hu. right. exact Hq.
  - apply IH; [exact Hx|]. intros q Hq. apply Hu. right. exact Hq.
Qed.

(** The fields a run writes. *)
Lemma decision_update_fields (now : Z) (id i : string) (x : doc) (p : patch) (f : field) :
  In (Update i p) (decision now id x) -> In f (List.map fst p) ->
  In f [Fremoved; FremovedByWorker; FexpiresAt; FlastSeen].
Proof.
  unfold_lifecycle. atoms; cbn; intros H; repeat (destruct H as [H|H]); try contradiction;
    try discriminate; inversion H; subst; cbn; tauto.
Qed.

Lemma main_update_fields
    (gd : value -> value -> value -> value -> num) (tf : num -> string)
    (now later : Z) (cams : collection) (reports : option collection)
    (i : string) (p : patch) (f : field) :
  In (Update i p) (main gd tf now later cams reports) -> In f (List.map fst p) ->
  In f [Ftimestamp; Fconfidence; Fhotspot; Fremoved; FremovedByWorker;
        FexpiresAt; FlastSeen].
Proof.
  rewrite main_In. intros [[[id d] [_ H]]|H] Hf.
  - apply log_inv in H as [H|(g & v & Heq & Hg)].
    + pose proof (decision_update_fields _ _ _ _ _ _ H Hf) as Hd. cbn in Hd |- *. tauto.
    + inversion Heq; subst. cbn in Hf. destruct Hf as [<-|[]].
      unfold default_field in Hg. cbn in Hg |- *. tauto.
  - apply hotspot_pass_update in H as (_ & nd & _ & _ & _ & _ & _ & -> & _).
    cbn in Hf |- *. tauto.
Qed.

(** X4: a run never writes the type, the count or the coordinates of a
    camera document: every update names only [timestamp], [confidence],
    [hotspot], [removed], [removedByWorker], [expiresAt] or [lastSeen],
    and a document that is still stored after the run has its [type],
    [count], [lat] and [lon] as before. *)
Theorem run_frame
    (gd : value -> value -> value -> value -> num) (tf : num -> string)
    (now later : Z) (reports : option collection) (st : store) :
  (forall i p f, In (Update i p) (main gd tf now later (cameras st) reports) ->
     In f (List.map fst p) ->
     In f [Ftimestamp; Fconfidence; Fhotspot; Fremoved; FremovedByWorker;
           FexpiresAt; FlastSeen])
  /\ (NoDup (List.map fst (cameras st)) ->
      forall id d d', In (id, d) (cameras st) ->
        coll_lookup id (cameras (run gd tf now later reports st)) = Some d' ->
        type d' = type d /\ count d' = count d /\ lat d' = lat d /\ lon d' = lon d).
Proof.
  split; [intros i p f; apply main_update_fields|].
  intros Hnd id d d' Hin Hl. unfold run in Hl.
  rewrite coll_lookup_apply_writes, (coll_lookup_In id d) in Hl by assumption.
  revert Hl.
  apply (replay_preserves
           (fun y => type y = type d /\ count y = count d /\ lat y = lat d /\ lon y = lon d));
    [auto|].
  intros p Hp y (Ht & Hc & Hla & Hlo).
  assert (Hfr : forall f, In f [Ftype; Fcount; Flat; Flon] ->
                          get f (apply_patch p y) = get f y).
  { intros f Hf. apply apply_patch_frame. intros Hfp.
    pose proof (main_update_fields _ _ _ _ _ _ _ _ _ Hp Hfp) as Hw.
    cbn in Hf, Hw. intuition congruence. }
  pose proof (Hfr Ftype) as H1. pose proof (Hfr Fcount) as H2.
  pose proof (Hfr Flat) as H3. pose proof (Hfr Flon) as H4.
  cbn in H1, H2, H3, H4.
  rewrite H1, H2, H3, H4 by tauto. auto.
Qed.

Lemma run_frame_witness :
  let st := store_of three_reports in
  exists d', coll_lookup "b" (cameras (run degree_distance fixed4 t0 t1 None st)) = Some d'
    /\ type d' = VStr "mobile_camera" /\ count d' = vnum 1
    /\ lat d' = vnum 48 /\ lon d' = vnum 11.
Proof.
  cbv zeta.
  destruct (coll_lookup "b"
              (cameras (run degree_distance fixed4 t0 t1 None (store_of three_reports))))
    as [d'|] eqn:E; [|vm_compute in E; discriminate E].
  exists d'. split; [reflexivity|].
  refine (proj2 (run_frame degree_distance fixed4 t0 t1 None (store_of three_reports))
            _ "b" (complete_mobile 120000) d' _ E).
  - distinct.
  - right. left. reflexivity.
Defined.

(** The stored document after a run, from its in-memory copy: the
    decision of its iteration, then the detection pass. *)
Lemma run_lookup_mem
    (gd : value -> value -> value -> value -> num) (tf : num -> string)
    (now later : Z) (reports : option collection) (st : store) (id : string) (d : doc) :
  NoDup (List.map fst (cameras st)) -> In (id, d) (cameras st) ->
  coll_lookup id (cameras (run gd tf now later reports st))
  = replay (decision now id (maintain now (id, d)).1
            ++ hotspot_pass gd tf later (candidates now (cameras st) reports)) id
      (Some (maintain now (id, d)).1).
Proof.
  intros Hnd Hin. rewrite (run_lookup gd tf now later reports st id d) by assumption.
  rewrite replay_app, maintain_mirror. reflexivity.
Qed.

(** After the defaults, nothing in a run writes [timestamp] or [confidence]
    except a promotion, which writes [confidence]. *)
Lemma run_timestamp
    (gd : value -> value -> value -> value -> num) (tf : num -> string)
    (now later : Z) (reports : option collection) (st : store)
    (id : string) (d d' : doc) :
  NoDup (List.map fst (cameras st)) -> In (id, d) (cameras st) ->
  coll_lookup id (cameras (run gd tf now later reports st)) = Some d' ->
  timestamp d' = timestamp (maintain now (id, d)).1.
Proof.
  intros Hnd Hin. rewrite (run_lookup_mem gd tf now later reports st id d) by assumption.
  apply (replay_preserves (fun y => timestamp y = timestamp (maintain now (id, d)).1));
    [reflexivity|].
  intros p Hp y Hy. rewrite <- Hy.
  change (get Ftimestamp (apply_patch p y) = get Ftimestamp y).
  apply apply_patch_frame. intros Hf.
  apply in_app_iff in Hp as [Hp|Hp].
  - pose proof (decision_update_fields _ _ _ _ _ _ Hp Hf) as H. cbn in H.
    intuition discriminate.
  - apply hotspot_pass_update in Hp as (_ & nd & _ & _ & _ & _ & _ & -> & _).
    cbn in Hf. intuition discriminate.
Qed.

Lemma stamp_written (now : Z) (id : string) (d : doc) :
  truthy (timestamp d) = false ->
  In (Update id [(Ftimestamp, vnum now)]) (maintain now (id, d)).2
  /\ timestamp (maintain now (id, d)).1 = vnum now.
Proof.
  intros Ht. destruct d. unfold_defaults. cbn in *. rewrite Ht. cbn.
  split_ifs; cbn; auto.
Qed.

Lemma now_inside_window (now : Z) :
  outside_window now (set Ftimestamp (vnum now) blank) = false.
Proof.
  unfold outside_window, hotspotWindowCutoff, num_or, num_truthy, to_number, vnum. cbn.
  destruct (Z.eqb_spec now 0); cbn; unfold num_lt, HOTSPOT_WINDOW_DAYS, MS_DAY;
    apply Z.ltb_ge; lia.
Qed.

(** No deletion of a snapshot document without the conditions on its
    own record. *)
Lemma main_delete_inv
    (gd : value -> value -> value -> value -> num) (tf : num -> string)
    (now later : Z) (cams : collection) (reports : option collection)
    (id : string) (d : doc) :
  NoDup (List.map fst cams) -> In (id, d) cams ->
  In (Delete id) (main gd tf now later cams reports) ->
  In (Delete id) (decision now id (maintain now (id, d)).1).
Proof.
  intros Hnd Hin H.
  rewrite main_decides in H; [|reflexivity|discriminate|intros p Hp; discriminate Hp].
  destruct H as [d0 [Hin0 H]].
  assert (d0 = d) as -> by (eapply NoDup_fst_eq; eassumption).
  exact H.
Qed.

(** A document of the snapshot that the run does not delete is still
    stored afterwards. *)
Lemma run_keeps
    (gd : value -> value -> value -> value -> num) (tf : num -> string)
    (now later : Z) (reports : option collection) (st : store) (id : string) (d : doc) :
  NoDup (List.map fst (cameras st)) -> In (id, d) (cameras st) ->
  ~ In (Delete id) (main gd tf now later (cameras st) reports) ->
  exists d', coll_lookup id (cameras (run gd tf now later reports st)) = Some d'.
Proof.
  intros Hnd Hin Hdel. unfold run.
  rewrite coll_lookup_apply_writes, (coll_lookup_In id d) by assumption.
  destruct (replay_invariant (fun _ => True) (main gd tf now later (cameras st) reports) id d)
    as [d' [Hd' _]]; [exact I|exact Hdel|auto|].
  exists d'. exact Hd'.
Qed.

(** When nothing throws, a record that arrives without a (truthy)
    timestamp is stamped with the clock of the run and is not deleted
    by that run, whatever its count or expiry: its timestamp is then
    inside the hotspot window. *)
Lemma stamped_not_deleted
    (gd : value -> value -> value -> value -> num) (tf : num -> string)
    (now later : Z) (reports : option collection) (st : store) (id : string) (d : doc) :
  NoDup (List.map fst (cameras st)) ->
  In (id, d) (cameras st) ->
  truthy (timestamp d) = false ->
  In (Update id [(Ftimestamp, vnum now)]) (main gd tf now later (cameras st) reports)
  /\ ~ In (Delete id) (main gd tf now later (cameras st) reports)
  /\ exists d', coll_lookup id (cameras (run gd tf now later reports st)) = Some d'
                /\ timestamp d' = vnum now.
Proof.
  intros Hnd Hin Ht. destruct (stamp_written now id d Ht) as [Hw Hm].
  assert (Hdel : ~ In (Delete id) (main gd tf now later (cameras st) reports)).
  { intros H. apply main_delete_inv with (d := d) in H; [|assumption..].
    apply decision_delete in H as (_ & _ & _ & Ho).
    pose proof (now_inside_window now) as Hi.
    unfold outside_window in Ho, Hi. rewrite Hm in Ho. cbn in Hi. congruence. }
  split; [|split; [exact Hdel|]].
  - apply main_In. left. exists (id, d). auto.
  - destruct (run_keeps gd tf now later reports st id d Hnd Hin Hdel) as [d' Hd'].
    exists d'. split; [exact Hd'|].
    rewrite <- Hm. eapply run_timestamp; eassumption.
Qed.

(** X6: the first loop writes nothing for a record that needs nothing:
    all defaults present and, for a fixed camera, a count above -3 or
    the removed flag; for another record, no expiry and a positive
    count or the hotspot flag.  Its in-memory copy is the record
    itself. *)
Theorem live_untouched (now : Z) (id : string) (d : doc) :
  truthy (timestamp d) = true ->
  nullish (confidence d) = false ->
  (is_str (type_of d) "fixed_camera" = true
   /\ truthy (hotspot d) = true
   /\ (num_le (count_of d) (Fin FIXED_REMOVE_THRESHOLD) = false
       \/ truthy (removed d) = true))
  \/ (is_str (type_of d) "fixed_camera" = false
      /\ truthy (expiresAt d) = true /\ truthy (lastSeen d) = true
      /\ (num_le (count_of d) (Fin 0) = false \/ truthy (hotspot d) = true)
      /\ expired now d = false) ->
  maintain now (id, d) = (d, []).
Proof.
  intros Ht Hc H.
  rewrite maintain_of_normal.
  - f_equal. revert H. unfold_lifecycle.
    intros [(Hf & Hh & H)|(Hf & He & Hl & H & Hx)]; rewrite Hf.
    + destruct H as [H|H]; rewrite H; rewrite ?andb_false_r; reflexivity.
    + rewrite He in Hx. cbn [andb] in Hx. rewrite He, Hx. cbn [andb].
      destruct H as [H|H]; rewrite H; rewrite ?andb_false_r; reflexivity.
  - unfold normal. rewrite Ht, Hc. cbn [andb negb].
    destruct H as [(Hf & Hh & _)|(Hf & He & Hl & _)]; rewrite Hf.
    + exact Hh.
    + rewrite He, Hl. reflexivity.
Qed.

Lemma live_untouched_witness :
  maintain t0 ("a", complete_mobile 60000) = (complete_mobile 60000, []).
Proof.
  apply (live_untouched t0 "a" (complete_mobile 60000)); [reflexivity..|].
  right. repeat split; try reflexivity. left. reflexivity.
Defined.

(** ** Updates that find their document *)

Lemma accepted_app (l1 l2 : list write) (st : store) :
  accepted (l1 ++ l2) st = accepted l1 st && accepted l2 (apply_writes l1 st).
Proof.
  revert st. induction l1 as [|w l1 IH]; intros st; [reflexivity|].
  cbn [app accepted]. rewrite IH, andb_assoc. reflexivity.
Qed.

Lemma lookup_apply_write (id : string) (st : store) (w : write) :
  coll_lookup id (cameras (apply_write st w))
  = replay_write id (coll_lookup id (cameras st)) w.
Proof.
  destruct w as [i p|i|k s]; cbn -[replay_write].
  - apply coll_lookup_update.
  - apply coll_lookup_delete.
  - reflexivity.
Qed.

(** A log without deletions is accepted as soon as the documents it
    updates exist at the start. *)
Lemma accepted_updates (log : list write) (st : store) :
  (forall id, ~ In (Delete id) log) ->
  (forall id p, In (Update id p) log -> is_Some (coll_lookup id (cameras st))) ->
  accepted log st = true.
Proof.
  revert st. induction log as [|w log IH]; intros st Hd Hu; [reflexivity|].
  cbn [accepted]. apply andb_true_iff. split.
  - destruct w as [i p|i|k s]; try reflexivity.
    destruct (Hu i p) as [y ->]; [left; reflexivity|reflexivity].
  - apply IH.
    + intros id H. apply (Hd id). right. exact H.
    + intros id p H. rewrite lookup_apply_write.
      destruct (Hu id p) as [y Hy]; [right; exact H|]. rewrite Hy.
      destruct w as [i q|i|k s]; cbn [replay_write].
      * destruct (String.eqb i id); cbn; eauto.
      * exfalso. apply (Hd i). left. reflexivity.
      * eauto.
Qed.

(** A log addressed to one existing document, with a deletion at most
    at its end, is accepted. *)
Lemma accepted_own (log : list write) (id : string) (st : store) :
  delete_last log = true ->
  (forall w, In w log -> target w = Some id) ->
  is_Some (coll_lookup id (cameras st)) ->
  accepted log st = true.
Proof.
  revert st. induction log as [|w log IH]; intros st Hl Ht Hs; [reflexivity|].
  assert (Hw : target w = Some id) by (apply Ht; left; reflexivity).
  cbn [accepted]. apply andb_true_iff. split.
  - destruct w as [i p|i|k s]; try reflexivity.
    cbn in Hw. inversion Hw; subst i. destruct Hs as [y ->]. reflexivity.
  - destruct log as [|w' log]; [reflexivity|].
    apply IH.
    + destruct w as [i p|i|k s]; [exact Hl|discriminate Hl|exact Hl].
    + intros x Hx. apply Ht. right. exact Hx.
    + rewrite lookup_apply_write. destruct Hs as [y ->].
      destruct w as [i p|i|k s]; cbn [replay_write].
      * destruct (String.eqb i id); cbn; eauto.
      * discriminate Hl.
      * eauto.
Qed.

(** A deletion ends the iteration that issues it. *)
Lemma maintain_delete_last (now : Z) (cam : string * doc) :
  delete_last (maintain now cam).2 = true.
Proof.
  destruct cam as [id d]. destruct d. unfold_maintain. cbn -[delete_last].
  repeat (rewrite ?String.eqb_refl in *;
          match goal with
          | |- context [if ?b then _ else _] => destruct b eqn:?
          end; cbn -[delete_last] in * ).
  all: reflexivity.
Qed.

Lemma accepted_maintenance (now : Z) (cams : collection) (st : store) :
  NoDup (List.map fst cams) ->
  (forall e, In e cams -> is_Some (coll_lookup e.1 (cameras st))) ->
  accepted (maintenance_pass now cams).2 st = true.
Proof.
  unfold maintenance_pass. cbn [snd]. revert st.
  induction cams as [|[id d] cams IH]; intros st Hnd Hs; [reflexivity|].
  cbn [flat_map List.map fst] in *. apply NoDup_cons in Hnd as [Hid Hnd].
  rewrite list_elem_of_In in Hid.
  rewrite accepted_app. apply andb_true_iff. split.
  - apply (accepted_own _ id).
    + apply maintain_delete_last.
    + intros w Hw. apply maintain_target in Hw. exact Hw.
    + apply (Hs (id, d)). left. reflexivity.
  - apply IH; [exact Hnd|]. intros [j e] Hje. cbn [fst].
    rewrite coll_lookup_apply_writes, replay_other.
    + apply (Hs (j, e)). right. exact Hje.
    + intros w Hw Ht. apply maintain_target in Hw. cbn [fst] in Hw.
      rewrite Hw in Ht. inversion Ht; subst j. apply Hid. eapply In_fst; eassumption.
Qed.

(** X7: in a run over a snapshot with distinct ids every update finds
    its document: the first loop ends an iteration with its deletion,
    and the detection loop promotes no document that the first loop
    deleted.  So no update of the run is rejected for a missing
    document. *)
Theorem main_accepted
    (gd : value -> value -> value -> value -> num) (tf : num -> string)
    (now later : Z) (reports : option collection) (st : store) :
  NoDup (List.map fst (cameras st)) ->
  accepted (main gd tf now later (cameras st) reports) st = true.
Proof.
  intros Hnd. rewrite main_eq, accepted_app. apply andb_true_iff. split.
  - apply accepted_maintenance; [exact Hnd|].
    intros [id d] Hin. cbn [fst]. rewrite (coll_lookup_In id d) by assumption. eauto.
  - apply accepted_updates.
    + intros id. apply hotspot_pass_no_delete.
    + intros id p Hp.
      pose proof Hp as Hq.
      apply hotspot_pass_update in Hq as (base & nd & _ & _ & _ & _ & Hn & _ & Hr).
      apply nearby_In in Hn as (Hc & _).
      apply candidates_In in Hc as (d & Hin & _ & _); [|exact Hr].
      apply (candidates_update gd tf now later (cameras st) reports id d p Hnd Hin)
        in Hp as (_ & Hrec & _).
      rewrite coll_lookup_apply_writes, (coll_lookup_In id d) by assumption.
      rewrite (replay_maintenance_pass now _ id d) by assumption.
      destruct (replay_invariant (fun _ => True) (maintain now (id, d)).2 id d)
        as [y [Hy _]]; [exact I| |auto|eauto].
      intros Hdel. apply deleted_not_recent in Hdel. congruence.
Qed.

Lemma main_accepted_witness :
  let st := store_of [("old", mobile_at (11 * MS_DAY) (vnum 0));
                      ("a", mobile_at 60000 (vnum 0)); ("b", mobile_at 120000 (vnum 0));
                      ("c", mobile_at 180000 (vnum 0))] in
  accepted (main degree_distance fixed4 t0 t1 (cameras st) None) st = true.
Proof.
  cbv zeta.
  refine (main_accepted degree_distance fixed4 t0 t1 None
            (store_of [("old", mobile_at (11 * MS_DAY) (vnum 0));
                       ("a", mobile_at 60000 (vnum 0)); ("b", mobile_at 120000 (vnum 0));
                       ("c", mobile_at 180000 (vnum 0))]) _).
  distinct.
Defined.

(** ** The detection loop *)

Lemma filter_length_le {A : Type} (f g : A -> bool) (l : list A) :
  (forall x, In x l -> f x = true -> g x = true) ->
  (length (List.filter f l) <= length (List.filter g l))%nat.
Proof.
  induction l as [|a l IH]; intros H; [apply Nat.le_refl|].
  assert (IH' : (length (List.filter f l) <= length (List.filter g l))%nat)
    by (apply IH; intros x Hx; apply H; right; exact Hx).
  cbn [List.filter]. destruct (f a) eqn:Ef.
  - rewrite (H a) by (auto; left; reflexivity). cbn [length]. apply le_n_S. exact IH'.
  - destruct (g a); cbn [length]; [apply Nat.le_le_succ_r|]; exact IH'.
Qed.

Lemma nearby_length (gd : value -> value -> value -> value -> num) (b : doc)
    (docs : collection) :
  (length (nearby gd b docs) <= length (List.filter (fun e => located e.2) docs))%nat.
Proof.
  unfold nearby. apply filter_length_le. intros x _.
  destruct (located x.2); cbn [negb]; [reflexivity|discriminate].
Qed.

(** X9: with fewer than [HOTSPOT_THRESHOLD] candidates that carry
    truthy coordinates and a truthy timestamp, the detection loop
    writes nothing: no promotion and no summary. *)
Theorem quiet_below_threshold
    (gd : value -> value -> value -> value -> num) (tf : num -> string)
    (later : Z) (docs : collection) :
  (length (List.filter (fun e => located e.2) docs) < HOTSPOT_THRESHOLD)%nat ->
  hotspot_pass gd tf later docs = [].
Proof.
  intros Hlt. unfold hotspot_pass. apply flat_map_nil. intros base _.
  unfold cluster.
  destruct (negb (located base.2)); [reflexivity|].
  destruct (truthy (hotspot base.2)); [reflexivity|].
  pose proof (nearby_length gd base.2 docs) as Hle.
  destruct (Nat.leb_spec HOTSPOT_THRESHOLD (length (nearby gd base.2 docs))) as [H|H];
    [|reflexivity].
  exfalso. apply (Nat.lt_irrefl HOTSPOT_THRESHOLD).
  eapply Nat.le_lt_trans; [exact H|]. eapply Nat.le_lt_trans; [exact Hle|exact Hlt].
Qed.

Lemma quiet_below_threshold_witness :
  hotspot_pass degree_distance fixed4 t1
    [("a", complete_mobile 60000); ("b", complete_mobile 120000); ("e", equator 11)] = [].
Proof.
  refine (quiet_below_threshold degree_distance fixed4 t1
            [("a", complete_mobile 60000); ("b", complete_mobile 120000); ("e", equator 11)] _).
  apply Nat.ltb_lt. reflexivity.
Defined.

(** X10: every update or deletion of a run addresses a document of the
    snapshot of [cameras], and the detection loop updates no id that
    starts with [r_]: raw reports are read, never written. *)
Theorem writes_address_snapshot
    (gd : value -> value -> value -> value -> num) (tf : num -> string)
    (now later : Z) (cams : collection) (reports : option collection) :
  (forall w id, In w (main gd tf now later cams reports) -> target w = Some id ->
     In id (List.map fst cams))
  /\ (forall id p,
        In (Update id p) (hotspot_pass gd tf later (candidates now cams reports)) ->
        String.prefix "r_" id = false).
Proof.
  split.
  - intros w id Hw Ht. apply main_In in Hw as [[[i d] [Hin Hw]]|Hw].
    + apply maintain_target in Hw. cbn [fst] in Hw. rewrite Ht in Hw.
      inversion Hw; subst. eapply In_fst; exact Hin.
    + destruct w as [i p|i|k s]; cbn in Ht; inversion Ht; subst.
      * apply hotspot_pass_update in Hw as (base & nd & _ & _ & _ & _ & Hn & _ & Hr).
        apply nearby_In in Hn as (Hc & _).
        apply candidates_In in Hc as (d & Hin & _); [|exact Hr].
        eapply In_fst; exact Hin.
      * exfalso. eapply hotspot_pass_no_delete; eassumption.
  - intros id p Hp.
    apply hotspot_pass_update in Hp as (base & nd & _ & _ & _ & _ & _ & _ & Hr).
    exact Hr.
Qed.

Lemma writes_address_snapshot_witness :
  In "b" (List.map fst three_reports).
Proof.
  refine (proj1 (writes_address_snapshot degree_distance fixed4 t0 t1 three_reports None)
            (Update "b" (promotion t1 (complete_mobile 120000))) "b" _ eq_refl).
  vm_compute. right. left. reflexivity.
Defined.

Lemma Qmin_saturates (n : nat) :
  (HOTSPOT_THRESHOLD <= n)%nat ->
  Qred (Qmin 1 (Z.of_nat n # Pos.of_nat HOTSPOT_THRESHOLD)) = 1%Q.
Proof.
  intros H. unfold HOTSPOT_THRESHOLD in *.
  assert (Hc : (1 ?= Z.of_nat n # Pos.of_nat 3)%Q <> Gt).
  { unfold Qcompare. cbn. rewrite Z.compare_gt_iff. lia. }
  unfold Qmin, GenericMinMax.gmin.
  destruct (1 ?= Z.of_nat n # Pos.of_nat 3)%Q; try reflexivity. congruence.
Qed.

(** X11: a summary is upserted only for a seed of the candidate list
    with truthy coordinates and timestamp and no hotspot flag, under
    the key built from the seed's coordinates; its [report_count] is at
    least [HOTSPOT_THRESHOLD] and at most the number of candidates, and
    its [confidence] is therefore always exactly 1. *)
Theorem summary_content
    (gd : value -> value -> value -> value -> num) (tf : num -> string)
    (later : Z) (docs : collection) (k : string) (s : summary) :
  In (SetMerge k s) (hotspot_pass gd tf later docs) ->
  (exists base, In base docs /\ located base.2 = true /\ truthy (hotspot base.2) = false
     /\ k = hotspotId tf base.2
     /\ hs_lat s = to_number (lat base.2) /\ hs_lon s = to_number (lon base.2)
     /\ report_count s = length (nearby gd base.2 docs))
  /\ (HOTSPOT_THRESHOLD <= report_count s <= length docs)%nat
  /\ hs_confidence s = 1%Q
  /\ hs_type s = "mobile_camera"
  /\ updatedAt s = later.
Proof.
  unfold hotspot_pass. intros H. apply in_flat_map in H as [base [Hb H]].
  apply cluster_In in H as (Hl & Hh & Hn & [[n [_ H]]|H]).
  { apply promote_target in H as [H _]. discriminate. }
  inversion H; subst k s. cbn [hs_lat hs_lon report_count hs_confidence hs_type updatedAt hotspotDoc].
  split; [exists base; auto 10|].
  split; [split; [exact Hn|]|].
  - unfold nearby. apply List.filter_length_le.
  - split; [apply Qmin_saturates; exact Hn|]. auto.
Qed.

Lemma summary_content_witness :
  let docs := candidates t0 three_reports None in
  let s := hotspotDoc t1 (complete_mobile 60000) docs in
  report_count s = 3%nat /\ hs_confidence s = 1%Q.
Proof.
  cbv zeta.
  destruct (summary_content degree_distance fixed4 t1 (candidates t0 three_reports None)
              (hotspotId fixed4 (complete_mobile 60000))
              (hotspotDoc t1 (complete_mobile 60000) (candidates t0 three_reports None)))
    as (_ & _ & Hc & _).
  - vm_compute. do 3 right. left. reflexivity.
  - split; [reflexivity|exact Hc].
Defined.

(** [Math.max(...l)] on numbers none of which is NaN. *)
Lemma num_le_trans (a b c : num) :
  num_le a b = true -> num_le b c = true -> num_le a c = true.
Proof.
  unfold num_le. destruct a, b, c; try discriminate; try reflexivity.
  rewrite !Z.leb_le. lia.
Qed.

Lemma num_max_spec (a x : num) :
  a <> NaN -> x <> NaN ->
  num_max a x <> NaN /\ num_le a (num_max a x) = true /\ num_le x (num_max a x) = true
  /\ (num_max a x = a \/ num_max a x = x).
Proof.
  unfold num_max, num_le. destruct a as [| | |u], x as [| | |v]; try congruence; intros _ _;
    repeat match goal with |- context [Z.leb ?a ?b] => destruct (Z.leb_spec a b) end;
    repeat split; try discriminate; auto; exfalso; lia.
Qed.

Lemma fold_max_spec (l : list num) (a : num) :
  a <> NaN -> (forall x, In x l -> x <> NaN) ->
  let r := fold_left num_max l a in
  r <> NaN /\ num_le a r = true /\ (forall x, In x l -> num_le x r = true)
  /\ (r = a \/ In r l).
Proof.
  revert a. induction l as [|x l IH]; intros a Ha Hl; cbn [fold_left].
  - repeat split; auto. unfold num_le. destruct a; try reflexivity; [congruence|apply Z.leb_refl].
  - destruct (num_max_spec a x Ha) as (Hn & H1 & H2 & H3); [apply Hl; left; reflexivity|].
    destruct (IH (num_max a x) Hn) as (Hr & G1 & G2 & G3);
      [intros y Hy; apply Hl; right; exact Hy|].
    split; [exact Hr|]. split; [eapply num_le_trans; eassumption|]. split.
    + intros y [<-|Hy]; [eapply num_le_trans; eassumption|apply G2; exact Hy].
    + destruct G3 as [G3|G3]; [|right; right; exact G3].
      rewrite G3. destruct H3 as [->| ->]; [left; reflexivity|right; left; reflexivity].
Qed.

Lemma candidates_recent (now : Z) (cams : collection) (reports : option collection)
    (n : string * doc) :
  In n (candidates now cams reports) ->
  recent_mobile (hotspotWindowCutoff now) n = true.
Proof.
  unfold candidates, mobileDocs. rewrite in_app_iff, !filter_In. intros [[_ H]|[_ H]]; exact H.
Qed.

Lemma recent_timestamp (cutoff : Z) (n : string * doc) :
  recent_mobile cutoff n = true ->
  to_number (JS.or (timestamp n.2) (vnum 0)) = to_number (timestamp n.2)
  /\ num_le (Fin cutoff) (to_number (timestamp n.2)) = true.
Proof.
  unfold recent_mobile. intros H.
  apply andb_true_iff in H as [_ H]. apply andb_true_iff in H as [Ht Hc].
  unfold JS.or. rewrite Ht. auto.
Qed.

(** X12: the [lastReported] of a summary written by a run is the
    largest timestamp of the seed's neighbourhood: it is the timestamp
    of one neighbour, no neighbour has a later one, and it lies inside
    the hotspot window (so it is never NaN). *)
Theorem last_reported_is_latest
    (gd : value -> value -> value -> value -> num) (tf : num -> string)
    (now later : Z) (cams : collection) (reports : option collection)
    (k : string) (s : summary) :
  In (SetMerge k s) (hotspot_pass gd tf later (candidates now cams reports)) ->
  num_le (Fin (hotspotWindowCutoff now)) (lastReported s) = true
  /\ exists base,
       In base (candidates now cams reports) /\ k = hotspotId tf base.2
       /\ (forall n, In n (nearby gd base.2 (candidates now cams reports)) ->
             num_le (to_number (timestamp n.2)) (lastReported s) = true)
       /\ (exists n, In n (nearby gd base.2 (candidates now cams reports))
                     /\ lastReported s = to_number (timestamp n.2)).
Proof.
  unfold hotspot_pass. intros H. apply in_flat_map in H as [base [Hb H]].
  apply cluster_In in H as (_ & _ & Hn & [[n [_ H]]|H]).
  { apply promote_target in H as [H _]. discriminate. }
  inversion H; subst k s. cbn [lastReported hotspotDoc]. unfold max_list.
  set (near := nearby gd base.2 (candidates now cams reports)) in *.
  set (g := fun n : string * doc => to_number (JS.or (timestamp n.2) (vnum 0))).
  assert (Hg : forall n, In n near ->
            g n = to_number (timestamp n.2)
            /\ num_le (Fin (hotspotWindowCutoff now)) (to_number (timestamp n.2)) = true).
  { intros n Hin. apply nearby_In in Hin as (Hc & _).
    apply recent_timestamp, candidates_recent with (cams := cams) (reports := reports).
    exact Hc. }
  destruct (fold_max_spec (List.map g near) NegInf) as (Hr & _ & Hmax & Hmem);
    [discriminate| |].
  { intros x Hx. apply in_map_iff in Hx as [n [<- Hin]].
    destruct (Hg n Hin) as [-> Hc]. intros E. rewrite E in Hc. discriminate. }
  destruct near as [|n0 near'] eqn:En; [cbn in Hn; unfold HOTSPOT_THRESHOLD in Hn; lia|].
  rewrite <- En in *.
  assert (Hin0 : In n0 near) by (rewrite En; left; reflexivity).
  destruct (Hg n0 Hin0) as [Hg0 Hc0].
  assert (H0 : num_le (g n0) (fold_left num_max (List.map g near) NegInf) = true)
    by (apply Hmax, in_map; exact Hin0).
  split; [|exists base; split; [exact Hb|]; split; [reflexivity|]; split].
  - eapply num_le_trans; [exact Hc0|]. rewrite <- Hg0. exact H0.
  - intros n Hin. destruct (Hg n Hin) as [<- _]. apply Hmax, in_map. exact Hin.
  - destruct Hmem as [E|Hin].
    + rewrite E in H0. rewrite Hg0 in H0.
      destruct (to_number (timestamp n0.2)); discriminate.
    + apply in_map_iff in Hin as [n [E Hin]]. exists n. split; [exact Hin|].
      rewrite <- E. apply Hg. exact Hin.
Qed.

Lemma last_reported_is_latest_witness :
  let docs := candidates t0 three_reports None in
  num_le (Fin (hotspotWindowCutoff t0))
    (lastReported (hotspotDoc t1 (complete_mobile 60000) docs)) = true.
Proof.
  cbv zeta.
  refine (proj1 (last_reported_is_latest degree_distance fixed4 t0 t1 three_reports None
                   (hotspotId fixed4 (complete_mobile 60000))
                   (hotspotDoc t1 (complete_mobile 60000) (candidates t0 three_reports None))
                   _)).
  vm_compute. do 3 right. left. reflexivity.
Defined.

(** X13: on numeric fields a promotion raises the confidence by 20 up
    to the cap of 100, reading a stored 0 as the default 70, sets the
    expiry [PRESERVE_HOTSPOT_DAYS] after the clock of the detection
    loop, and sets [lastSeen] to the later of the stored [lastSeen] and
    the timestamp. *)
Theorem promotion_numeric (later : Z) (nd : doc) (c l t : Z) :
  confidence nd = vnum c -> lastSeen nd = vnum l -> timestamp nd = vnum t ->
  promotion later nd
  = [(Fhotspot, VBool true);
     (Fconfidence, vnum (Z.min 100 ((if c =? 0 then 70 else c) + 20)));
     (FexpiresAt, vnum (later + PRESERVE_HOTSPOT_DAYS * MS_DAY));
     (FlastSeen, vnum (Z.max l t))].
Proof.
  intros Hc Hl Ht. unfold promotion. rewrite Hc, Hl, Ht.
  unfold JS.or, truthy, vnum, num_truthy, JS.plus, to_number, num_add, num_min, num_max,
    num_le.
  repeat f_equal.
  - destruct (Z.eqb_spec c 0); cbn.
    + reflexivity.
    + destruct (Z.leb_spec 100 (c + 20)); f_equal; lia.
  - destruct (Z.eqb_spec l 0), (Z.eqb_spec t 0); subst; cbn;
      repeat match goal with |- context [Z.leb ?a ?b] => destruct (Z.leb_spec a b) end;
      f_equal; lia.
Qed.

Lemma promotion_numeric_witness :
  promotion t1 (set Fconfidence (vnum 0) (complete_mobile 60000))
  = [(Fhotspot, VBool true); (Fconfidence, vnum 90);
     (FexpiresAt, vnum (t1 + PRESERVE_HOTSPOT_DAYS * MS_DAY));
     (FlastSeen, vnum (t0 - 60000))].
Proof.
  exact (promotion_numeric t1 (set Fconfidence (vnum 0) (complete_mobile 60000))
           0 (t0 - 60000) (t0 - 60000) eq_refl eq_refl eq_refl).
Defined.

Lemma decision_hide_only (now : Z) (id : string) (x : doc) :
  In (mark_removed now id) (decision now id x) -> decision now id x = [mark_removed now id].
Proof.
  unfold_lifecycle. atoms; cbn; intros H; repeat (destruct H as [H|H]); try contradiction;
    try discriminate; reflexivity.
Qed.

(** X15: a record that the first loop hides and the detection loop then
    promotes in the same run ends up both hidden and flagged: the
    promotion does not clear [removed], and it is computed from the
    in-memory copy, which the hiding did not touch, so [lastSeen] is
    set from the record's own [lastSeen] and timestamp and the
    [lastSeen: now] of the hiding is overwritten. *)
Theorem hidden_then_promoted
    (gd : value -> value -> value -> value -> num) (tf : num -> string)
    (now later : Z) (reports : option collection) (st : store)
    (id : string) (d : doc) (p : patch) :
  NoDup (List.map fst (cameras st)) ->
  In (id, d) (cameras st) ->
  In (mark_removed now id) (main gd tf now later (cameras st) reports) ->
  In (Update id p) (hotspot_pass gd tf later (candidates now (cameras st) reports)) ->
  let dm := (maintain now (id, d)).1 in
  exists d', coll_lookup id (cameras (run gd tf now later reports st)) = Some d'
    /\ removed d' = VBool true /\ removedByWorker d' = VBool true
    /\ hotspot d' = VBool true
    /\ expiresAt d' = vnum (later + PRESERVE_HOTSPOT_DAYS * MS_DAY)
    /\ lastSeen d' = VNum (num_max (to_number (JS.or (lastSeen dm) (vnum 0)))
                                   (to_number (JS.or (timestamp dm) (vnum 0)))).
Proof.
  intros Hnd Hin Hm Hp dm.
  rewrite main_decides in Hm;
    [|reflexivity|discriminate|intros q Hq _; inversion Hq; subst; cbn; discriminate].
  destruct Hm as [d0 [Hin0 Hm]].
  assert (d0 = d) as -> by (eapply NoDup_fst_eq; eassumption).
  apply decision_hide_only in Hm. fold dm in Hm.
  rewrite (run_lookup_mem gd tf now later reports st id d) by assumption.
  fold dm. rewrite Hm, replay_app.
  unfold mark_removed at 1. run_replay.
  set (d1 := apply_patch _ dm).
  set (H := hotspot_pass gd tf later (candidates now (cameras st) reports)) in *.
  assert (Hall : forall q, In (Update id q) H -> q = promotion later dm).
  { intros q Hq.
    apply (candidates_update gd tf now later (cameras st) reports id d q Hnd Hin) in Hq.
    apply Hq. }
  destruct (replay_established
              (fun y => hotspot y = VBool true
                        /\ expiresAt y = vnum (later + PRESERVE_HOTSPOT_DAYS * MS_DAY)
                        /\ lastSeen y
                           = VNum (num_max (to_number (JS.or (lastSeen dm) (vnum 0)))
                                           (to_number (JS.or (timestamp dm) (vnum 0)))))
              H id d1) as [d' [Hd' (Hh & He & Hl)]].
  - apply hotspot_pass_no_delete.
  - intros q Hq y. rewrite (Hall q Hq). destruct y. cbn. auto.
  - exists p. exact Hp.
  - exists d'. split; [exact Hd'|].
    assert (Hr : removed d' = VBool true /\ removedByWorker d' = VBool true).
    { revert Hd'.
      apply (replay_preserves
               (fun y => removed y = VBool true /\ removedByWorker y = VBool true)).
      - subst d1. destruct dm. cbn. auto.
      - intros q Hq y Hy. rewrite (Hall q Hq). destruct y. cbn in *. exact Hy. }
    destruct Hr. auto 10.
Qed.

Lemma hidden_then_promoted_witness :
  let st := store_of [("a", mobile_at 60000 (vnum 0)); ("b", mobile_at 120000 (vnum 0));
                      ("c", mobile_at 180000 (vnum 0))] in
  exists d', coll_lookup "a" (cameras (run degree_distance fixed4 t0 t1 None st)) = Some d'
    /\ removed d' = VBool true /\ hotspot d' = VBool true
    /\ lastSeen d' = vnum (t0 - 60000).
Proof.
  cbv zeta.
  destruct (hidden_then_promoted degree_distance fixed4 t0 t1 None
              (store_of [("a", mobile_at 60000 (vnum 0)); ("b", mobile_at 120000 (vnum 0));
                         ("c", mobile_at 180000 (vnum 0))])
              "a" (mobile_at 60000 (vnum 0))
              (promotion t1 (maintain t0 ("a", mobile_at 60000 (vnum 0))).1))
    as (d' & Hd' & Hr & _ & Hh & _ & Hl).
  - distinct.
  - left. reflexivity.
  - vm_compute. do 3 right. left. reflexivity.
  - vm_compute. left. reflexivity.
  - exists d'. split; [exact Hd'|]. split; [exact Hr|]. split; [exact Hh|]. exact Hl.
Defined.

(** ** Raw reports *)

Lemma fetch_reports_ignored (cutoff : Z) (rs : collection) :
  (forall e, In e rs ->
     is_str (type_of e.2) "mobile_camera" = false
     \/ match timestamp e.2 with
        | VNum n => num_le (Fin cutoff) n = false
        | _ => True
        end) ->
  List.filter (recent_mobile cutoff) (fetch_reports cutoff (Some rs)) = [].
Proof.
  unfold fetch_reports. induction rs as [|e rs IH]; intros H; [reflexivity|].
  assert (IH' := IH (fun x Hx => H x (or_intror Hx))).
  cbn [List.filter]. destruct (H e (or_introl eq_refl)) as [Ht|Ht].
  - destruct (timestamp e.2) as [| | |n|] eqn:E; try exact IH'.
    destruct (num_le (Fin cutoff) n); [|exact IH'].
    cbn [List.map List.filter]. unfold recent_mobile at 1. cbn [snd].
    rewrite Ht. exact IH'.
  - destruct (timestamp e.2) as [| | |n|] eqn:E; try exact IH'.
    rewrite Ht. exact IH'.
Qed.

(** X17: raw reports that fail the query (a timestamp that is not a
    number, or one before the window) or that are not mobile reports
    change nothing: the run writes what it writes when the collection
    [camera_reports] is unavailable. *)
Theorem reports_ignored
    (gd : value -> value -> value -> value -> num) (tf : num -> string)
    (now later : Z) (cams rs : collection) :
  (forall e, In e rs ->
     is_str (type_of e.2) "mobile_camera" = false
     \/ match timestamp e.2 with
        | VNum n => num_le (Fin (hotspotWindowCutoff now)) n = false
        | _ => True
        end) ->
  main gd tf now later cams (Some rs) = main gd tf now later cams None.
Proof.
  intros H. rewrite !main_eq. f_equal. f_equal.
  unfold candidates, mobileDocs. f_equal.
  rewrite fetch_reports_ignored by exact H. reflexivity.
Qed.

Lemma reports_ignored_witness :
  main degree_distance fixed4 t0 t1 three_reports
    (Some [("x", set Ftimestamp (VStr "2024-01-01") (mobile_at 0 (vnum 1)));
           ("y", mobile_at (11 * MS_DAY) (vnum 1));
           ("z", set Ftype (VStr "other") (mobile_at 0 (vnum 1)))])
  = main degree_distance fixed4 t0 t1 three_reports None.
Proof.
  apply reports_ignored. intros e He. cbn in He.
  destruct He as [<-|[<-|[<-|[]]]].
  - right. exact I.
  - right. reflexivity.
  - left. reflexivity.
Defined.

(** ** The first draft and the patch *)

Ltac unfold_draft_defaults :=
  unfold Draft.maintain, ensure_timestamp, ensure_confidence, ensure_hotspot,
    Draft.ensure_expiresAt, ensure_lastSeen, Draft.lifetimeHours, count_of, type_of in *.

Ltac unfold_draft_loop :=
  unfold Draft.maintain, ensure_timestamp, ensure_confidence, ensure_hotspot,
    Draft.ensure_expiresAt, ensure_lastSeen, fixed_decision, Draft.mobile_decision,
    mark_removed, Draft.lifetimeHours, count_of, type_of in *.

#[local] Arguments Draft.mobile_decision : simpl never.

Lemma draft_maintain_target (now : Z) (cam : string * doc) (w : write) :
  In w (Draft.maintain now cam).2 -> target w = Some cam.1.
Proof.
  destruct cam as [id d]. destruct d. unfold_draft_loop. cbn.
  split_ifs; intros H; repeat (destruct H as [H|H]; [subst w; reflexivity|]);
    try contradiction.
Qed.

Lemma draft_mem_frame (now : Z) (id : string) (d : doc) :
  let dm := (Draft.maintain now (id, d)).1 in
  type dm = type d /\ count dm = count d
  /\ (is_str (type_of d) "fixed_camera" = false -> hotspot dm = hotspot d).
Proof.
  destruct d. unfold_draft_defaults. cbn. split_ifs; repeat split; auto; congruence.
Qed.

(** The draft's iteration for a non-fixed record: default updates, then
    the decision on the in-memory document. *)
Lemma draft_log (now : Z) (id : string) (d : doc) (w : write) :
  is_str (type_of d) "fixed_camera" = false ->
  let dm := (Draft.maintain now (id, d)).1 in
  In w (Draft.maintain now (id, d)).2 <->
  In w (Draft.mobile_decision now id (count_of d) dm)
  \/ (In w (Draft.maintain now (id, d)).2 /\ exists f v, w = Update id [(f, v)]).
Proof.
  intros Hf. destruct d. unfold_draft_defaults. cbn in *.
  split_ifs; try congruence; cbn; split; intros H; try tauto;
    repeat (destruct H as [H|H]; try tauto;
            try (subst w; right; split; [tauto|eexists _, _; reflexivity])).
Qed.

Lemma draft_decision_delete (now : Z) (id : string) (cnt : num) (x : doc) :
  In (Delete id) (Draft.mobile_decision now id cnt x) <->
  truthy (hotspot x) = false /\ (num_le cnt (Fin 0) = true \/ expired now x = true).
Proof.
  unfold Draft.mobile_decision, expired.
  destruct (truthy (hotspot x)), (num_le cnt (Fin 0)), (truthy (expiresAt x)),
    (num_lt (to_number (expiresAt x)) (Fin now)); cbn; intuition congruence.
Qed.

Lemma draft_fixed_no_delete (now : Z) (id : string) (d : doc) :
  is_str (type_of d) "fixed_camera" = true -> ~ In (Delete id) (Draft.maintain now (id, d)).2.
Proof. intros H. apply draft_spares. left. exact H. Qed.

Lemma draft_maintain_delete (now : Z) (id : string) (d : doc) :
  In (Delete id) (Draft.maintain now (id, d)).2 <->
  is_str (type_of d) "fixed_camera" = false
  /\ truthy (hotspot d) = false
  /\ (num_le (count_of d) (Fin 0) = true
      \/ expired now (Draft.maintain now (id, d)).1 = true).
Proof.
  destruct (is_str (type_of d) "fixed_camera") eqn:Hf.
  - split; [intros H; exfalso; eapply draft_fixed_no_delete; eassumption|].
    intros [H _]. discriminate.
  - rewrite (draft_log now id d (Delete id) Hf), draft_decision_delete.
    destruct (draft_mem_frame now id d) as (_ & _ & Hh). rewrite (Hh Hf).
    split.
    + intros [H|[_ (f & v & H)]]; [tauto|discriminate].
    + intros (_ & H). left. exact H.
Qed.

Lemma draft_hotspot_pass_no_delete
    (gd : value -> value -> value -> value -> num) (tf : num -> string)
    (now later : Z) (docs : collection) (id : string) :
  ~ In (Delete id) (Draft.hotspot_pass gd tf now later docs).
Proof.
  unfold Draft.hotspot_pass, Draft.cluster. intros H.
  apply in_flat_map in H as [base [_ H]].
  destruct (truthy (hotspot base.2)); [destruct H|].
  destruct (HOTSPOT_THRESHOLD <=? length _)%nat; [|destruct H].
  apply in_app_iff in H as [H|[H|[]]]; [|discriminate].
  apply in_map_iff in H as [n [H _]]. discriminate.
Qed.

(** The writes of a run of the first draft in which nothing throws
    delete the camera document [id] exactly when the snapshot holds a
    record with that id that is not a fixed camera, carries no hotspot
    flag, and has a count of at most 0 or has expired. *)
Lemma draft_deleted_iff
    (gd : value -> value -> value -> value -> num) (tf : num -> string)
    (now later : Z) (cams : collection) (id : string) :
  In (Delete id) (Draft.main gd tf now later cams) <->
  exists d, In (id, d) cams
    /\ is_str (type_of d) "fixed_camera" = false
    /\ truthy (hotspot d) = false
    /\ (num_le (count_of d) (Fin 0) = true
        \/ expired now (Draft.maintain now (id, d)).1 = true).
Proof.
  unfold Draft.main, Draft.maintenance_pass. rewrite in_app_iff, in_flat_map. split.
  - intros [[[i d] [Hin H]]|H].
    + pose proof (draft_maintain_target _ _ _ H) as Ht. cbn in Ht. inversion Ht; subst i.
      exists d. split; [exact Hin|]. apply draft_maintain_delete. exact H.
    + exfalso. eapply draft_hotspot_pass_no_delete. exact H.
  - intros [d [Hin H]]. left. exists (id, d). split; [exact Hin|].
    apply draft_maintain_delete. exact H.
Qed.

(** The expiry the two drafts hold in memory for a non-fixed record. *)
Lemma mem_expiresAt (now : Z) (id : string) (d : doc) :
  is_str (type_of d) "fixed_camera" = false ->
  let ts := if truthy (timestamp d) then timestamp d else vnum now in
  expiresAt (maintain now (id, d)).1
  = (if truthy (expiresAt d) then expiresAt d
     else VNum (num_add (num_or (to_number ts) (Fin now))
                        (Fin (lifetimeHours d * MS_HOUR))))
  /\ expiresAt (Draft.maintain now (id, d)).1
     = (if truthy (expiresAt d) then expiresAt d
        else VNum (num_add (num_or (to_number ts) (Fin now))
                           (Fin (Draft.lifetimeHours d * MS_HOUR)))).
Proof.
  intros Hf. destruct d. unfold_draft_defaults. unfold_defaults. cbn in *.
  split; split_ifs; try congruence; reflexivity.
Qed.

Lemma shorter_lifetime_expires_sooner (now : Z) (n : num) (lp ld : Z) :
  0 < ld <= lp ->
  n = Fin now \/ (forall z, n = Fin z -> 0 < z) ->
  num_truthy (num_add n (Fin lp)) && num_lt (num_add n (Fin lp)) (Fin now) = true ->
  num_truthy (num_add n (Fin ld)) && num_lt (num_add n (Fin ld)) (Fin now) = true.
Proof.
  intros Hl Hn. unfold num_truthy, num_add, num_lt.
  destruct n as [| | |z]; cbn; auto.
  destruct (Z.eqb_spec (z + lp) 0), (Z.ltb_spec (z + lp) now); cbn;
    try discriminate; intros _.
  destruct Hn as [Hn|Hn]; [inversion Hn; subst z; exfalso; lia|].
  specialize (Hn z eq_refl).
  destruct (Z.eqb_spec (z + ld) 0), (Z.ltb_spec (z + ld) now); cbn;
    try reflexivity; exfalso; lia.
Qed.

Lemma num_or_now (now : Z) (m : num) :
  (forall z, m = Fin z -> 0 <= z) ->
  num_or m (Fin now) = Fin now \/ (forall z, num_or m (Fin now) = Fin z -> 0 < z).
Proof.
  intros Hm. unfold num_or, num_truthy. destruct m as [| | |z]; auto.
  - right. discriminate.
  - right. discriminate.
  - destruct (Z.eqb_spec z 0); cbn; [auto|].
    right. intros z' Hz. inversion Hz; subst z'. specialize (Hm z eq_refl). lia.
Qed.

Lemma lifetimes (d : doc) :
  0 < Draft.lifetimeHours d * MS_HOUR <= lifetimeHours d * MS_HOUR.
Proof.
  unfold Draft.lifetimeHours, lifetimeHours.
  destruct (is_str (type_of d) "other");
    unfold Draft.OTHER_EXPIRE_HOURS, Draft.MOBILE_EXPIRE_HOURS, OTHER_EXPIRE_HOURS,
      MOBILE_EXPIRE_HOURS, MS_HOUR; lia.
Qed.

(** X19: the patch only spares records: whatever the patched loop
    deletes, the first draft's loop deletes as well, for a record whose
    timestamp does not read as a negative number. *)
Theorem patch_deletes_less (now : Z) (id : string) (d : doc) :
  (forall z, to_number (timestamp d) = Fin z -> 0 <= z) ->
  In (Delete id) (maintain now (id, d)).2 ->
  In (Delete id) (Draft.maintain now (id, d)).2.
Proof.
  intros Hts H.
  apply maintain_decides in H; [|discriminate].
  apply decision_delete in H as (Hf & Hh & Hc & _).
  rewrite maintain_mem_type_of in Hf. rewrite maintain_mem_count_of in Hc.
  rewrite maintain_mem_hotspot in Hh by exact Hf.
  apply draft_maintain_delete. split; [exact Hf|]. split; [exact Hh|].
  destruct Hc as [Hc|He]; [left; exact Hc|right].
  revert He. unfold expired.
  destruct (mem_expiresAt now id d Hf) as [-> ->].
  destruct (truthy (expiresAt d)) eqn:Ee; [auto|].
  apply shorter_lifetime_expires_sooner; [apply lifetimes|].
  destruct (truthy (timestamp d)) eqn:Et.
  - apply num_or_now. exact Hts.
  - left. unfold num_or, to_number, vnum. destruct (num_truthy (Fin now)); reflexivity.
Qed.

Lemma patch_deletes_less_witness :
  In (Delete "gone") (Draft.maintain t0 ("gone", hidden_old)).2.
Proof.
  refine (patch_deletes_less t0 "gone" hidden_old _ _).
  - intros z Hz. vm_compute in Hz. inversion Hz. discriminate.
  - vm_compute. left. reflexivity.
Defined.

(** X21: on a fixed camera the two drafts of the loop do the same:
    the same default updates, the same removal at the threshold, the
    same in-memory document. *)
Theorem draft_agrees_on_fixed (now : Z) (id : string) (d : doc) :
  is_str (type_of d) "fixed_camera" = true ->
  Draft.maintain now (id, d) = maintain now (id, d).
Proof.
  intros Hf. destruct d. unfold_draft_defaults. unfold_defaults. cbn in *.
  split_ifs; try congruence; reflexivity.
Qed.

Lemma draft_agrees_on_fixed_witness :
  Draft.maintain t0 ("cam1", fixed_cam) = maintain t0 ("cam1", fixed_cam).
Proof. exact (draft_agrees_on_fixed t0 "cam1" fixed_cam eq_refl). Defined.

(** ** The maintainer draft *)

Lemma toMillis_falsy (getTime : value -> num) (ts : value) :
  truthy ts = false -> Maintainer.toMillis getTime ts = Fin 0.
Proof. intros H. unfold Maintainer.toMillis. rewrite H. reflexivity. Qed.

(** X23: [toMillis] never yields NaN: a falsy value reads as 0, a
    number as itself, and anything else as the time of its date, or 0
    when the date is invalid. *)
Theorem toMillis_total (getTime : value -> num) (ts : value) :
  Maintainer.toMillis getTime ts <> NaN
  /\ (truthy ts = false -> Maintainer.toMillis getTime ts = Fin 0)
  /\ (forall n, ts = VNum n -> Maintainer.toMillis getTime ts = num_or n (Fin 0))
  /\ ((forall n, ts <> VNum n) -> truthy ts = true ->
      Maintainer.toMillis getTime ts
      = match getTime ts with NaN => Fin 0 | t => t end).
Proof.
  unfold Maintainer.toMillis, num_or.
  destruct (truthy ts) eqn:Et; cbn [negb].
  - split; [|split; [discriminate|split]].
    + destruct ts as [| |b|n|s]; try discriminate Et.
      * destruct (getTime (VBool b)); discriminate.
      * unfold truthy in Et. intros ->. discriminate.
      * destruct (getTime (VStr s)); discriminate.
    + intros n ->. unfold truthy in Et. rewrite Et. reflexivity.
    + intros Hn _. destruct ts as [| |b|n|s]; try discriminate Et; try reflexivity.
      exfalso. eapply Hn. reflexivity.
  - split; [discriminate|]. split; [reflexivity|]. split; [|discriminate].
    intros n ->. unfold truthy in Et. rewrite Et. reflexivity.
Qed.

Lemma toMillis_total_witness :
  Maintainer.toMillis (fun _ => NaN) (VStr "soon") = Fin 0
  /\ Maintainer.toMillis (fun _ => NaN) (vnum 0) = Fin 0.
Proof.
  destruct (toMillis_total (fun _ => NaN) (VStr "soon")) as (_ & _ & _ & H).
  destruct (toMillis_total (fun _ => NaN) (vnum 0)) as (_ & H0 & _).
  split; [apply H; [discriminate|reflexivity]|apply H0; reflexivity].
Defined.

Lemma scan_In (getTime : value -> num) (toISOString : num -> string)
    (now : Z) (e : string * doc) :
  let r := Maintainer.scan getTime toISOString now e in
  (r.1 = [] /\ r.2 = [])
  \/ (truthy (removed e.2) = false
      /\ is_str (JS.or (type e.2) (VStr "other")) "fixed_camera" = false
      /\ (r.1 = [] \/ exists s, r.1 = [(e.1, [(FexpiresAt, VStr s)])])
      /\ (r.2 = [] \/ r.2 = [e.1])).
Proof.
  unfold Maintainer.scan. cbv zeta.
  destruct (truthy (removed e.2)); [left; auto|].
  destruct (is_str (JS.or (type e.2) (VStr "other")) "mobile_camera") eqn:Em; cbn [orb].
  - right. split; [reflexivity|].
    split; [destruct (JS.or (type e.2) (VStr "other")); try reflexivity;
            unfold is_str in *; apply String.eqb_eq in Em; subst; reflexivity|].
    destruct (num_lt _ _ && _); cbn [fst snd];
      (split; [destruct (negb _); [right; eexists; reflexivity|left; reflexivity]|auto]).
  - destruct (is_str (JS.or (type e.2) (VStr "other")) "other") eqn:Eo; [|left; auto].
    right. split; [reflexivity|].
    split; [destruct (JS.or (type e.2) (VStr "other")); try reflexivity;
            unfold is_str in *; apply String.eqb_eq in Eo; subst; reflexivity|].
    destruct (num_lt _ _ && _); cbn [fst snd];
      (split; [destruct (negb _); [right; eexists; reflexivity|left; reflexivity]|auto]).
Qed.

(** X24: the expiry scan schedules only documents of the snapshot that
    are not removed and not fixed cameras, for deletion as for update,
    and an update sets nothing but [expiresAt], to a string. *)
Theorem expiry_scan_sound (getTime : value -> num) (toISOString : num -> string)
    (now : Z) (docs : collection) :
  (forall id, In id (Maintainer.expiry_scan getTime toISOString now docs).2 ->
     exists d, In (id, d) docs /\ truthy (removed d) = false
               /\ is_str (JS.or (type d) (VStr "other")) "fixed_camera" = false)
  /\ (forall id p, In (id, p) (Maintainer.expiry_scan getTime toISOString now docs).1 ->
        exists d s, In (id, d) docs /\ truthy (removed d) = false
                    /\ is_str (JS.or (type d) (VStr "other")) "fixed_camera" = false
                    /\ p = [(FexpiresAt, VStr s)]).
Proof.
  unfold Maintainer.expiry_scan. cbn [fst snd]. split.
  - intros id H. apply in_flat_map in H as [[i d] [Hin H]].
    destruct (scan_In getTime toISOString now (i, d)) as [[_ E]|(Hr & Hf & _ & [E|E])];
      rewrite E in H; try destruct H as [H|[]]; try contradiction.
    cbn [fst] in H. subst i. exists d. auto.
  - intros id p H. apply in_flat_map in H as [[i d] [Hin H]].
    destruct (scan_In getTime toISOString now (i, d)) as [[E _]|(Hr & Hf & [E|[s E]] & _)];
      rewrite E in H; try destruct H as [H|[]]; try contradiction.
    cbn [fst] in H. inversion H; subst. exists d, s. auto.
Qed.

Lemma expiry_scan_sound_witness :
  let docs := [("cam1", fixed_cam); ("gone", hidden_old);
               ("m", mobile_at (9 * MS_HOUR) (vnum 1))] in
  (Maintainer.expiry_scan (fun _ => NaN) (fun _ => "1970") t0 docs).2 = ["m"]
  /\ exists d, In ("m", d) docs /\ truthy (removed d) = false.
Proof.
  cbv zeta. split; [reflexivity|].
  destruct (proj1 (expiry_scan_sound (fun _ => NaN) (fun _ => "1970") t0
                     [("cam1", fixed_cam); ("gone", hidden_old);
                      ("m", mobile_at (9 * MS_HOUR) (vnum 1))]) "m")
    as (d & Hin & Hr & _).
  - left. reflexivity.
  - exists d. split; assumption.
Defined.

(** What the scan does with one document when [toISOString] does not
    throw. *)
Lemma scan_spec (getTime : value -> num) (toISOString : num -> string)
    (now : Z) (id : string) (d : doc) :
  truthy (removed d) = false ->
  is_str (JS.or (type d) (VStr "other")) "mobile_camera"
  || is_str (JS.or (type d) (VStr "other")) "other" = true ->
  let lifetime :=
    if is_str (JS.or (type d) (VStr "other")) "mobile_camera"
    then Maintainer.MOBILE_LIFETIME_HOURS else Maintainer.OTHER_LIFETIME_HOURS in
  let computed :=
    num_add (num_or (Maintainer.toMillis getTime (timestamp d)) (Fin now))
            (Fin (lifetime * 60 * 60 * 1000)) in
  let stored :=
    if truthy (expiresAt d) then Maintainer.toMillis getTime (expiresAt d) else Fin 0 in
  let r := Maintainer.scan getTime toISOString now (id, d) in
  r.1 = (if num_truthy stored then []
         else [(id, [(FexpiresAt, VStr (toISOString computed))])])
  /\ r.2 = (if num_lt (num_or stored computed) (Fin now) then [id] else [])
  /\ (truthy (timestamp d) = false -> num_truthy stored = false -> r.2 = []).
Proof.
  intros Hr Hty. cbv zeta. unfold Maintainer.scan. cbn [fst snd]. rewrite Hr, Hty.
  set (ty := JS.or (type d) (VStr "other")) in *.
  assert (Hf : is_str ty "fixed_camera" = false).
  { destruct ty; try reflexivity. unfold is_str in *.
    apply orb_true_iff in Hty as [H|H]; apply String.eqb_eq in H; subst; reflexivity. }
  rewrite Hf. cbn [negb]. rewrite andb_true_r.
  set (stored := if truthy (expiresAt d) then _ else _).
  set (computed := num_add _ _).
  split; [|split].
  - destruct (num_lt (num_or stored computed) (Fin now)), (num_truthy stored); reflexivity.
  - destruct (num_lt (num_or stored computed) (Fin now)); reflexivity.
  - intros Ht Hs.
    assert (E : num_lt (num_or stored computed) (Fin now) = false).
    { unfold num_or. rewrite Hs. subst computed.
      rewrite (toMillis_falsy getTime (timestamp d) Ht).
      unfold num_or, num_truthy, num_add, num_lt. cbn.
      apply Z.ltb_ge.
      destruct (is_str ty "mobile_camera");
        unfold Maintainer.MOBILE_LIFETIME_HOURS, Maintainer.OTHER_LIFETIME_HOURS; lia. }
    rewrite E. reflexivity.
Qed.

(** ** Further comparisons and defaults *)

(** X26: on a candidate list built by the draft's own filter, the
    draft's extra test of the neighbour's timestamp against the window
    never fires: its neighbourhoods are those of the patched loop,
    which dropped the test. *)
Theorem draft_nearby_check_redundant
    (gd : value -> value -> value -> value -> num)
    (now : Z) (b : doc) (docs : collection) :
  (forall o, In o docs -> recent_mobile (Draft.hotspotWindowCutoff now) o = true) ->
  Draft.nearby gd now b docs = nearby gd b docs.
Proof.
  intros H. unfold Draft.nearby, nearby. apply filter_ext_in. intros o Ho.
  destruct (negb (located o.2)); [reflexivity|].
  destruct (recent_timestamp _ _ (H o Ho)) as [_ Hc].
  replace (num_lt (to_number (timestamp o.2)) (Fin (Draft.hotspotWindowCutoff now)))
    with false; [reflexivity|].
  revert Hc. unfold num_le, num_lt.
  destruct (to_number (timestamp o.2)); try discriminate; try reflexivity.
  rewrite Z.leb_le. intros Hc. symmetry. apply Z.ltb_ge. exact Hc.
Qed.

Lemma draft_nearby_check_redundant_witness :
  let docs := Draft.mobileDocs t0 (Draft.maintenance_pass t0 three_reports).1 in
  Draft.nearby degree_distance t0 (complete_mobile 60000) docs
  = nearby degree_distance (complete_mobile 60000) docs.
Proof.
  cbv zeta.
  refine (draft_nearby_check_redundant degree_distance t0 (complete_mobile 60000)
            (Draft.mobileDocs t0 (Draft.maintenance_pass t0 three_reports).1) _).
  intros o Ho. unfold Draft.mobileDocs in Ho. apply filter_In in Ho as [_ Ho]. exact Ho.
Defined.

Lemma fixed_log (now : Z) (id : string) (d : doc) :
  is_str (type_of d) "fixed_camera" = true ->
  truthy (hotspot (maintain now (id, d)).1) = true
  /\ expiresAt (maintain now (id, d)).1 = expiresAt d
  /\ decision now id (maintain now (id, d)).1
     = fixed_decision now id (count_of d) (maintain now (id, d)).1.
Proof.
  intros Hf. split; [|split].
  - destruct d. unfold_defaults. cbn in *. split_ifs; try congruence; try reflexivity.
    all: apply negb_false_iff; assumption.
  - destruct d. unfold_defaults. cbn in *. split_ifs; try congruence; reflexivity.
  - unfold decision. rewrite maintain_mem_type_of, Hf, maintain_mem_count_of. reflexivity.
Qed.

(** When nothing throws, a fixed camera carries a truthy hotspot flag
    after the run, and the run has not touched its [expiresAt]. *)
Lemma fixed_after_run
    (gd : value -> value -> value -> value -> num) (tf : num -> string)
    (now later : Z) (reports : option collection) (st : store) (id : string) (d : doc) :
  NoDup (List.map fst (cameras st)) ->
  In (id, d) (cameras st) ->
  is_str (type_of d) "fixed_camera" = true ->
  exists d', coll_lookup id (cameras (run gd tf now later reports st)) = Some d'
    /\ truthy (hotspot d') = true
    /\ (truthy (hotspot d) = true -> hotspot d' = hotspot d)
    /\ expiresAt d' = expiresAt d.
Proof.
  intros Hnd Hin Hf.
  destruct (fixed_log now id d Hf) as (Hh & He & Hd).
  rewrite (run_lookup_mem gd tf now later reports st id d) by assumption.
  rewrite replay_app, Hd.
  assert (Hrec : recent_mobile (hotspotWindowCutoff now) (id, (maintain now (id, d)).1)
                 = false).
  { destruct (recent_mobile _ _) eqn:E; [|reflexivity].
    apply recent_mobile_type in E. cbn [snd] in E.
    rewrite (maintain_mem_type_of now id d) in E.
    pose proof (is_str_inj _ _ _ Hf E). discriminate. }
  rewrite (hotspot_pass_skips gd tf now later (cameras st) reports id d) by assumption.
  assert (Hkeep : truthy (hotspot d) = true -> hotspot (maintain now (id, d)).1 = hotspot d).
  { intros Ht. destruct d. unfold_defaults. cbn in *.
    split_ifs; try reflexivity; try congruence; rewrite Ht in *; discriminate. }
  unfold fixed_decision, mark_removed.
  destruct (num_le (count_of d) (Fin FIXED_REMOVE_THRESHOLD)
            && negb (truthy (removed (maintain now (id, d)).1))).
  - run_replay. eexists. split; [reflexivity|].
    destruct (maintain now (id, d)).1. cbn in *. auto.
  - cbn. eexists. split; [reflexivity|]. auto.
Qed.

(** X28: a non-fixed record that arrives with none of the defaulted
    fields gets exactly the four default updates, in the order
    [timestamp], [confidence], [expiresAt], [lastSeen], the expiry
    being [OTHER_EXPIRE_HOURS] or [MOBILE_EXPIRE_HOURS] after the
    clock; with a positive count or a hotspot flag nothing follows, and
    otherwise the record is hidden, never deleted. *)
Theorem bare_record_defaults (now : Z) (id : string) (d : doc) :
  now <> 0 ->
  is_str (type_of d) "fixed_camera" = false ->
  truthy (timestamp d) = false -> nullish (confidence d) = true ->
  truthy (expiresAt d) = false -> truthy (lastSeen d) = false ->
  (maintain now (id, d)).2
  = [Update id [(Ftimestamp, vnum now)];
     Update id [(Fconfidence, vnum 70)];
     Update id [(FexpiresAt, vnum (now + lifetimeHours d * MS_HOUR))];
     Update id [(FlastSeen, vnum now)]]
    ++ (if negb (truthy (hotspot d)) && num_le (count_of d) (Fin 0)
        then if negb (truthy (removed d)) then [mark_removed now id] else []
        else []).
Proof.
  intros Hnow Hf Ht Hc He Hl.
  assert (Htn : truthy (vnum now) = true) by (apply truthy_vnum; exact Hnow).
  assert (Hnn : num_truthy (Fin now) = true) by exact Htn.
  pose proof (now_inside_window now) as Hw. unfold outside_window in Hw. cbn in Hw.
  destruct d as [ty ts cn cf hs rm rw ex ls la lo]. unfold maintain, ensure_timestamp, ensure_confidence, ensure_expiresAt,
    ensure_lastSeen, count_of, type_of, lifetimeHours in *. cbn in *.
  repeat (first [rewrite Ht | rewrite Hc | rewrite Hf | rewrite He | rewrite Hl ]; cbn).
  unfold type_of. cbn [type].
  change (to_number (vnum now)) with (Fin now) in *.
  unfold num_or at 1 2. rewrite Hnn. unfold JS.or at 2 3. rewrite Htn.
  unfold num_add.
  do 4 f_equal.
  unfold mobile_decision, hide_or_delete. cbn [hotspot expiresAt timestamp removed].
  change (to_number (vnum now)) with (Fin now) in *.
  rewrite Hw.
  destruct (negb (truthy hs) && _) eqn:E1; [reflexivity|].
  replace (truthy (VNum (Fin (now + _))) && _) with false; [reflexivity|].
  symmetry. apply andb_false_iff. right.
  unfold to_number, num_lt. apply Z.ltb_ge.
  destruct (is_str _ "other"); unfold OTHER_EXPIRE_HOURS, MOBILE_EXPIRE_HOURS, MS_HOUR; lia.
Qed.

Lemma bare_record_defaults_witness :
  (maintain t0 ("n", set Ftype (VStr "other") blank)).2
  = [Update "n" [(Ftimestamp, vnum t0)];
     Update "n" [(Fconfidence, vnum 70)];
     Update "n" [(FexpiresAt, vnum (t0 + 10 * MS_HOUR))];
     Update "n" [(FlastSeen, vnum t0)];
     mark_removed t0 "n"].
Proof.
  exact (bare_record_defaults t0 "n" (set Ftype (VStr "other") blank)
           ltac:(discriminate) eq_refl eq_refl eq_refl eq_refl eq_refl).
Defined.
(** * The job with its failures *)

(** ** A run that throws issues a beginning of the writes *)

Ltac unfold_iteration :=
  unfold iteration, maintain, ensure_timestamp, ensure_confidence, ensure_hotspot,
    ensure_expiresAt, ensure_lastSeen, mobile_decision, expired, lifetimeHours,
    count_of, type_of in *.

#[local] Arguments valid_time : simpl never.
#[local] Arguments hide_or_delete : simpl never.

(** An iteration that returns has done what [maintain] says; one that
    throws has issued a beginning of it, and at least one write. *)
Lemma iteration_spec (now : Z) (cam : string * doc) :
  match iteration now cam with
  | Returns d log => maintain now cam = (d, log)
  | Throws log => log <> [] /\ exists rest, (maintain now cam).2 = log ++ rest
  end.
Proof.
  destruct cam as [id d]. destruct d. unfold_iteration. cbn.
  split_ifs; try reflexivity; try congruence;
    (split; [discriminate|eexists; cbn; reflexivity]).
Qed.

Lemma loop_spec (now : Z) (cams : collection) :
  match loop now cams with
  | Returns mem log => maintenance_pass now cams = (mem, log)
  | Throws log => log <> [] /\ exists rest, (maintenance_pass now cams).2 = log ++ rest
  end.
Proof.
  unfold maintenance_pass.
  induction cams as [|cam cams IH]; [reflexivity|].
  cbn [loop List.map flat_map fst snd].
  pose proof (iteration_spec now cam) as Hi.
  destruct (iteration now cam) as [d log|log].
  - rewrite Hi. cbn [fst snd].
    destruct (loop now cams) as [mem log'|log'].
    + inversion IH as [[Hm Hl]]. rewrite Hm, Hl. reflexivity.
    + destruct IH as [Hne [rest Hr]]. cbn [snd] in Hr. split.
      * intros H. apply app_eq_nil in H as [_ H]. contradiction.
      * exists rest. cbn [snd]. rewrite Hr, app_assoc. reflexivity.
  - destruct Hi as [Hne [rest Hr]]. split; [exact Hne|].
    eexists. cbn [snd]. rewrite Hr, <- app_assoc. reflexivity.
Qed.

(** What went through is a beginning of the log, and the store
    afterwards is the store with these writes applied. *)
Lemma commit_spec (log : list write) (st : store) :
  let '(done, st', ok) := commit log st in
  st' = apply_writes done st
  /\ (exists rest, log = done ++ rest)
  /\ (ok = true -> done = log)
  /\ (ok = accepted log st).
Proof.
  revert st. induction log as [|w log IH]; intros st.
  - cbn. split; [reflexivity|]. split; [exists []; reflexivity|]. auto.
  - cbn [commit accepted].
    destruct (match w with
              | Update id _ =>
                  match coll_lookup id (cameras st) with Some _ => true | None => false end
              | _ => true
              end).
    + specialize (IH (apply_write st w)).
      destruct (commit log (apply_write st w)) as [[done st'] ok].
      destruct IH as (H1 & [rest H2] & H3 & H4).
      split; [exact H1|]. split; [exists rest; cbn; rewrite <- H2; reflexivity|].
      split; [intros Hok; rewrite (H3 Hok); reflexivity|exact H4].
    + split; [reflexivity|]. split; [exists (w :: log); reflexivity|].
      split; [discriminate|reflexivity].
Qed.

Section Script.

Context (gd : value -> value -> value -> value -> num) (tf : num -> string).
Context (now later : Z) (reports : option collection) (st : store).

(** The writes that went through are a beginning of the writes of a run
    in which nothing fails, and they are what changed the store. *)
Lemma worker_prefix :
  after (worker gd tf now later reports st)
  = apply_writes (issued (worker gd tf now later reports st)) st
  /\ exists rest,
       main gd tf now later (cameras st) reports
       = issued (worker gd tf now later reports st) ++ rest.
Proof.
  unfold worker. rewrite main_eq. unfold candidates.
  destruct (negb (valid_time (Fin now))); [split; [reflexivity|eexists; reflexivity]|].
  pose proof (loop_spec now (cameras st)) as Hl.
  destruct (loop now (cameras st)) as [mem log|log].
  - rewrite Hl. cbn [fst snd].
    pose proof (commit_spec
                  (log ++ hotspot_pass gd tf later
                            (mobileDocs now mem
                               (fetch_reports (hotspotWindowCutoff now) reports))) st) as Hc.
    destruct (commit _ st) as [[done st'] ok]. cbn [issued after].
    destruct Hc as (H1 & H2 & _). auto.
  - destruct Hl as [_ [rest Hr]]. rewrite Hr.
    pose proof (commit_spec log st) as Hc.
    destruct (commit log st) as [[done st'] ok]. cbn [issued after].
    destruct Hc as (H1 & [rest' H2] & _). split; [exact H1|].
    exists (rest' ++ rest ++ hotspot_pass gd tf later
                       (mobileDocs now (maintenance_pass now (cameras st)).1
                          (fetch_reports (hotspotWindowCutoff now) reports))).
    rewrite H2, <- !app_assoc. reflexivity.
Qed.

(** A run that ends with exit code 0 has done all of it. *)
Lemma worker_completed :
  completed (worker gd tf now later reports st) = true ->
  valid_time (Fin now) = true
  /\ loop now (cameras st) = Returns (maintenance_pass now (cameras st)).1
                               (maintenance_pass now (cameras st)).2
  /\ issued (worker gd tf now later reports st) = main gd tf now later (cameras st) reports
  /\ after (worker gd tf now later reports st) = run gd tf now later reports st.
Proof.
  unfold worker, run. rewrite main_eq. unfold candidates.
  destruct (valid_time (Fin now)); cbn [negb]; [|discriminate].
  pose proof (loop_spec now (cameras st)) as Hl.
  destruct (loop now (cameras st)) as [mem log|log].
  - rewrite Hl. cbn [fst snd].
    pose proof (commit_spec
                  (log ++ hotspot_pass gd tf later
                            (mobileDocs now mem
                               (fetch_reports (hotspotWindowCutoff now) reports))) st) as Hc.
    destruct (commit _ st) as [[done st'] ok]. cbn [issued after completed].
    destruct Hc as (H1 & _ & H3 & _). intros Hok. rewrite (H3 Hok) in *. auto.
  - destruct (commit log st) as [[done st'] ok]. cbn. discriminate.
Qed.

(** Conversely, a valid clock, a first loop that returns and a log that
    the store accepts give exit code 0. *)
Lemma worker_completes :
  valid_time (Fin now) = true ->
  (exists mem log, loop now (cameras st) = Returns mem log) ->
  accepted (main gd tf now later (cameras st) reports) st = true ->
  completed (worker gd tf now later reports st) = true.
Proof.
  intros Hv [mem [log Hl]]. unfold worker. rewrite main_eq. unfold candidates.
  rewrite Hv. cbn [negb].
  pose proof (loop_spec now (cameras st)) as Hs. rewrite Hl in *. rewrite Hs. cbn [fst snd].
  pose proof (commit_spec
                (log ++ hotspot_pass gd tf later
                          (mobileDocs now mem
                             (fetch_reports (hotspotWindowCutoff now) reports))) st) as Hc.
  destruct (commit _ st) as [[done st'] ok]. cbn [completed].
  destruct Hc as (_ & _ & _ & H4). intros Ha. rewrite H4. exact Ha.
Qed.

(** Safety carries over: what the script issues, a run without failures
    issues too. *)
Lemma issued_In (w : write) :
  In w (issued (worker gd tf now later reports st)) ->
  In w (main gd tf now later (cameras st) reports).
Proof.
  destruct worker_prefix as [_ [rest ->]]. intros H. apply in_app_iff. left. exact H.
Qed.

(** A snapshot document that no write of a run without failures deletes
    is still stored after the script. *)
Lemma worker_keeps (id : string) (d : doc) :
  NoDup (List.map fst (cameras st)) -> In (id, d) (cameras st) ->
  ~ In (Delete id) (main gd tf now later (cameras st) reports) ->
  exists d', coll_lookup id (cameras (after (worker gd tf now later reports st))) = Some d'.
Proof.
  intros Hnd Hin Hdel. destruct worker_prefix as [-> _].
  rewrite coll_lookup_apply_writes, (coll_lookup_In id d) by assumption.
  destruct (replay_invariant (fun _ => True)
              (issued (worker gd tf now later reports st)) id d)
    as [d' [Hd' _]]; [exact I| |auto|eauto].
  intros H. apply Hdel, issued_In. exact H.
Qed.

End Script.

(** A run that issues nothing when nothing fails does not fail. *)
Lemma worker_quiet (gd : value -> value -> value -> value -> num) (tf : num -> string)
    (now later : Z) (reports : option collection) (st : store) :
  valid_time (Fin now) = true ->
  main gd tf now later (cameras st) reports = [] ->
  worker gd tf now later reports st = mkResult [] st true.
Proof.
  intros Hv Hm. unfold worker. rewrite Hv. cbn [negb].
  rewrite main_eq in Hm. unfold candidates in Hm. apply app_eq_nil in Hm as [Hm Hh].
  pose proof (loop_spec now (cameras st)) as Hl.
  destruct (loop now (cameras st)) as [mem log|log].
  - rewrite Hl in Hm, Hh. cbn [fst snd] in Hm, Hh. rewrite Hm, Hh. reflexivity.
  - destruct Hl as [Hne [rest Hr]]. rewrite Hm in Hr. symmetry in Hr.
    apply app_eq_nil in Hr as [Hr _]. contradiction.
Qed.

(** ** Clusters inside a larger store *)

Lemma NoDup_fst_filter {A B : Type} (f : A * B -> bool) (l : list (A * B)) :
  NoDup (List.map fst l) -> NoDup (List.map fst (List.filter f l)).
Proof.
  induction l as [|a l IH]; cbn; intros H; [constructor|].
  apply NoDup_cons in H as [Ha H]. rewrite list_elem_of_In in Ha.
  destruct (f a); cbn; [|apply IH; exact H].
  apply NoDup_cons. split; [|apply IH; exact H].
  rewrite list_elem_of_In. intros Hin. apply Ha.
  apply in_map_iff in Hin as [x [Hx Hin]]. apply filter_In in Hin as [Hin _].
  apply in_map_iff. exists x. auto.
Qed.

Lemma NoDup_fst_map {A B C : Type} (g : A * B -> C) (l : list (A * B)) :
  NoDup (List.map fst l) -> NoDup (List.map (fun e => (e.1, g e)) l).
Proof.
  induction l as [|a l IH]; cbn; intros H; [constructor|].
  apply NoDup_cons in H as [Ha H]. rewrite list_elem_of_In in Ha.
  apply NoDup_cons. split; [|apply IH; exact H].
  rewrite list_elem_of_In. intros Hin. apply Ha.
  apply in_map_iff in Hin as [x [Hx Hin]]. inversion Hx as [[H1 H2]].
  apply in_map_iff. exists x. auto.
Qed.

Section Members.

Context (gd : value -> value -> value -> value -> num) (tf : num -> string).
Context (now later : Z) (reports : option collection) (cams : collection).
Context (sel : string * doc -> bool).

Abbreviation members := (List.filter sel cams).
Abbreviation docs := (candidates now cams reports).
Abbreviation copy := (fun e : string * doc => (e.1, (maintain now e).1)).

Hypothesis Hnd : NoDup (List.map fst cams).
Hypothesis Hall : forall e, In e members -> clusterable now e.
Hypothesis Hnear : mutually_near gd members.
Hypothesis Hlen : (HOTSPOT_THRESHOLD <= length members)%nat.

Lemma member_In (e : string * doc) : In e members -> In e cams.
Proof. intros H. apply filter_In in H as [H _]. exact H. Qed.

(** The in-memory copy of a member is a candidate, with the member's
    coordinates, timestamp and flag. *)
Lemma member_copy (e : string * doc) :
  In e members ->
  In (copy e) docs /\ located (copy e).2 = true
  /\ lat (copy e).2 = lat e.2 /\ lon (copy e).2 = lon e.2
  /\ hotspot (copy e).2 = hotspot e.2.
Proof.
  intros He. pose proof (Hall e He) as Hc. destruct e as [id d].
  destruct (clusterable_maintain now id d Hc) as (Hts & Hh & _).
  destruct (maintain_mem_frame now id d) as (Hty & _ & Hla & Hlo & _).
  destruct Hc as (Hm & Hlat & Hlon & Ht & Hr & _). cbn [fst snd] in *.
  split; [|split; [|auto]].
  - unfold candidates, mobileDocs. apply in_app_iff. left. apply filter_In. split.
    + apply maintenance_pass_mem. exists d. split; [apply member_In; exact He|reflexivity].
    + unfold recent_mobile, type_of in *. cbn [snd]. rewrite Hty, Hts, Hm, Ht, Hr. reflexivity.
  - unfold located. rewrite Hla, Hlo, Hts, Hlat, Hlon, Ht. reflexivity.
Qed.

(** A candidate that carries the id of a member is the member's copy. *)
Lemma candidate_member (o : string * doc) :
  In o docs -> In o.1 (List.map fst members) ->
  exists e, In e members /\ o = copy e.
Proof.
  intros Ho Hid. apply in_map_iff in Hid as [[id d] [Hid He]]. cbn [fst] in Hid.
  exists (id, d). split; [exact He|].
  destruct o as [i nd]. cbn [fst] in Hid. subst i.
  assert (Hp : String.prefix "r_" id = false) by (apply (Hall (id, d) He)).
  apply candidates_In in Ho as (d0 & Hin0 & -> & _); [|exact Hp].
  assert (d0 = d) as -> by (eapply NoDup_fst_eq; [exact Hnd|exact Hin0|apply member_In; exact He]).
  reflexivity.
Qed.

Lemma member_nearby (s e : string * doc) :
  In s members -> In e members -> In (copy e) (nearby gd (copy s).2 docs).
Proof.
  intros Hs He.
  destruct (member_copy e He) as (Hin & Hl & Hla & Hlo & _).
  destruct (member_copy s Hs) as (_ & _ & Hsla & Hslo & _).
  unfold nearby. apply filter_In. split; [exact Hin|].
  rewrite Hl. cbn [negb]. rewrite Hsla, Hslo, Hla, Hlo. apply Hnear; assumption.
Qed.

Lemma copies_NoDup : NoDup (List.map copy members).
Proof. apply (NoDup_fst_map (fun e => (maintain now e).1)), NoDup_fst_filter, Hnd. Qed.

Lemma nearby_members_le (s : string * doc) :
  In s members -> (length members <= length (nearby gd (copy s).2 docs))%nat.
Proof.
  intros Hs. rewrite <- (length_map copy members).
  apply NoDup_incl_length; [apply NoDup_ListNoDup, copies_NoDup|].
  intros o Ho. apply in_map_iff in Ho as [e [<- He]]. apply member_nearby; assumption.
Qed.

(** An unflagged member seeds a cluster that promotes every member. *)
Lemma seed_promotes (s e : string * doc) :
  In s members -> unflagged s = true -> In e members ->
  In (Update e.1 (promotion later (copy e).2)) (hotspot_pass gd tf later docs).
Proof.
  intros Hs Hu He.
  destruct (member_copy s Hs) as (Hin & Hl & _ & _ & Hh).
  unfold hotspot_pass. apply in_flat_map. exists (copy s). split; [exact Hin|].
  unfold cluster. rewrite Hl. cbn [negb]. rewrite Hh.
  unfold unflagged in Hu. apply negb_true_iff in Hu. rewrite Hu.
  pose proof (nearby_members_le s Hs) as Hle.
  assert (Hth : (HOTSPOT_THRESHOLD <=? length (nearby gd (copy s).2 docs))%nat = true).
  { apply Nat.leb_le. eapply Nat.le_trans; [exact Hlen|exact Hle]. }
  rewrite Hth. apply in_app_iff. left. apply in_flat_map.
  exists (copy e). split; [apply member_nearby; assumption|].
  unfold promote. cbn [fst snd].
  assert (Hp : String.prefix "r_" e.1 = false) by (apply (Hall e He)).
  rewrite Hp, andb_false_r. left. reflexivity.
Qed.

Lemma seed_upserts (s : string * doc) :
  In s members -> unflagged s = true ->
  In (SetMerge (hotspotId tf s.2) (hotspotDoc later (copy s).2 (nearby gd (copy s).2 docs)))
     (hotspot_pass gd tf later docs).
Proof.
  intros Hs Hu.
  destruct (member_copy s Hs) as (Hin & Hl & Hla & Hlo & Hh).
  unfold hotspot_pass. apply in_flat_map. exists (copy s). split; [exact Hin|].
  unfold cluster. rewrite Hl. cbn [negb]. rewrite Hh.
  unfold unflagged in Hu. apply negb_true_iff in Hu. rewrite Hu.
  pose proof (nearby_members_le s Hs) as Hle.
  assert (Hth : (HOTSPOT_THRESHOLD <=? length (nearby gd (copy s).2 docs))%nat = true).
  { apply Nat.leb_le. eapply Nat.le_trans; [exact Hlen|exact Hle]. }
  rewrite Hth. apply in_app_iff. right. left.
  unfold hotspotId. rewrite Hla, Hlo. reflexivity.
Qed.

(** In a secluded cluster the neighbourhood of a member is the cluster. *)
Lemma secluded_nearby (s : string * doc) :
  secluded gd tf members docs -> In s members ->
  length (nearby gd (copy s).2 docs) = length members.
Proof.
  intros Hsec Hs. apply Nat.le_antisymm; [|apply nearby_members_le; exact Hs].
  rewrite <- (length_map copy members).
  destruct (member_copy s Hs) as (_ & _ & Hsla & Hslo & _).
  assert (Hmem : forall o, In o (nearby gd (copy s).2 docs) -> In o (List.map copy members)).
  { intros o Ho. apply nearby_In in Ho as (Ho & Hl & Hd).
    rewrite Hsla, Hslo in Hd.
    destruct (candidate_member o Ho) as [e [He ->]].
    - apply (Hsec s o Hs Ho Hl). left. exact Hd.
    - exact (in_map copy members e He). }
  apply NoDup_incl_length; [|exact Hmem].
  unfold nearby, candidates, mobileDocs in *. rewrite List.filter_app.
  match goal with |- List.NoDup (?a ++ ?b) => assert (Hb : b = []) end.
  { match goal with |- ?b = [] => destruct b as [|o l] eqn:E end; [reflexivity|].
    exfalso. assert (Ho : In o (o :: l)) by (left; reflexivity). rewrite <- E in Ho.
    pose proof Ho as Ho'. apply filter_In in Ho' as [Ho' _]. apply filter_In in Ho' as [Ho' _].
    destruct o as [i nd]. apply fetch_reports_ids in Ho'.
    assert (Hin : In (i, nd) (List.map copy members)).
    { apply Hmem. rewrite List.filter_app. apply in_app_iff. right. exact Ho. }
    apply in_map_iff in Hin as [e [Heq He]].
    assert (Hi : e.1 = i) by (cbn in Heq; congruence).
    pose proof (Hall e He) as Hc. destruct Hc as (_ & _ & _ & _ & _ & Hp).
    rewrite Hi in Hp. congruence. }
  rewrite Hb, app_nil_r.
  apply List.NoDup_filter, List.NoDup_filter.
  unfold maintenance_pass. cbn [fst]. apply NoDup_ListNoDup.
  apply (NoDup_fst_map (fun e => (maintain now e).1)), Hnd.
Qed.

(** So every summary written under the key of a member counts the
    members. *)
Lemma secluded_upsert (e : string * doc) (s : summary) :
  secluded gd tf members docs -> In e members ->
  In (SetMerge (hotspotId tf e.2) s) (main gd tf now later cams reports) ->
  report_count s = length members.
Proof.
  intros Hsec He H. apply main_In in H as [[cam [_ H]]|H].
  { apply maintain_target in H. discriminate. }
  unfold hotspot_pass in H. apply in_flat_map in H as [base [Hb H]].
  apply cluster_In in H as (Hl & _ & _ & [[n [_ H]]|H]).
  { apply promote_target in H as [H _]. discriminate. }
  assert (Hk : hotspotId tf base.2 = hotspotId tf e.2) by congruence.
  assert (Hs : s = hotspotDoc later base.2 (nearby gd base.2 docs)) by congruence.
  rewrite Hs. clear H Hs.
  destruct (candidate_member base Hb) as [b [Hbm ->]].
  { apply (Hsec e base He Hb Hl). right. exact Hk. }
  cbn [report_count hotspotDoc]. apply secluded_nearby; assumption.
Qed.

End Members.

(** ** Clustering *)

(** C1 (as amended): in a run that ends with exit code 0, over a store with
    ids whose converted fields hold no text, let the members be any
    N >= HOTSPOT_THRESHOLD documents of the store that are mobile
    reports with truthy coordinates, a timestamp inside the window and
    an id not starting with [r_], pairwise within the radius.  Then
    every member is stored afterwards with a truthy hotspot flag, which
    is [true] as soon as one member was unflagged, and when the cluster
    keeps to itself a summary is stored under the rounded coordinates
    of the first unflagged member, with [report_count = N]. *)
Theorem cluster_flagged
    (gd : value -> value -> value -> value -> num) (tf : num -> string)
    (now later : Z) (reports : option collection) (st : store)
    (sel : string * doc -> bool) :
  let members := List.filter sel (cameras st) in
  let r := worker gd tf now later reports st in
  NoDup (List.map fst (cameras st)) ->
  (forall e, In e (cameras st) -> untexted e.2 = true) ->
  (forall e, In e members -> clusterable now e) ->
  mutually_near gd members ->
  (HOTSPOT_THRESHOLD <= length members)%nat ->
  completed r = true ->
  (forall id d, In (id, d) members ->
     exists d', coll_lookup id (cameras (after r)) = Some d'
                /\ truthy (hotspot d') = true
                /\ ((exists s, In s members /\ unflagged s = true) ->
                    hotspot d' = VBool true))
  /\ (forall id d, List.find unflagged members = Some (id, d) ->
        secluded gd tf members (candidates now (cameras st) reports) ->
        exists s, camera_hotspots (after r) !! hotspotId tf d = Some s
                  /\ report_count s = length members).
Proof.
  intros members r Hnd _ Hall Hnear Hlen Hok.
  destruct (worker_completed gd tf now later reports st Hok) as (_ & _ & _ & Haft).
  subst r. rewrite Haft. subst members.
  set (H := hotspot_pass gd tf later (candidates now (cameras st) reports)).
  assert (Hprom : forall id p, In (Update id p) H ->
                    forall y, hotspot (apply_patch p y) = VBool true).
  { intros id p Hp y.
    apply hotspot_pass_update in Hp as (_ & nd & _ & _ & _ & _ & _ & -> & _).
    apply promotion_sets. }
  assert (Hnodel : forall id, ~ In (Delete id) H) by (intros id; apply hotspot_pass_no_delete).
  split.
  - intros id d Hin.
    pose proof (member_In (cameras st) sel _ Hin) as Hc.
    rewrite (run_lookup gd tf now later reports st id d) by assumption.
    destruct (clusterable_maintain now id d (Hall _ Hin)) as (_ & _ & d1 & Hd1 & Hh1).
    rewrite Hd1. fold H.
    assert (Hflag : (exists s, In s (List.filter sel (cameras st)) /\ unflagged s = true) ->
                    exists d', replay H id (Some d1) = Some d' /\ hotspot d' = VBool true).
    { intros [s [Hs Hu]]. apply replay_established; [apply Hnodel|apply Hprom|].
      eexists.
      apply (seed_promotes gd tf now later reports (cameras st) sel Hnd Hall Hnear Hlen
               s (id, d) Hs Hu Hin). }
    destruct (unflagged (id, d)) eqn:Eu.
    + destruct Hflag as [d' [Hd' Hh]]; [exists (id, d); auto|].
      exists d'. split; [exact Hd'|]. split; [rewrite Hh; reflexivity|]. intros _. exact Hh.
    + destruct (replay_invariant (fun y => truthy (hotspot y) = true) H id d1)
        as [d' [Hd' Ht]].
      * rewrite Hh1. unfold unflagged in Eu. apply negb_false_iff in Eu. exact Eu.
      * apply Hnodel.
      * intros p Hp y _. rewrite (Hprom id p Hp y). reflexivity.
      * exists d'. split; [exact Hd'|]. split; [exact Ht|].
        intros Hs. destruct (Hflag Hs) as [d'' [Hd'' Hh]]. congruence.
  - intros id d Hfind Hsec. apply find_some in Hfind as [Hin Hu].
    unfold run. apply camera_hotspots_upserted.
    + intros s Hs.
      eapply secluded_upsert with (e := (id, d)); eauto.
    + eexists. apply main_In. right.
      eapply seed_upserts with (s := (id, d)); eauto.
Qed.

Lemma cluster_flagged_witness :
  let st := store_of (("cam1", fixed_cam) :: three_reports) in
  let r := worker degree_distance fixed4 t0 t1 None st in
  (exists d', coll_lookup "b" (cameras (after r)) = Some d' /\ hotspot d' = VBool true)
  /\ (exists s, camera_hotspots (after r) !! hotspotId fixed4 (complete_mobile 60000) = Some s
                /\ report_count s = 3%nat).
Proof.
  cbv zeta.
  set (st := store_of (("cam1", fixed_cam) :: three_reports)).
  set (sel := fun e : string * doc => is_str (type e.2) "mobile_camera").
  assert (Hm : List.filter sel (cameras st) = three_reports) by reflexivity.
  destruct (cluster_flagged degree_distance fixed4 t0 t1 None st sel) as [H1 H2].
  - subst st. distinct.
  - intros e He. cbn in He.
    repeat (destruct He as [He|He]; [subst e; reflexivity|]). contradiction.
  - rewrite Hm. intros e He. cbn in He.
    repeat (destruct He as [He|He]; [subst e; repeat split; reflexivity|]). contradiction.
  - rewrite Hm. intros a b Ha Hb. cbn in Ha, Hb.
    repeat (destruct Ha as [Ha|Ha]; [subst a|]); try contradiction;
      repeat (destruct Hb as [Hb|Hb]; [subst b; reflexivity|]); contradiction.
  - rewrite Hm. apply Nat.leb_le. reflexivity.
  - vm_compute. reflexivity.
  - rewrite Hm in H1, H2. split.
    + destruct (H1 "b" (complete_mobile 120000)) as (d' & Hd' & _ & Hh).
      { right. left. reflexivity. }
      exists d'. split; [exact Hd'|]. apply Hh.
      exists ("a", complete_mobile 60000). split; [left; reflexivity|reflexivity].
    + apply (H2 "a" (complete_mobile 60000)); [reflexivity|].
      intros e o He Ho _ _.
      assert (Hc : candidates t0 (cameras st) None = three_reports)
        by (vm_compute; reflexivity).
      rewrite Hc in Ho. apply in_map. exact Ho.
Defined.

(** ** Hotspot preservation *)

Lemma ensure_frame_expiresAt (now : Z) (id : string) (d : doc) :
  expiresAt (ensure_timestamp now id d).1 = expiresAt d
  /\ expiresAt (ensure_confidence id d).1 = expiresAt d
  /\ expiresAt (ensure_lastSeen now id d).1 = expiresAt d.
Proof.
  unfold ensure_timestamp, ensure_confidence, ensure_lastSeen.
  destruct (negb (truthy (timestamp d))), (nullish (confidence d)),
    (negb (truthy (lastSeen d))); destruct d; auto.
Qed.

(** Unless the log line after the expiry default throws, the iteration
    issues the writes of [maintain], also when the log line after the
    extension throws. *)
Lemma iteration_written (now : Z) (cam : string * doc) :
  (truthy (expiresAt cam.2) = false ->
   valid_time (to_number (expiresAt (maintain now cam).1)) = true) ->
  written (iteration now cam) = (maintain now cam).2.
Proof.
  destruct cam as [id d]. unfold iteration, maintain. cbn [fst snd].
  destruct (ensure_frame_expiresAt now id d) as (F1 & _ & _).
  destruct (ensure_timestamp now id d) as [d1 w1].
  destruct (ensure_frame_expiresAt now id d1) as (_ & F2 & _).
  destruct (ensure_confidence id d1) as [d2 w2].
  cbn [fst] in F1, F2.
  destruct (is_str (type_of d2) "fixed_camera").
  { destruct (ensure_hotspot id d2); reflexivity. }
  destruct (ensure_expiresAt now id d2) as [d3 w3].
  destruct (ensure_frame_expiresAt now id d3) as (_ & _ & F3).
  destruct (ensure_lastSeen now id d3) as [d4 w4].
  cbn [fst snd] in *. rewrite F2, F1, F3. intros Hv.
  assert (Hc : negb (truthy (expiresAt d))
               && negb (valid_time (to_number (expiresAt d3))) = false).
  { destruct (truthy (expiresAt d)); [reflexivity|]. rewrite Hv; reflexivity. }
  rewrite Hc. unfold mobile_decision, expired.
  repeat match goal with
         | |- context [if ?b then _ else _] => destruct b
         end; cbn [written]; rewrite <- ?app_assoc, ?app_nil_r; reflexivity.
Qed.

(** C4: a record with the hotspot flag is never physically deleted,
    neither by its own iteration of the loop nor by anything else the
    script issues, and it is still stored when the script ends.  When
    its iteration gets to the expiry test and finds a non-fixed one
    expired, it writes [expiresAt = now + PRESERVE_HOTSPOT_DAYS] days
    and [lastSeen = now], which is then the stored state.  In a run
    that ends with exit code 0 this write is among the writes issued,
    and at the end of the run [expiresAt] is at least that instant. *)
Theorem hotspot_kept
    (gd : value -> value -> value -> value -> num) (tf : num -> string)
    (now later : Z) (reports : option collection) (st : store)
    (id : string) (d : doc) :
  NoDup (List.map fst (cameras st)) ->
  In (id, d) (cameras st) ->
  truthy (hotspot d) = true ->
  let r := worker gd tf now later reports st in
  let dm := (maintain now (id, d)).1 in
  let horizon := now + PRESERVE_HOTSPOT_DAYS * MS_DAY in
  (~ In (Delete id) (issued r) /\ is_Some (coll_lookup id (cameras (after r))))
  /\ ~ In (Delete id) (written (iteration now (id, d)))
  /\ (is_str (type_of d) "fixed_camera" = false ->
      untexted d = true ->
      (truthy (expiresAt d) = false -> valid_time (to_number (expiresAt dm)) = true) ->
      expired now dm = true ->
      In (extension now id) (written (iteration now (id, d)))
      /\ exists d1, replay (written (iteration now (id, d))) id (Some d) = Some d1
                    /\ expiresAt d1 = vnum horizon /\ lastSeen d1 = vnum now)
  /\ (completed r = true ->
      (forall e, In e (cameras st) -> untexted e.2 = true) ->
      is_str (type_of d) "fixed_camera" = false ->
      expired now dm = true ->
      In (extension now id) (issued r)
      /\ (now <= later ->
          exists d' e, coll_lookup id (cameras (after r)) = Some d'
                       /\ expiresAt d' = vnum e /\ horizon <= e)).
Proof.
  intros Hnd Hin Hh r dm horizon.
  destruct (hotspot_preserved gd tf now later reports st id d Hnd Hin Hh)
    as (Hdel & _ & Hext).
  destruct (hotspot_not_deleted now id d Hh) as [Hown _].
  split; [|split; [|split]].
  - split.
    + intros H. apply Hdel. eapply issued_In. exact H.
    + destruct (worker_keeps gd tf now later reports st id d Hnd Hin Hdel) as [d' Hd'].
      exists d'. exact Hd'.
  - intros H. apply Hown.
    pose proof (iteration_spec now (id, d)) as Hs.
    destruct (iteration now (id, d)) as [x log|log]; cbn [written] in H.
    + rewrite Hs. exact H.
    + destruct Hs as [_ [rest ->]]. apply in_app_iff. left. exact H.
  - intros Hf _ Hv Hexp. rewrite (iteration_written now (id, d) Hv).
    apply (hotspot_extended now id d Hh Hf Hexp).
  - intros Hok _ Hf Hexp.
    destruct (worker_completed gd tf now later reports st Hok) as (_ & _ & Hiss & Haft).
    subst r. rewrite Hiss, Haft.
    destruct (Hext Hf Hexp) as (Hw & _ & Hend). split; assumption.
Qed.

Lemma hotspot_kept_witness :
  let r := worker degree_distance fixed4 t0 t1 None (store_of [("h1", stale_hotspot)]) in
  ~ In (Delete "h1") (issued r)
  /\ In (extension t0 "h1") (written (iteration t0 ("h1", stale_hotspot)))
  /\ In (extension t0 "h1") (issued r).
Proof.
  cbv zeta.
  destruct (hotspot_kept degree_distance fixed4 t0 t1 None
              (store_of [("h1", stale_hotspot)]) "h1" stale_hotspot)
    as ((Hdel & _) & _ & Hown & Hrun).
  - distinct.
  - left. reflexivity.
  - reflexivity.
  - split; [exact Hdel|]. split.
    + apply Hown; [reflexivity|reflexivity|discriminate|reflexivity].
    + apply Hrun; [vm_compute; reflexivity| |reflexivity|reflexivity].
      intros e [<-|[]]. reflexivity.
Defined.

(** ** Running the job again *)

(** C2 (as amended): when the first run ends with exit code 0, no raw
    reports are read, the snapshot's [timestamp] and [lastSeen] fields
    hold epoch numbers or are unset, no id starts with [r_], every
    located record is within the radius of itself, and the clock
    readings are positive and the same in both runs, a second run on
    the store the first run left issues no write, changes nothing and
    ends with exit code 0 as well. *)
Theorem rerun_issues_nothing
    (gd : value -> value -> value -> value -> num) (tf : num -> string)
    (now later : Z) (st : store) :
  NoDup (List.map fst (cameras st)) ->
  (forall e, In e (cameras st) -> epoch_typed e.2 = true) ->
  (forall e, In e (cameras st) -> String.prefix "r_" e.1 = false) ->
  self_near gd (cameras st) ->
  0 < now -> now <= later ->
  let r := worker gd tf now later None st in
  completed r = true ->
  worker gd tf now later None (after r) = mkResult [] (after r) true.
Proof.
  intros Hnd Ht Hi Hs Hn Hl r Hok.
  destruct (worker_completed gd tf now later None st Hok) as (Hv & _ & _ & Haft).
  subst r. rewrite Haft.
  apply worker_quiet; [exact Hv|].
  apply (rerun_writes_nothing gd tf now later st); assumption.
Qed.

Lemma rerun_issues_nothing_witness :
  let r := worker degree_distance fixed4 t0 t1 None (store_of three_reports) in
  worker degree_distance fixed4 t0 t1 None (after r) = mkResult [] (after r) true.
Proof.
  cbv zeta.
  refine (rerun_issues_nothing degree_distance fixed4 t0 t1 (store_of three_reports)
            _ _ _ _ _ _ _).
  - distinct.
  - intros e He. cbn in He.
    repeat (destruct He as [He|He]; [subst e; reflexivity|]). contradiction.
  - intros e He. cbn in He.
    repeat (destruct He as [He|He]; [subst e; reflexivity|]). contradiction.
  - intros e He _ _. cbn in He.
    repeat (destruct He as [He|He]; [subst e; reflexivity|]). contradiction.
  - reflexivity.
  - unfold t1. lia.
  - vm_compute. reflexivity.
Defined.

(** ** Where the script stops short *)

(** C3 fails on the code because of a log line.  A report with count 0,
    no hotspot flag and a timestamp inside the window, whose timestamp
    was written in nanoseconds and which has no [expiresAt], gets its
    confidence and its expiry; the line that logs the expiry then
    throws, before the record is marked.  The script ends with exit
    code 1 and the record stays visible, and so does an ordinary report
    with count 0 behind it, which the script hides when it runs without
    the first. *)
Lemma count_zero_left_visible :
  let run_of := fun cams => worker degree_distance fixed4 t0 t1 None (store_of cams) in
  let r := run_of [("ns", nanos)] in
  let both := run_of [("ns", nanos); ("new", mobile_at MS_HOUR (vnum 0))] in
  let alone := run_of [("new", mobile_at MS_HOUR (vnum 0))] in
  (is_str (type_of nanos) "fixed_camera" = false
   /\ num_le (count_of nanos) (Fin 0) = true
   /\ truthy (hotspot nanos) = false
   /\ outside_window t0 nanos = false)
  /\ iteration t0 ("ns", nanos)
     = Throws [Update "ns" [(Fconfidence, vnum 70)];
               Update "ns" [(FexpiresAt, vnum (t0 * 1000000 + 10 * MS_HOUR))]]
  /\ completed r = false
  /\ removed <$> coll_lookup "ns" (cameras (after r)) = Some VUndef
  /\ completed both = false
  /\ removed <$> coll_lookup "new" (cameras (after both)) = Some VUndef
  /\ completed alone = true
  /\ removed <$> coll_lookup "new" (cameras (after alone)) = Some (VBool true).
Proof.
  cbv zeta. repeat split; vm_compute; reflexivity.
Qed.

(** C5 fails on the code for the same reason as C3: the fixed camera
    [cam1], voted down to -4 and not removed, is marked when the script
    reaches it, and is left as it was, neither marked nor deleted, when
    the log line of a report before it in the snapshot throws. *)
Lemma fixed_camera_left_unmarked :
  let run_of := fun cams => worker degree_distance fixed4 t0 t1 None (store_of cams) in
  let both := run_of [("ns", nanos); ("cam1", fixed_cam)] in
  let alone := run_of [("cam1", fixed_cam)] in
  (is_str (type_of fixed_cam) "fixed_camera" = true
   /\ num_le (count_of fixed_cam) (Fin FIXED_REMOVE_THRESHOLD) = true
   /\ truthy (removed fixed_cam) = false)
  /\ completed both = false
  /\ coll_lookup "cam1" (cameras (after both)) = Some fixed_cam
  /\ completed alone = true
  /\ removed <$> coll_lookup "cam1" (cameras (after alone)) = Some (VBool true).
Proof.
  cbv zeta. repeat split; vm_compute; reflexivity.
Qed.

(** ** Lifecycle writes of the script *)

(** X1: over a store whose converted fields hold no text, the script
    deletes the camera document [id] only when the snapshot holds a
    record with that id that is not a fixed camera, carries no hotspot
    flag, has a count of at most 0 or has expired, and whose timestamp
    lies before the hotspot window (expiry and age as read after the
    defaults were filled in); a run that ends with exit code 0 has
    deleted every such document. *)
Theorem deletes_exactly
    (gd : value -> value -> value -> value -> num) (tf : num -> string)
    (now later : Z) (reports : option collection) (st : store) (id : string) :
  (forall e, In e (cameras st) -> untexted e.2 = true) ->
  let r := worker gd tf now later reports st in
  let due :=
    exists d, In (id, d) (cameras st)
      /\ is_str (type_of d) "fixed_camera" = false
      /\ truthy (hotspot d) = false
      /\ (num_le (count_of d) (Fin 0) = true
          \/ expired now (maintain now (id, d)).1 = true)
      /\ outside_window now (maintain now (id, d)).1 = true in
  (In (Delete id) (issued r) -> due)
  /\ (completed r = true -> due -> In (Delete id) (issued r)).
Proof.
  intros _ r due. split.
  - intros H. apply issued_In in H. apply deleted_iff in H. exact H.
  - intros Hok H.
    destruct (worker_completed gd tf now later reports st Hok) as (_ & _ & Hiss & _).
    subst r. rewrite Hiss. apply deleted_iff. exact H.
Qed.

Lemma deletes_exactly_witness :
  In (Delete "old")
     (issued (worker degree_distance fixed4 t0 t1 None
                (store_of [("old", mobile_at (11 * MS_DAY) (vnum 0));
                           ("new", mobile_at MS_HOUR (vnum 0))]))).
Proof.
  destruct (deletes_exactly degree_distance fixed4 t0 t1 None
              (store_of [("old", mobile_at (11 * MS_DAY) (vnum 0));
                         ("new", mobile_at MS_HOUR (vnum 0))]) "old") as [_ H].
  - intros e He. cbn in He.
    repeat (destruct He as [He|He]; [subst e; reflexivity|]). contradiction.
  - apply H; [vm_compute; reflexivity|].
    exists (mobile_at (11 * MS_DAY) (vnum 0)).
    split; [left; reflexivity|]. split; [reflexivity|]. split; [reflexivity|].
    split; [left; reflexivity|reflexivity].
Defined.

(** X2: over a store whose converted fields hold no text, the script
    hides a record (the update [removed: true, removedByWorker: true,
    lastSeen: now]) only when it is not yet removed and either is a
    fixed camera with a count of at most -3, or is a non-fixed record
    without hotspot flag, with a count of at most 0 or expired, whose
    timestamp is still inside the hotspot window; a run that ends with
    exit code 0 has hidden every such record. *)
Theorem hides_exactly
    (gd : value -> value -> value -> value -> num) (tf : num -> string)
    (now later : Z) (reports : option collection) (st : store) (id : string) :
  (forall e, In e (cameras st) -> untexted e.2 = true) ->
  let r := worker gd tf now later reports st in
  let due :=
    exists d, In (id, d) (cameras st)
      /\ truthy (removed d) = false
      /\ ((is_str (type_of d) "fixed_camera" = true
           /\ num_le (count_of d) (Fin FIXED_REMOVE_THRESHOLD) = true)
          \/ (is_str (type_of d) "fixed_camera" = false
              /\ truthy (hotspot d) = false
              /\ (num_le (count_of d) (Fin 0) = true
                  \/ expired now (maintain now (id, d)).1 = true)
              /\ outside_window now (maintain now (id, d)).1 = false)) in
  (In (mark_removed now id) (issued r) -> due)
  /\ (completed r = true -> due -> In (mark_removed now id) (issued r)).
Proof.
  intros _ r due. split.
  - intros H. apply issued_In in H. apply hidden_iff in H. exact H.
  - intros Hok H.
    destruct (worker_completed gd tf now later reports st Hok) as (_ & _ & Hiss & _).
    subst r. rewrite Hiss. apply hidden_iff. exact H.
Qed.

Lemma hides_exactly_witness :
  In (mark_removed t0 "new")
     (issued (worker degree_distance fixed4 t0 t1 None
                (store_of [("old", mobile_at (11 * MS_DAY) (vnum 0));
                           ("new", mobile_at MS_HOUR (vnum 0))]))).
Proof.
  destruct (hides_exactly degree_distance fixed4 t0 t1 None
              (store_of [("old", mobile_at (11 * MS_DAY) (vnum 0));
                         ("new", mobile_at MS_HOUR (vnum 0))]) "new") as [_ H].
  - intros e He. cbn in He.
    repeat (destruct He as [He|He]; [subst e; reflexivity|]). contradiction.
  - apply H; [vm_compute; reflexivity|].
    exists (mobile_at MS_HOUR (vnum 0)).
    split; [right; left; reflexivity|]. split; [reflexivity|]. right.
    split; [reflexivity|]. split; [reflexivity|]. split; [left; reflexivity|reflexivity].
Defined.

(** X3: over a store whose converted fields hold no text, the script
    extends the preservation of a record (the update [expiresAt: now +
    10 days, lastSeen: now]) only when the record is not a fixed
    camera, carries the hotspot flag and has expired; a run that ends
    with exit code 0 has extended every such record. *)
Theorem extends_exactly
    (gd : value -> value -> value -> value -> num) (tf : num -> string)
    (now later : Z) (reports : option collection) (st : store) (id : string) :
  (forall e, In e (cameras st) -> untexted e.2 = true) ->
  let r := worker gd tf now later reports st in
  let due :=
    exists d, In (id, d) (cameras st)
      /\ is_str (type_of d) "fixed_camera" = false
      /\ truthy (hotspot d) = true
      /\ expired now (maintain now (id, d)).1 = true in
  (In (extension now id) (issued r) -> due)
  /\ (completed r = true -> due -> In (extension now id) (issued r)).
Proof.
  intros _ r due. split.
  - intros H. apply issued_In in H. apply extended_iff in H. exact H.
  - intros Hok H.
    destruct (worker_completed gd tf now later reports st Hok) as (_ & _ & Hiss & _).
    subst r. rewrite Hiss. apply extended_iff. exact H.
Qed.

Lemma extends_exactly_witness :
  In (extension t0 "h1")
     (issued (worker degree_distance fixed4 t0 t1 None (store_of [("h1", stale_hotspot)]))).
Proof.
  destruct (extends_exactly degree_distance fixed4 t0 t1 None
              (store_of [("h1", stale_hotspot)]) "h1") as [_ H].
  - intros e [<-|[]]. reflexivity.
  - apply H; [vm_compute; reflexivity|].
    exists stale_hotspot.
    split; [left; reflexivity|]. split; [reflexivity|]. split; reflexivity.
Defined.

(** X5: a record that arrives without a (truthy) timestamp is not
    deleted by the script, whatever its count or expiry, and is still
    stored when the script ends; a run that ends with exit code 0 has
    stamped it with the clock of the run. *)
Theorem stamped_kept
    (gd : value -> value -> value -> value -> num) (tf : num -> string)
    (now later : Z) (reports : option collection) (st : store) (id : string) (d : doc) :
  NoDup (List.map fst (cameras st)) ->
  In (id, d) (cameras st) ->
  truthy (timestamp d) = false ->
  let r := worker gd tf now later reports st in
  ~ In (Delete id) (issued r)
  /\ (exists d', coll_lookup id (cameras (after r)) = Some d')
  /\ (completed r = true ->
      (forall e, In e (cameras st) -> untexted e.2 = true) ->
      In (Update id [(Ftimestamp, vnum now)]) (issued r)
      /\ exists d', coll_lookup id (cameras (after r)) = Some d'
                    /\ timestamp d' = vnum now).
Proof.
  intros Hnd Hin Ht r.
  destruct (stamped_not_deleted gd tf now later reports st id d Hnd Hin Ht)
    as (Hw & Hdel & Hend).
  split; [|split].
  - intros H. apply Hdel. eapply issued_In. exact H.
  - apply (worker_keeps gd tf now later reports st id d Hnd Hin Hdel).
  - intros Hok _.
    destruct (worker_completed gd tf now later reports st Hok) as (_ & _ & Hiss & Haft).
    subst r. rewrite Hiss, Haft. split; assumption.
Qed.

Lemma stamped_kept_witness :
  let r := worker degree_distance fixed4 t0 t1 None
             (store_of [("n", set Ftimestamp VUndef (mobile_at 0 (vnum 0)))]) in
  ~ In (Delete "n") (issued r)
  /\ exists d', coll_lookup "n" (cameras (after r)) = Some d' /\ timestamp d' = vnum t0.
Proof.
  cbv zeta.
  destruct (stamped_kept degree_distance fixed4 t0 t1 None
              (store_of [("n", set Ftimestamp VUndef (mobile_at 0 (vnum 0)))])
              "n" (set Ftimestamp VUndef (mobile_at 0 (vnum 0)))) as (H1 & _ & H3).
  - distinct.
  - left. reflexivity.
  - reflexivity.
  - split; [exact H1|]. apply H3; [vm_compute; reflexivity|].
    intros e [<-|[]]. reflexivity.
Defined.

(** ** Fixed cameras *)

Lemma ensure_frame_type (now : Z) (id : string) (d : doc) :
  type (ensure_timestamp now id d).1 = type d
  /\ type (ensure_confidence id d).1 = type d.
Proof.
  unfold ensure_timestamp, ensure_confidence.
  destruct (negb (truthy (timestamp d))), (nullish (confidence d)); destruct d; auto.
Qed.

(** The iteration of a fixed camera has no log line that can throw. *)
Lemma fixed_iteration (now : Z) (id : string) (d : doc) :
  is_str (type_of d) "fixed_camera" = true ->
  iteration now (id, d) = Returns (maintain now (id, d)).1 (maintain now (id, d)).2.
Proof.
  intros Hf. unfold iteration, maintain. cbn [fst snd].
  destruct (ensure_frame_type now id d) as (T1 & _).
  destruct (ensure_timestamp now id d) as [d1 w1].
  destruct (ensure_frame_type now id d1) as (_ & T2).
  destruct (ensure_confidence id d1) as [d2 w2].
  cbn [fst] in T1, T2.
  assert (Hty : type_of d2 = type_of d) by (unfold type_of; congruence).
  rewrite Hty, Hf. destruct (ensure_hotspot id d2). reflexivity.
Qed.

(** X30: the script never deletes a fixed camera, whatever its count,
    and the camera is still stored when the script ends.  The
    iteration of a fixed camera cannot throw; at
    [count <= FIXED_REMOVE_THRESHOLD] and not yet removed it leaves the
    document with [removed = true], [removedByWorker = true] and
    [lastSeen = now], and that is the stored state after a run that
    ends with exit code 0. *)
Theorem fixed_marked_when_reached
    (gd : value -> value -> value -> value -> num) (tf : num -> string)
    (now later : Z) (reports : option collection) (st : store)
    (id : string) (d : doc) :
  NoDup (List.map fst (cameras st)) ->
  In (id, d) (cameras st) ->
  is_str (type_of d) "fixed_camera" = true ->
  let r := worker gd tf now later reports st in
  let marked := fun d' : doc =>
    num_le (count_of d) (Fin FIXED_REMOVE_THRESHOLD) = true ->
    truthy (removed d) = false ->
    removed d' = VBool true /\ removedByWorker d' = VBool true
    /\ lastSeen d' = vnum now in
  ~ In (Delete id) (issued r)
  /\ (exists d', coll_lookup id (cameras (after r)) = Some d')
  /\ (exists dm log d1, iteration now (id, d) = Returns dm log
        /\ ~ In (Delete id) log
        /\ replay log id (Some d) = Some d1 /\ marked d1)
  /\ (completed r = true ->
      (forall e, In e (cameras st) -> untexted e.2 = true) ->
      exists d', coll_lookup id (cameras (after r)) = Some d' /\ marked d').
Proof.
  intros Hnd Hin Hf r marked.
  destruct (fixed_never_deleted gd tf now later reports st id d Hnd Hin Hf)
    as [Hdel Hend].
  destruct (fixed_maintain now id d Hf) as [Hown [d1 [Hd1 Hmark]]].
  split; [|split; [|split]].
  - intros H. apply Hdel. eapply issued_In. exact H.
  - apply (worker_keeps gd tf now later reports st id d Hnd Hin Hdel).
  - exists (maintain now (id, d)).1, (maintain now (id, d)).2, d1.
    split; [apply fixed_iteration; exact Hf|]. auto.
  - intros Hok _.
    destruct (worker_completed gd tf now later reports st Hok) as (_ & _ & _ & Haft).
    subst r. rewrite Haft. exact Hend.
Qed.

Lemma fixed_marked_when_reached_witness :
  let r := worker degree_distance fixed4 t0 t1 None
             (store_of [("ns", nanos); ("cam1", fixed_cam)]) in
  ~ In (Delete "cam1") (issued r)
  /\ (exists d', coll_lookup "cam1" (cameras (after r)) = Some d')
  /\ exists dm log d1, iteration t0 ("cam1", fixed_cam) = Returns dm log
       /\ replay log "cam1" (Some fixed_cam) = Some d1 /\ removed d1 = VBool true.
Proof.
  cbv zeta.
  destruct (fixed_marked_when_reached degree_distance fixed4 t0 t1 None
              (store_of [("ns", nanos); ("cam1", fixed_cam)]) "cam1" fixed_cam)
    as (H1 & H2 & (dm & log & d1 & Hi & _ & Hd1 & Hm) & _).
  - distinct.
  - right. left. reflexivity.
  - reflexivity.
  - split; [exact H1|]. split; [exact H2|].
    exists dm, log, d1. split; [exact Hi|]. split; [exact Hd1|].
    apply Hm; reflexivity.
Defined.

(** X27: after a run that ends with exit code 0 a fixed camera carries
    a truthy hotspot flag, and the run has not touched its [expiresAt]:
    the expiry defaults and the detection loop do not apply to it. *)
Theorem fixed_flagged
    (gd : value -> value -> value -> value -> num) (tf : num -> string)
    (now later : Z) (reports : option collection) (st : store) (id : string) (d : doc) :
  NoDup (List.map fst (cameras st)) ->
  (forall e, In e (cameras st) -> untexted e.2 = true) ->
  In (id, d) (cameras st) ->
  is_str (type_of d) "fixed_camera" = true ->
  let r := worker gd tf now later reports st in
  completed r = true ->
  exists d', coll_lookup id (cameras (after r)) = Some d'
    /\ truthy (hotspot d') = true
    /\ (truthy (hotspot d) = true -> hotspot d' = hotspot d)
    /\ expiresAt d' = expiresAt d.
Proof.
  intros Hnd _ Hin Hf r Hok.
  destruct (worker_completed gd tf now later reports st Hok) as (_ & _ & _ & Haft).
  subst r. rewrite Haft.
  apply (fixed_after_run gd tf now later reports st id d Hnd Hin Hf).
Qed.

Lemma fixed_flagged_witness :
  let r := worker degree_distance fixed4 t0 t1 None
             (store_of [("cam1", fixed_cam); ("m1", mobile_at 0 (vnum 1))]) in
  exists d', coll_lookup "cam1" (cameras (after r)) = Some d'
    /\ truthy (hotspot d') = true /\ expiresAt d' = VUndef.
Proof.
  cbv zeta.
  destruct (fixed_flagged degree_distance fixed4 t0 t1 None
              (store_of [("cam1", fixed_cam); ("m1", mobile_at 0 (vnum 1))])
              "cam1" fixed_cam) as (d' & Hd' & Hh & _ & He).
  - distinct.
  - intros e He. cbn in He.
    repeat (destruct He as [He|He]; [subst e; reflexivity|]). contradiction.
  - left. reflexivity.
  - reflexivity.
  - vm_compute. reflexivity.
  - exists d'. split; [exact Hd'|]. split; [exact Hh|exact He].
Defined.

(** ** Count at or below zero, when the run gets there *)

(** X29: in a run that ends with exit code 0, over a store with
    distinct ids whose converted fields hold no text, a non-fixed
    record with [count <= 0] and no hotspot flag is physically deleted
    when its timestamp, as the loop holds it, is older than the window
    cutoff; otherwise it stays in the store, marked [removed = true],
    and is not deleted. *)
Theorem hidden_or_deleted_when_completed
    (gd : value -> value -> value -> value -> num) (tf : num -> string)
    (now later : Z) (reports : option collection) (st : store)
    (id : string) (d : doc) :
  NoDup (List.map fst (cameras st)) ->
  (forall e, In e (cameras st) -> untexted e.2 = true) ->
  In (id, d) (cameras st) ->
  is_str (type_of d) "fixed_camera" = false ->
  num_le (count_of d) (Fin 0) = true ->
  truthy (hotspot d) = false ->
  let r := worker gd tf now later reports st in
  completed r = true ->
  (outside_window now (maintain now (id, d)).1 = true ->
   In (Delete id) (issued r) /\ coll_lookup id (cameras (after r)) = None)
  /\ (outside_window now (maintain now (id, d)).1 = false ->
      ~ In (Delete id) (issued r)
      /\ exists d', coll_lookup id (cameras (after r)) = Some d'
         /\ truthy (removed d') = true
         /\ (truthy (removed d) = false -> removed d' = VBool true)).
Proof.
  intros Hnd _ Hin Hf Hc Hh r Hok.
  destruct (worker_completed gd tf now later reports st Hok) as (_ & _ & Hiss & Haft).
  subst r. rewrite Hiss, Haft.
  apply (nonpositive_count_hide_or_delete gd tf now later reports st id d); assumption.
Qed.

Lemma hidden_or_deleted_when_completed_witness :
  let r := worker degree_distance fixed4 t0 t1 None
             (store_of [("old", mobile_at (11 * MS_DAY) (vnum 0));
                        ("new", mobile_at MS_HOUR (vnum 0))]) in
  coll_lookup "old" (cameras (after r)) = None
  /\ exists d', coll_lookup "new" (cameras (after r)) = Some d'
                /\ removed d' = VBool true.
Proof.
  cbv zeta.
  set (st := store_of [("old", mobile_at (11 * MS_DAY) (vnum 0));
                       ("new", mobile_at MS_HOUR (vnum 0))]).
  assert (Hnd : NoDup (List.map fst (cameras st))) by (subst st; distinct).
  assert (Hu : forall e, In e (cameras st) -> untexted e.2 = true).
  { intros e He. cbn in He.
    repeat (destruct He as [He|He]; [subst e; reflexivity|]). contradiction. }
  assert (Hok : completed (worker degree_distance fixed4 t0 t1 None st) = true)
    by (vm_compute; reflexivity).
  split.
  - refine (proj2 (proj1 (hidden_or_deleted_when_completed degree_distance fixed4 t0 t1 None
                     st "old" (mobile_at (11 * MS_DAY) (vnum 0)) Hnd Hu _ _ _ _ Hok) _));
      first [left; reflexivity | reflexivity].
  - destruct (proj2 (hidden_or_deleted_when_completed degree_distance fixed4 t0 t1 None
                       st "new" (mobile_at MS_HOUR (vnum 0)) Hnd Hu
                       ltac:(right; left; reflexivity) eq_refl eq_refl eq_refl Hok) eq_refl)
      as (_ & d' & Hd' & _ & Hm).
    exists d'. split; [exact Hd'|]. apply Hm. reflexivity.
Defined.

(** ** The first draft and the maintainer *)

(** X18: [Draft.main] lists the writes of a run of the first draft in
    which no log line throws and no update is rejected; a run that
    stops early has issued a beginning of them.  Over a snapshot whose
    converted fields hold no text, every deletion among them is that of
    a snapshot record that is not a fixed camera, carries no hotspot
    flag, and has a count of at most 0 or has expired: the age of the
    record plays no part. *)
Theorem draft_deletes_only
    (gd : value -> value -> value -> value -> num) (tf : num -> string)
    (now later : Z) (cams : collection) (id : string) :
  (forall e, In e cams -> untexted e.2 = true) ->
  In (Delete id) (Draft.main gd tf now later cams) ->
  exists d, In (id, d) cams
    /\ is_str (type_of d) "fixed_camera" = false
    /\ truthy (hotspot d) = false
    /\ (num_le (count_of d) (Fin 0) = true
        \/ expired now (Draft.maintain now (id, d)).1 = true).
Proof.
  intros _ H. apply draft_deleted_iff in H. exact H.
Qed.

Lemma draft_deletes_only_witness :
  exists d, In ("new", d) [("new", mobile_at MS_HOUR (vnum 0))]
    /\ truthy (hotspot d) = false.
Proof.
  destruct (draft_deletes_only degree_distance fixed4 t0 t1
              [("new", mobile_at MS_HOUR (vnum 0))] "new")
    as (d & Hin & _ & Hh & _).
  - intros e [<-|[]]. reflexivity.
  - vm_compute. auto 10.
  - exists d. split; assumption.
Defined.

(** X25: for a document that is not removed and whose type, [other]
    when absent, is [mobile_camera] or [other], and whose computed
    expiry is a date that [toISOString] can format whenever it has to,
    the scan pushes an update exactly when the stored expiry is
    unusable (absent, 0 or no valid date) and schedules the deletion
    exactly when the stored or else the computed expiry lies before
    [now]; the test for fixed cameras at that point never decides
    anything.  A document with neither a timestamp nor a usable expiry
    is updated and kept. *)
Theorem scan_decides (getTime : value -> num) (toISOString : num -> string)
    (now : Z) (id : string) (d : doc) :
  truthy (removed d) = false ->
  is_str (JS.or (type d) (VStr "other")) "mobile_camera"
  || is_str (JS.or (type d) (VStr "other")) "other" = true ->
  let lifetime :=
    if is_str (JS.or (type d) (VStr "other")) "mobile_camera"
    then Maintainer.MOBILE_LIFETIME_HOURS else Maintainer.OTHER_LIFETIME_HOURS in
  let computed :=
    num_add (num_or (Maintainer.toMillis getTime (timestamp d)) (Fin now))
            (Fin (lifetime * 60 * 60 * 1000)) in
  let stored :=
    if truthy (expiresAt d) then Maintainer.toMillis getTime (expiresAt d) else Fin 0 in
  let r := Maintainer.scan getTime toISOString now (id, d) in
  (num_truthy stored = false -> valid_time computed = true) ->
  r.1 = (if num_truthy stored then []
         else [(id, [(FexpiresAt, VStr (toISOString computed))])])
  /\ r.2 = (if num_lt (num_or stored computed) (Fin now) then [id] else [])
  /\ (truthy (timestamp d) = false -> num_truthy stored = false -> r.2 = []).
Proof.
  intros Hr Hty lifetime computed stored r _.
  apply (scan_spec getTime toISOString now id d Hr Hty).
Qed.

Lemma scan_decides_witness :
  let d := set FexpiresAt (VStr "soon") (set Ftype VUndef (mobile_at (5 * MS_HOUR) (vnum 1))) in
  Maintainer.scan (fun _ => NaN) (fun _ => "1970") t0 ("m", d)
  = ([("m", [(FexpiresAt, VStr "1970")])], ["m"]).
Proof.
  cbv zeta.
  destruct (scan_decides (fun _ => NaN) (fun _ => "1970") t0 "m"
              (set FexpiresAt (VStr "soon")
                 (set Ftype VUndef (mobile_at (5 * MS_HOUR) (vnum 1)))))
    as (H1 & H2 & _).
  - reflexivity.
  - reflexivity.
  - intros _. reflexivity.
  - apply injective_projections; [rewrite H1|rewrite H2]; reflexivity.
Defined.
